(** * Service-Providers-Discord-bot: the status poller and its commands

    A shallow embedding of [serviceproviders.py]: the status fetch
    ([get_service_data]), the renderer ([create_status_embed]), the poller
    tick ([check_and_post_incidents]) over the [webhooks] table, the
    owner check with the command tree's error handler, the bulk-send
    commands [send_message] and [multi_send], and the subscription
    commands [setup_webhook], [remove_webhook] and [toggle_webhook].

    Conventions.
    - A Python [str] is a sequence of Unicode code points ([pystr]);
      [len] is [length] and [s[:n]] is [firstn n s].
    - JSON from the status API is typed after the Statuspage schema: an
      object is a record of the keys the program reads, each present or
      absent; texts (incident ids among them) are strings.  A body may
      also be no JSON at all, or JSON that is not an object.
    - The [webhooks] table is the list of its rows, in insertion order;
      SQL statements do not fail.
    - The outside world (HTTP answers, Discord's answers to [send], the
      clock) is an explicit argument of each function; answers to the
      interaction itself ([response], [followup]) do not fail.
    - What a coroutine does to the outside is returned as a list of
      events or actions, in program order.  [print] calls are not
      recorded. *)

From Stdlib Require Import List ZArith NArith Lia Bool String Ascii QArith.
From Stdlib Require Import DecimalString Sorted.
Import ListNotations.

Local Open Scope Z_scope.

(** ** Python strings *)

Definition pystr := list N.

(** Decoding of the UTF-8 bytes of a literal of this file into code points. *)
Fixpoint utf8 (bs : list N) : pystr :=
  match bs with
  | [] => []
  | b :: rest =>
      if (b <? 128)%N then b :: utf8 rest
      else if (b <? 224)%N then
        match rest with
        | b2 :: r2 =>
            N.lor (N.shiftl (N.land b 31) 6) (N.land b2 63) :: utf8 r2
        | _ => [b]
        end
      else if (b <? 240)%N then
        match rest with
        | b2 :: b3 :: r3 =>
            N.lor (N.shiftl (N.land b 15) 12)
              (N.lor (N.shiftl (N.land b2 63) 6) (N.land b3 63)) :: utf8 r3
        | _ => [b]
        end
      else
        match rest with
        | b2 :: b3 :: b4 :: r4 =>
            N.lor (N.shiftl (N.land b 7) 18)
              (N.lor (N.shiftl (N.land b2 63) 12)
                 (N.lor (N.shiftl (N.land b3 63) 6) (N.land b4 63))) :: utf8 r4
        | _ => [b]
        end
  end.

Definition lit (s : string) : pystr :=
  utf8 (map N_of_ascii (list_ascii_of_string s)).

Definition pystr_eqb (a b : pystr) : bool :=
  if list_eq_dec N.eq_dec a b then true else false.

(** [str(n)] for a Python [int]. *)
Definition str_of_int (z : Z) : pystr :=
  lit (NilZero.string_of_int (Z.to_int z)).

Definition lower_char (c : N) : N :=
  if ((65 <=? c) && (c <=? 90))%N then (c + 32)%N else c.

Definition upper_char (c : N) : N :=
  if ((97 <=? c) && (c <=? 122))%N then (c - 32)%N else c.

(** [s.capitalize()]: the first character upper-cased, the rest
    lower-cased.  Case mapping is the ASCII one (service names are the
    ASCII keys of [SERVICES]); other code points are left as they are. *)
Definition capitalize (s : pystr) : pystr :=
  match s with
  | [] => []
  | c :: rest => upper_char c :: map lower_char rest
  end.

(** ** Exceptions *)

Inductive exn : Type :=
| KeyError (key : pystr)
| IndexError
| TypeError
| AttributeError
| ClientError.

Inductive result (A : Type) : Type :=
| Ok (a : A)
| Raise (e : exn).

Arguments Ok {A} a.
Arguments Raise {A} e.

Definition bind {A B : Type} (r : result A) (k : A -> result B) : result B :=
  match r with
  | Ok a => k a
  | Raise e => Raise e
  end.

Notation "x <- r ;; k" := (bind r (fun x => k))
  (at level 61, r at next level, right associativity).

(** ** Data of the status API *)

(** A JSON object is seen through the keys the program reads; a key that
    is absent is [None].  Text values are strings and list values are
    lists of objects, as the Statuspage API gives them. *)

Record IncidentUpdate : Type := mkUpdate {
  body : option pystr
}.

Record Incident : Type := mkIncident {
  inc_id : option pystr;
  inc_name : option pystr;
  inc_status : option pystr;
  incident_updates : option (list IncidentUpdate)
}.

Record Component : Type := mkComponent {
  comp_name : option pystr;
  comp_status : option pystr
}.

Record StatusInfo : Type := mkStatusInfo {
  description : option pystr;
  indicator : option pystr
}.

(** The top-level object of a response body: the keys ['status'],
    ['incidents'] and ['components']. *)
Record JsonObject : Type := mkObject {
  j_status : option StatusInfo;
  j_incidents : option (list Incident);
  j_components : option (list Component)
}.

(** A parsed body: an object, or any other JSON value (array, string,
    number, null). *)
Inductive Json : Type :=
| JObject (o : JsonObject)
| JOther.

(** [d.get(key, default)] on a parsed body: only a dict has [get]. *)
Definition json_get {A : Type} (j : Json) (key : JsonObject -> option A)
    (default : A) : result A :=
  match j with
  | JObject o =>
      match key o with
      | Some v => Ok v
      | None => Ok default
      end
  | JOther => Raise AttributeError
  end.

(** ** HTTP *)

(** An answer to a GET: the status code, and the body as [resp.json()]
    gives it ([None]: the body is not JSON and [resp.json()] raises). *)
Record Response : Type := mkResponse {
  resp_status : Z;
  resp_json : option Json
}.

(** [session.get(url)] either raises (no connection, timeout) or gives a
    response. *)
Inductive GetOutcome : Type :=
| GetRaises
| GetResponse (r : Response).

Definition SERVICES : list (pystr * pystr) :=
  [ (lit "vercel", lit "https://vercel.statuspage.io/api/v2");
    (lit "cloudflare", lit "https://www.cloudflarestatus.com/api/v2");
    (lit "netlify", lit "https://www.netlifystatus.com/api/v2") ].

Fixpoint dict_get {V : Type} (d : list (pystr * V)) (k : pystr) : option V :=
  match d with
  | [] => None
  | (k', v) :: rest => if pystr_eqb k' k then Some v else dict_get rest k
  end.

Record ServiceData : Type := mkData {
  sd_status : Json;
  sd_incidents : list Incident;
  sd_components : list Component
}.

(** [async with self.session.get(u) as resp: x = await resp.json()] *)
Definition read_json (http_get : pystr -> GetOutcome) (u : pystr) : result Json :=
  match http_get u with
  | GetRaises => Raise ClientError
  | GetResponse r =>
      match resp_json r with
      | Some j => Ok j
      | None => Raise ClientError
      end
  end.

(** The URLs a call of [get_service_data] requests, in order: each read
    is made only when the ones before it gave a JSON body. *)
Definition reads_of (http_get : pystr -> GetOutcome) (url : pystr) : list pystr :=
  let u1 := url ++ lit "/status.json" in
  let u2 := url ++ lit "/incidents.json" in
  let u3 := url ++ lit "/components.json" in
  match read_json http_get u1 with
  | Raise _ => [u1]
  | Ok _ =>
      match read_json http_get u2 with
      | Raise _ => [u1; u2]
      | Ok _ => [u1; u2; u3]
      end
  end.

(** [get_service_data]: the requests made, and the data or [None]. *)
Definition get_service_data (http_get : pystr -> GetOutcome)
    (service_name : pystr) : list pystr * option ServiceData :=
  match dict_get SERVICES service_name with
  | None => ([], None)
  | Some url =>
      if pystr_eqb url [] then ([], None) else
      let body :=
        status <- read_json http_get (url ++ lit "/status.json") ;;
        incidents_data <- read_json http_get (url ++ lit "/incidents.json") ;;
        components_data <- read_json http_get (url ++ lit "/components.json") ;;
        incidents <- json_get incidents_data j_incidents [] ;;
        components <- json_get components_data j_components [] ;;
        Ok (mkData status incidents components) in
      (reads_of http_get url,
       match body with
       | Ok data => Some data
       | Raise _ => None
       end)
  end.


(** A read that gives no JSON: [session.get] raises, or [resp.json()]
    does. *)
Definition no_json (o : GetOutcome) : bool :=
  match o with
  | GetRaises => true
  | GetResponse r =>
      match resp_json r with
      | None => true
      | Some _ => false
      end
  end.

(** A read whose body is JSON and not an object. *)
Definition not_object (o : GetOutcome) : bool :=
  match o with
  | GetRaises => false
  | GetResponse r =>
      match resp_json r with
      | Some JOther => true
      | _ => false
      end
  end.

(** The parsed body of a read, where there is one. *)
Definition body_of (o : GetOutcome) : option Json :=
  match o with
  | GetRaises => None
  | GetResponse r => resp_json r
  end.

(** The status code of an answer is a success code. *)
Definition is_2xx (o : GetOutcome) : bool :=
  match o with
  | GetRaises => false
  | GetResponse r => (200 <=? resp_status r) && (resp_status r <? 300)
  end.

(** ** The renderer *)

Record EmbedField : Type := mkField {
  f_name : pystr;
  f_value : pystr;
  f_inline : bool
}.

Record Embed : Type := mkEmbed {
  e_title : pystr;
  e_description : pystr;
  e_color : Z;
  e_timestamp : option Z;
  e_fields : list EmbedField;
  e_footer : option pystr
}.

Definition nl : pystr := [10%N].

(** [d[key]] on an object: [KeyError] when the key is absent. *)
Definition subscript {A : Type} (v : option A) (key : string) : result A :=
  match v with
  | Some a => Ok a
  | None => Raise (KeyError (lit key))
  end.

(** [d.get(key, default)] on an object. *)
Definition get_default {A : Type} (v : option A) (default : A) : A :=
  match v with
  | Some a => a
  | None => default
  end.

(** [data['status']['status']]: subscripting a value that is not an
    object by a string is a [TypeError]. *)
Definition status_of (j : Json) : result StatusInfo :=
  match j with
  | JObject o => subscript (j_status o) "status"
  | JOther => Raise TypeError
  end.

(** [incident.get('incident_updates', [{}])[0].get('body', '')] *)
Definition latest_update (incident : Incident) : result pystr :=
  match get_default (incident_updates incident) [mkUpdate None] with
  | [] => Raise IndexError
  | u :: _ => Ok (get_default (body u) [])
  end.

(** The update as the loop appends it: nothing for an empty text, the
    text cut after 200 characters when it is longer. *)
Definition update_text (update : pystr) : pystr :=
  match update with
  | [] => []
  | _ =>
      (if (200 <? List.length update)%nat
       then firstn 200 update ++ lit "..."
       else update) ++ nl ++ nl
  end.

Definition incident_header (incident : Incident) : pystr :=
  lit "**" ++ get_default (inc_name incident) (lit "Unnamed incident")
  ++ lit "** (" ++ get_default (inc_status incident) (lit "unknown")
  ++ lit ")" ++ nl.

(** One pass of [for incident in incidents]: what it appends. *)
Definition incident_entry (incident : Incident) : result pystr :=
  update <- latest_update incident ;;
  Ok (incident_header incident ++ update_text update).

Fixpoint incidents_loop (incidents : list Incident) (incident_text : pystr)
    : result pystr :=
  match incidents with
  | [] => Ok incident_text
  | incident :: rest =>
      entry <- incident_entry incident ;;
      incidents_loop rest (incident_text ++ entry)
  end.

Definition opt_pystr_eqb (a b : option pystr) : bool :=
  match a, b with
  | Some x, Some y => pystr_eqb x y
  | None, None => true
  | _, _ => false
  end.

Definition bullet : pystr := lit "‚Ä¢".

Definition component_line (comp : Component) : result pystr :=
  name <- subscript (comp_name comp) "name" ;;
  status <- subscript (comp_status comp) "status" ;;
  Ok (bullet ++ lit " " ++ name ++ lit ": " ++ status ++ nl).

Fixpoint components_loop (comps : list Component) (comp_text : pystr)
    : result pystr :=
  match comps with
  | [] => Ok comp_text
  | comp :: rest =>
      line <- component_line comp ;;
      components_loop rest (comp_text ++ line)
  end.

Definition color_of (indicator : pystr) : Z :=
  if pystr_eqb indicator (lit "none") then 65280
  else if pystr_eqb indicator (lit "minor") then 16776960
  else 16711680.

Definition incidents_field (data : ServiceData) : result EmbedField :=
  match firstn 3 (sd_incidents data) with
  | [] => Ok (mkField (lit "Incidents") (lit "No current incidents") false)
  | incidents =>
      incident_text <- incidents_loop incidents [] ;;
      Ok (mkField (lit "Recent Incidents") incident_text false)
  end.

Definition components_field (data : ServiceData) : result EmbedField :=
  match filter (fun c => negb (opt_pystr_eqb (comp_status c)
                                 (Some (lit "operational"))))
          (sd_components data) with
  | [] => Ok (mkField (lit "Components") (lit "All systems operational") false)
  | bad_components =>
      comp_text <- components_loop (firstn 5 bad_components) [] ;;
      Ok (mkField (lit "Affected Components") comp_text false)
  end.

(** [create_status_embed]; [now] is the clock's reading. *)
Definition create_status_embed (now : Z) (service_name : pystr)
    (data : ServiceData) : result Embed :=
  status <- status_of (sd_status data) ;;
  description <- subscript (description status) "description" ;;
  indicator <- subscript (indicator status) "indicator" ;;
  f1 <- incidents_field data ;;
  f2 <- components_field data ;;
  Ok (mkEmbed (capitalize service_name ++ lit " Status")
        (lit "**Overall Status:** " ++ description)
        (color_of indicator) (Some now) [f1; f2] (Some (lit "Last updated"))).

(** ** The [webhooks] table *)

(** One row of [webhooks]; [None] is SQL [NULL].  The columns
    [guild_id] and [service] form the primary key. *)
Record Row : Type := mkRow {
  guild_id : Z;
  channel_id : Z;
  webhook_url : pystr;
  service : pystr;
  ping_role_id : option Z;
  enabled : Z;
  last_incident_id : option pystr
}.

Definition Store := list Row.

Definition row_key (r : Row) : Z * pystr := (guild_id r, service r).

(** [WHERE guild_id = ? AND service = ?] *)
Definition has_key (g : Z) (s : pystr) (r : Row) : bool :=
  (guild_id r =? g) && pystr_eqb (service r) s.

(** The table's [PRIMARY KEY (guild_id, service)]. *)
Definition pk_unique (db : Store) : Prop := NoDup (map row_key db).

(** [SELECT * FROM webhooks WHERE enabled = 1] *)
Definition select_enabled (db : Store) : list Row :=
  filter (fun r => enabled r =? 1) db.

Definition set_last_incident_id (id : option pystr) (r : Row) : Row :=
  mkRow (guild_id r) (channel_id r) (webhook_url r) (service r)
    (ping_role_id r) (enabled r) id.

Definition set_enabled (e : Z) (r : Row) : Row :=
  mkRow (guild_id r) (channel_id r) (webhook_url r) (service r)
    (ping_role_id r) e (last_incident_id r).

(** [UPDATE webhooks SET last_incident_id = ? WHERE guild_id = ? AND service = ?] *)
Definition update_last_incident (db : Store) (id : option pystr) (g : Z)
    (s : pystr) : Store :=
  map (fun r => if has_key g s r then set_last_incident_id id r else r) db.

(** The row of a key, if any. *)
Definition lookup (g : Z) (s : pystr) (db : Store) : option Row :=
  find (has_key g s) db.

(** ** The poller tick *)

Record Payload : Type := mkPayload {
  embeds : list Embed;
  content : option pystr
}.

(** [session.post(...)] either raises or answers with a status code. *)
Inductive PostOutcome : Type :=
| PostRaises
| PostStatus (status : Z).

(** What the world answers during one pass of the tick's loop. *)
Record Pass : Type := mkPass {
  http_get : pystr -> GetOutcome;
  now : Z;
  http_post : pystr -> Payload -> PostOutcome
}.

(** What a pass does, tagged with the key of the row it works for. *)
Inductive Event : Type :=
| EvFetch (guild : Z) (svc : pystr) (requests : list pystr)
| EvPost (guild : Z) (svc : pystr) (url : pystr) (p : Payload)
    (outcome : PostOutcome)
| EvUpdate (guild : Z) (svc : pystr) (id : option pystr).

(** [{"embeds": [embed.to_dict()]}], with ["content"] added under
    [if ping_role_id:] (a role id that is set and not 0). *)
Definition webhook_payload (embed : Embed) (config : Row) : Payload :=
  mkPayload [embed]
    (match ping_role_id config with
     | Some r =>
         if negb (r =? 0)
         then Some (lit "<@&" ++ str_of_int r ++ lit "> "
                    ++ capitalize (service config) ++ lit " status update!")
         else None
     | None => None
     end).

(** The body of [for config in webhook_configs]: the table after the
    pass, the events of the pass, and the exception that leaves the loop,
    if one does ([create_status_embed] is called outside any [try]). *)
Definition process_config (w : Pass) (config : Row) (db : Store)
    : Store * list Event * option exn :=
  let g := guild_id config in
  let s := service config in
  let '(requests, fetched) := get_service_data (http_get w) s in
  let fetch := EvFetch g s requests in
  match fetched with
  | None => (db, [fetch], None)
  | Some data =>
      match sd_incidents data with
      | [] => (db, [fetch], None)
      | latest_incident :: _ =>
          let latest_incident_id := inc_id latest_incident in
          if opt_pystr_eqb latest_incident_id (last_incident_id config)
          then (db, [fetch], None)
          else
            match create_status_embed (now w) s data with
            | Raise e => (db, [fetch], Some e)
            | Ok embed =>
                let webhook_data := webhook_payload embed config in
                let outcome := http_post w (webhook_url config) webhook_data in
                let post := EvPost g s (webhook_url config) webhook_data outcome in
                match outcome with
                | PostStatus st =>
                    if st =? 204
                    then (update_last_incident db latest_incident_id g s,
                          [fetch; post; EvUpdate g s latest_incident_id], None)
                    else (db, [fetch; post], None)
                | PostRaises => (db, [fetch; post], None)
                end
            end
      end
  end.

(** The loop from its [i]-th pass on; [w i] is the world of pass [i]. *)
Fixpoint run_configs (w : nat -> Pass) (i : nat) (configs : list Row)
    (db : Store) : Store * list Event * option exn :=
  match configs with
  | [] => (db, [], None)
  | config :: rest =>
      match process_config (w i) config db with
      | (db1, ev, Some e) => (db1, ev, Some e)
      | (db1, ev, None) =>
          let '(db2, ev2, r) := run_configs w (S i) rest db1 in
          (db2, ev ++ ev2, r)
      end
  end.

(** [check_and_post_incidents]: the rows are read once, before the loop. *)
Definition check_and_post_incidents (w : nat -> Pass) (db : Store)
    : Store * list Event * option exn :=
  run_configs w 0 (select_enabled db) db.

(** The events of a tick that belong to one key. *)
Definition event_for (g : Z) (s : pystr) (e : Event) : bool :=
  match e with
  | EvFetch g' s' _ => (g' =? g) && pystr_eqb s' s
  | EvPost g' s' _ _ _ => (g' =? g) && pystr_eqb s' s
  | EvUpdate g' s' _ => (g' =? g) && pystr_eqb s' s
  end.

Definition events_of (g : Z) (s : pystr) (ev : list Event) : list Event :=
  filter (event_for g s) ev.

Definition is_post (e : Event) : bool :=
  match e with
  | EvPost _ _ _ _ _ => true
  | _ => false
  end.

(** A POST answered with 204: a confirmed delivery. *)
Definition is_accepted (e : Event) : bool :=
  match e with
  | EvPost _ _ _ _ (PostStatus st) => st =? 204
  | _ => false
  end.

Definition is_update (e : Event) : bool :=
  match e with
  | EvUpdate _ _ _ => true
  | _ => false
  end.

Definition count (p : Event -> bool) (ev : list Event) : nat :=
  List.length (filter p ev).

(** ** Commands: what a handler does *)

Inductive Content : Type :=
| Text (m : pystr)
| Rich (e : Embed).

(** [channel.send(...)] returns, or raises [discord.Forbidden], another
    [discord.HTTPException] (with its status), or another exception. *)
Inductive SendOutcome : Type :=
| Sent
| Forbidden
| HTTPException (status : Z)
| OtherException.

Inductive Sql : Type :=
| SelectEnabledOf (g : Z) (s : pystr)
| UpdateEnabled (v : bool) (g : Z) (s : pystr)
| InsertOrReplace (r : Row)
| DeleteRow (g : Z) (s : pystr).

Inductive Action : Type :=
| Respond (c : Content) (ephemeral : bool)
| Defer (ephemeral : bool)
| Followup (c : Content)
| Send (channel : Z) (c : Content) (outcome : SendOutcome)
| Sleep (seconds : Q)
| CreateWebhook (channel : Z) (name : pystr)
| Execute (q : Sql)
| Invoke (command : pystr).

Definition is_send (a : Action) : bool :=
  match a with
  | Send _ _ _ => true
  | _ => false
  end.

Definition is_sleep (a : Action) : bool :=
  match a with
  | Sleep _ => true
  | _ => false
  end.

Definition is_failed_send (a : Action) : bool :=
  match a with
  | Send _ _ Sent => false
  | Send _ _ _ => true
  | _ => false
  end.

Definition is_invoke (a : Action) : bool :=
  match a with
  | Invoke _ => true
  | _ => false
  end.

(** ** The owner check and the command tree *)

Record Interaction : Type := mkInteraction {
  user_id : Z;
  command_name : pystr
}.

Record Command : Type := mkCommand {
  cmd_name : pystr;
  cmd_checks : list (Interaction -> bool)
}.

Inductive AppCommandError : Type :=
| CheckFailure
| CommandNotFound
| CommandInvokeError.

Section Owner.

Variable OWNER_ID : Z.

(** The predicate of [is_owner()]. *)
Definition is_owner (interaction : Interaction) : bool :=
  user_id interaction =? OWNER_ID.

(** The commands registered with [@bot.tree.command], each with the
    checks decorating it.  [bot_stats] carries [@is_owner()] and no
    [@bot.tree.command]: it is in no tree. *)
Definition tree : list Command :=
  [ mkCommand (lit "sendmessage") [is_owner];
    mkCommand (lit "sendembed") [is_owner];
    mkCommand (lit "broadcast") [is_owner];
    mkCommand (lit "multisend") [is_owner];
    mkCommand (lit "checkstatus") [];
    mkCommand (lit "setupwebhook") [];
    mkCommand (lit "removewebhook") [];
    mkCommand (lit "listwebhooks") [];
    mkCommand (lit "togglewebhook") [] ].

Definition owner_commands : list pystr :=
  [ lit "sendmessage"; lit "sendembed"; lit "broadcast"; lit "botstats";
    lit "multisend"; lit "spamchannel" ].

Definition restricted_response : Action :=
  Respond (Text (lit "‚ùå This command is restricted to the bot owner only.")) true.

(** [on_app_command_error]; [response_done] is
    [interaction.response.is_done()]. *)
Definition on_app_command_error (interaction : Interaction)
    (error : AppCommandError) (response_done : bool) : list Action :=
  match error with
  | CheckFailure =>
      if existsb (pystr_eqb (command_name interaction)) owner_commands
      then [restricted_response]
      else [Respond (Text (lit "‚ùå You don't have permission to use this command.")) true]
  | _ =>
      if negb response_done
      then [Respond (Text (lit "‚ùå An error occurred while executing the command.")) true]
      else []
  end.

(** The library's dispatch of a slash command: the command is looked
    up in the tree by name ([CommandNotFound] when absent), its checks
    run ([CheckFailure] when one fails), and only then is the callback
    called ([Invoke]).  Errors go to the handler set by
    [@bot.tree.error]. *)
Definition dispatch (interaction : Interaction) : list Action :=
  match find (fun c => pystr_eqb (cmd_name c) (command_name interaction)) tree with
  | None => on_app_command_error interaction CommandNotFound false
  | Some c =>
      if forallb (fun check => check interaction) (cmd_checks c)
      then [Invoke (cmd_name c)]
      else on_app_command_error interaction CheckFailure false
  end.

End Owner.

(** ** Bulk sending *)

Record Channel : Type := mkChannel {
  ch_id : Z;
  ch_mention : pystr;
  ch_can_send : bool
}.

(** Delays are Python floats; only their comparisons with 0 matter, and a
    rational stands for the finite float. *)
Definition positive (delay : Q) : bool := negb (Qle_bool delay 0).
Definition negative (delay : Q) : bool := negb (Qle_bool 0 delay).
Definition is_zero (delay : Q) : bool := Qeq_bool delay 0.

(** [if delay > 0 and i < count - 1: await asyncio.sleep(delay)] *)
Definition pause (delay : Q) (i : nat) (count : Z) : list Action :=
  if positive delay && (Z.of_nat i <? count - 1) then [Sleep delay] else [].

(** The loop [for i in range(count)] of [send_message] from pass [i] on,
    [remaining] passes left; [send i] is what the [i]-th [channel.send]
    does.  Returns the actions with [sent_count] and [failed_count]. *)
Fixpoint send_message_loop (send : nat -> SendOutcome) (channel : Channel)
    (message : pystr) (count : Z) (delay : Q) (remaining i : nat)
    (sent_count failed_count : Z) : list Action * Z * Z :=
  match remaining with
  | O => ([], sent_count, failed_count)
  | S remaining' =>
      let attempt := Send (ch_id channel) (Text message) (send i) in
      match send i with
      | Sent =>
          let '(rest, s, f) :=
            send_message_loop send channel message count delay remaining'
              (S i) (sent_count + 1) failed_count in
          (attempt :: pause delay i count ++ rest, s, f)
      | Forbidden => ([attempt], sent_count, failed_count + 1)
      | HTTPException status =>
          let '(rest, s, f) :=
            send_message_loop send channel message count delay remaining'
              (S i) sent_count (failed_count + 1) in
          (attempt :: (if status =? 429 then [Sleep 1] else []) ++ rest, s, f)
      | OtherException =>
          let '(rest, s, f) :=
            send_message_loop send channel message count delay remaining'
              (S i) sent_count (failed_count + 1) in
          (attempt :: rest, s, f)
      end
  end.

Definition ultra_fast (delay : Q) (count : Z) : pystr :=
  if is_zero delay && (1 <? count)
  then nl ++ lit "‚ö° Ultra-fast mode used" else [].

(** [send_message], once the owner check has let it run. *)
Definition send_message (send : nat -> SendOutcome) (channel : Channel)
    (message : pystr) (count : Z) (delay : Q) : list Action :=
  if (count <? 1) || (50 <? count)
  then [Respond (Text (lit "‚ùå Count must be between 1 and 50.")) true]
  else if negative delay
  then [Respond (Text (lit "‚ùå Delay cannot be negative.")) true]
  else
    let '(sends, sent_count, failed_count) :=
      send_message_loop send channel message count delay (Z.to_nat count) 0
        0 0 in
    let result_msg :=
      lit "‚úÖ Sent " ++ str_of_int sent_count ++ lit "/" ++ str_of_int count
      ++ lit " messages to " ++ ch_mention channel
      ++ (if 0 <? failed_count
          then nl ++ lit "‚ùå Failed: " ++ str_of_int failed_count ++ lit " messages"
          else [])
      ++ ultra_fast delay count in
    Defer true :: sends ++ [Followup (Text result_msg)].

Record Guild : Type := mkGuild {
  g_name : pystr;
  system_channel : option Channel;
  text_channels : list Channel
}.

(** The system channel when the bot may send there, else the first text
    channel where it may. *)
Definition target_channel (guild : Guild) : option Channel :=
  match system_channel guild with
  | Some c =>
      if ch_can_send c then Some c else find ch_can_send (text_channels guild)
  | None => find ch_can_send (text_channels guild)
  end.

(** [f'({i+1}/{count})' if count > 1 else ''] *)
Definition progress (i : nat) (count : Z) : pystr :=
  if 1 <? count
  then lit "(" ++ str_of_int (Z.of_nat i + 1) ++ lit "/" ++ str_of_int count ++ lit ")"
  else [].

(** What [multi_send] sends on pass [i] to a guild. *)
Definition multi_content (embed_format : bool) (message : pystr)
    (guild : Guild) (i : nat) (count : Z) (now : Z) : Content :=
  if embed_format
  then Rich (mkEmbed (63743%N :: lit "üì® Multi-Server Message") message 65433 (Some now) []
               (Some (lit "Sent to " ++ g_name guild ++ lit " " ++ progress i count)))
  else Text message.

(** The inner loop of [multi_send] for one guild: no [break]; every pass
    counts as sent or as failed. *)
Fixpoint guild_loop (send : nat -> SendOutcome) (clock : nat -> Z)
    (target : Channel) (guild : Guild) (embed_format : bool)
    (message : pystr) (count : Z) (delay : Q) (remaining i : nat)
    (sent_to_guild failed_to_guild : Z) : list Action * Z * Z :=
  match remaining with
  | O => ([], sent_to_guild, failed_to_guild)
  | S remaining' =>
      let attempt :=
        Send (ch_id target)
          (multi_content embed_format message guild i count (clock i)) (send i) in
      match send i with
      | Sent =>
          let '(rest, s, f) :=
            guild_loop send clock target guild embed_format message count
              delay remaining' (S i) (sent_to_guild + 1) failed_to_guild in
          (attempt :: pause delay i count ++ rest, s, f)
      | Forbidden =>
          let '(rest, s, f) :=
            guild_loop send clock target guild embed_format message count
              delay remaining' (S i) sent_to_guild (failed_to_guild + 1) in
          (attempt :: rest, s, f)
      | HTTPException status =>
          let '(rest, s, f) :=
            guild_loop send clock target guild embed_format message count
              delay remaining' (S i) sent_to_guild (failed_to_guild + 1) in
          (attempt :: (if status =? 429 then [Sleep 1] else []) ++ rest, s, f)
      | OtherException =>
          let '(rest, s, f) :=
            guild_loop send clock target guild embed_format message count
              delay remaining' (S i) sent_to_guild (failed_to_guild + 1) in
          (attempt :: rest, s, f)
      end
  end.

(** [results[guild_id] = text] on a dict kept in insertion order. *)
Fixpoint dict_set (results : list (Z * pystr)) (k : Z) (v : pystr)
    : list (Z * pystr) :=
  match results with
  | [] => [(k, v)]
  | (k', v') :: rest =>
      if k' =? k then (k', v) :: rest else (k', v') :: dict_set rest k v
  end.

Fixpoint results_get (results : list (Z * pystr)) (k : Z) : option pystr :=
  match results with
  | [] => None
  | (k', v) :: rest => if k' =? k then Some v else results_get rest k
  end.

(** The world of [multi_send]: [bot.get_guild], and for the [j]-th id of
    the list the outcome and the clock of its [i]-th send. *)
Record MultiWorld : Type := mkMultiWorld {
  get_guild : Z -> option Guild;
  send_outcome : nat -> nat -> SendOutcome;
  clock : nat -> nat -> Z
}.

Definition not_found_text : pystr :=
  lit "‚ùå Server not found or bot not in server".

Record MultiState : Type := mkMultiState {
  results : list (Z * pystr);
  total_sent : Z;
  total_failed : Z
}.

(** One pass of [for guild_id in guild_ids], the [j]-th. *)
Definition multi_pass (w : MultiWorld) (embed_format : bool) (message : pystr)
    (count : Z) (delay : Q) (many : bool) (j : nat) (guild_id : Z)
    (st : MultiState) : list Action * MultiState :=
  match get_guild w guild_id with
  | None =>
      ([], mkMultiState (dict_set (results st) guild_id not_found_text)
             (total_sent st) (total_failed st + count))
  | Some guild =>
      match target_channel guild with
      | None =>
          ([], mkMultiState
                 (dict_set (results st) guild_id
                    (lit "‚ùå No accessible channel in " ++ g_name guild))
                 (total_sent st) (total_failed st + count))
      | Some target =>
          let '(sends, sent_to_guild, failed_to_guild) :=
            guild_loop (send_outcome w j) (clock w j) target guild
              embed_format message count delay (Z.to_nat count) 0 0 0 in
          let text :=
            if sent_to_guild =? count
            then lit "‚úÖ " ++ g_name guild ++ lit ": " ++ str_of_int sent_to_guild
                 ++ lit "/" ++ str_of_int count ++ lit " sent"
            else lit "‚ö†Ô∏è " ++ g_name guild ++ lit ": " ++ str_of_int sent_to_guild
                 ++ lit "/" ++ str_of_int count ++ lit " sent, "
                 ++ str_of_int failed_to_guild ++ lit " failed" in
          (sends ++ (if positive delay && many then [Sleep (3 # 10)] else []),
           mkMultiState (dict_set (results st) guild_id text)
             (total_sent st + sent_to_guild) (total_failed st + failed_to_guild))
      end
  end.

Fixpoint multi_loop (w : MultiWorld) (embed_format : bool) (message : pystr)
    (count : Z) (delay : Q) (many : bool) (j : nat) (guild_ids : list Z)
    (st : MultiState) : list Action * MultiState :=
  match guild_ids with
  | [] => ([], st)
  | guild_id :: rest =>
      let '(a1, st1) :=
        multi_pass w embed_format message count delay many j guild_id st in
      let '(a2, st2) :=
        multi_loop w embed_format message count delay many (S j) rest st1 in
      (a1 ++ a2, st2)
  end.

Definition result_line (entry : Z * pystr) : pystr :=
  lit "`" ++ str_of_int (fst entry) ++ lit "` - " ++ snd entry ++ nl.

(** The two heading lines of the report; the first character of the
    literal is U+F8FF. *)
Definition result_heading (st : MultiState) : pystr :=
  (63743%N :: lit "üìä **Multi-Server Send Results:**") ++ nl
  ++ lit "Total sent: " ++ str_of_int (total_sent st)
  ++ lit " | Total failed: " ++ str_of_int (total_failed st) ++ nl ++ nl.

Definition multi_result_msg (st : MultiState) (count : Z) (delay : Q) : pystr :=
  result_heading st
  ++ List.concat (map result_line (results st))
  ++ ultra_fast delay count.

(** [[s[i:i+n] for i in range(0, len(s), n)]] *)
Fixpoint chunks (fuel n : nat) (s : pystr) : list pystr :=
  match fuel with
  | O => []
  | S fuel' =>
      match s with
      | [] => []
      | _ => firstn n s :: chunks fuel' n (skipn n s)
      end
  end.

Definition followups (result_msg : pystr) : list Action :=
  if (2000 <? List.length result_msg)%nat
  then map (fun part => Followup (Text part))
         (chunks (List.length result_msg) 1900 result_msg)
  else [Followup (Text result_msg)].

(** [server_ids.split(',')] *)
Fixpoint split_comma (s : pystr) (current : pystr) : list pystr :=
  match s with
  | [] => [current]
  | c :: rest =>
      if (c =? 44)%N then current :: split_comma rest []
      else split_comma rest (current ++ [c])
  end.

(** [[int(id_str.strip()) for id_str in ...]]; [to_int] is Python's
    [int(s.strip())], [None] when it raises [ValueError]. *)
Fixpoint parse_ids (to_int : pystr -> option Z) (parts : list pystr)
    : option (list Z) :=
  match parts with
  | [] => Some []
  | p :: rest =>
      match to_int p with
      | None => None
      | Some n =>
          match parse_ids to_int rest with
          | None => None
          | Some ns => Some (n :: ns)
          end
      end
  end.

(** [multi_send], once the owner check has let it run: the actions and
    the state the loop ended in (when it ran). *)
Definition multi_send (w : MultiWorld) (to_int : pystr -> option Z)
    (server_ids message : pystr) (embed_format : bool) (count : Z) (delay : Q)
    : list Action * option MultiState :=
  if (count <? 1) || (20 <? count)
  then ([Respond (Text (lit "‚ùå Count must be between 1 and 20.")) true], None)
  else if negative delay
  then ([Respond (Text (lit "‚ùå Delay cannot be negative.")) true], None)
  else
    match parse_ids to_int (split_comma server_ids []) with
    | None =>
        ([Respond (Text (lit "‚ùå Invalid server ID format. Use comma-separated numbers.")) true],
         None)
    | Some guild_ids =>
        if (20 <? List.length guild_ids)%nat
        then ([Respond (Text (lit "‚ùå Maximum 20 servers allowed per command.")) true],
              None)
        else
          let '(sends, st) :=
            multi_loop w embed_format message count delay
              (1 <? List.length guild_ids)%nat 0 guild_ids
              (mkMultiState [] 0 0) in
          (Defer true :: sends ++ followups (multi_result_msg st count delay),
           Some st)
    end.

(** ** Subscription commands *)

Record Role : Type := mkRole {
  role_id : Z;
  role_mention : pystr
}.

(** [channel.create_webhook(...)] gives a webhook (its URL), or raises
    [discord.Forbidden] or another exception (with its text). *)
Inductive CreateOutcome : Type :=
| Created (url : pystr)
| CreateForbidden
| CreateFails (text : pystr).

Definition needs_manage_webhooks : Action :=
  Respond (Text (lit "‚ùå You need 'Manage Webhooks' permission to use this command.")) true.

(** [INSERT OR REPLACE INTO webhooks ...]: the rows in conflict on the
    primary key are deleted, then the row is inserted. *)
Definition insert_or_replace (row : Row) (db : Store) : Store :=
  filter (fun r => negb (has_key (guild_id row) (service row) r)) db ++ [row].

(** [DELETE FROM webhooks WHERE guild_id = ? AND service = ?] *)
Definition delete_row (g : Z) (s : pystr) (db : Store) : Store :=
  filter (fun r => negb (has_key g s r)) db.

(** [cursor.rowcount] after the [DELETE]. *)
Definition rowcount (g : Z) (s : pystr) (db : Store) : nat :=
  List.length (filter (has_key g s) db).

(** [UPDATE webhooks SET enabled = ? WHERE guild_id = ? AND service = ?];
    a Python [bool] is stored as 1 or 0. *)
Definition update_enabled (db : Store) (new_status : bool) (g : Z) (s : pystr)
    : Store :=
  map (fun r => if has_key g s r
                then set_enabled (if new_status then 1 else 0) r else r) db.

(** [setup_webhook]: [manage_webhooks] is the caller's permission,
    [guild] is [interaction.guild.id]. *)
Definition setup_webhook (create : CreateOutcome) (manage_webhooks : bool)
    (guild : Z) (channel : Channel) (svc : pystr) (ping_role : option Role)
    (db : Store) : Store * list Action :=
  if negb manage_webhooks then (db, [needs_manage_webhooks])
  else
    let attempt :=
      CreateWebhook (ch_id channel) (capitalize svc ++ lit " Status Bot") in
    match create with
    | Created url =>
        let ping_role_id :=
          match ping_role with
          | Some role => Some (role_id role)
          | None => None
          end in
        let row := mkRow guild (ch_id channel) url svc ping_role_id 1 None in
        let embed :=
          mkEmbed (lit "‚úÖ Webhook Setup Complete")
            (lit "Auto-posting enabled for **" ++ capitalize svc ++ lit "** in "
             ++ ch_mention channel)
            65280 None
            ((match ping_role with
              | Some role => [mkField (lit "Ping Role") (role_mention role) true]
              | None => []
              end)
             ++ [mkField (lit "Check Interval") (lit "Every 5 minutes") true])
            None in
        (insert_or_replace row db,
         [Defer false; attempt; Execute (InsertOrReplace row); Followup (Rich embed)])
    | CreateForbidden =>
        (db, [Defer false; attempt;
              Followup (Text (lit "‚ùå I don't have permission to create webhooks in that channel."))])
    | CreateFails text =>
        (db, [Defer false; attempt;
              Followup (Text (lit "‚ùå Error setting up webhook: " ++ text))])
    end.

(** [remove_webhook] *)
Definition remove_webhook (manage_webhooks : bool) (guild : Z) (svc : pystr)
    (db : Store) : Store * list Action :=
  if negb manage_webhooks then (db, [needs_manage_webhooks])
  else if (0 <? rowcount guild svc db)%nat
  then (delete_row guild svc db,
        [Execute (DeleteRow guild svc);
         Respond (Text (lit "‚úÖ Removed auto-posting for " ++ capitalize svc)) false])
  else (db,
        [Execute (DeleteRow guild svc);
         Respond (Text (lit "‚ùå No webhook found for " ++ capitalize svc)) false]).

(** [toggle_webhook]: [fetchone()] gives the first row of the key;
    [not result[0]] is true exactly when the stored integer is 0. *)
Definition toggle_webhook (manage_webhooks : bool) (guild : Z) (svc : pystr)
    (db : Store) : Store * list Action :=
  if negb manage_webhooks then (db, [needs_manage_webhooks])
  else
    match find (has_key guild svc) db with
    | None =>
        (db, [Execute (SelectEnabledOf guild svc);
              Respond (Text (lit "‚ùå No webhook found for " ++ capitalize svc)) false])
    | Some result =>
        let new_status := enabled result =? 0 in
        let status_text := if new_status then lit "enabled" else lit "disabled" in
        (update_enabled db new_status guild svc,
         [Execute (SelectEnabledOf guild svc);
          Execute (UpdateEnabled new_status guild svc);
          Respond (Text (lit "‚úÖ " ++ capitalize svc ++ lit " webhook has been "
                         ++ status_text)) false])
    end.

(** The tables the commands and the poller can produce from the empty
    table ([init_db] creates it empty). *)
Inductive reachable : Store -> Prop :=
| reach_init : reachable []
| reach_setup : forall db create perm guild channel svc ping_role,
    reachable db ->
    reachable (fst (setup_webhook create perm guild channel svc ping_role db))
| reach_remove : forall db perm guild svc,
    reachable db -> reachable (fst (remove_webhook perm guild svc db))
| reach_toggle : forall db perm guild svc,
    reachable db -> reachable (fst (toggle_webhook perm guild svc db))
| reach_tick : forall db w,
    reachable db -> reachable (fst (fst (check_and_post_incidents w db))).

(** ** Readings of a tick *)

(** What the fetch of a pass gives for a row. *)
Definition fetched (w : Pass) (config : Row) : option ServiceData :=
  snd (get_service_data (http_get w) (service config)).

(** [data['incidents'][0].get('id')], when there is a first incident. *)
Definition newest_id (data : ServiceData) : option (option pystr) :=
  match sd_incidents data with
  | [] => None
  | latest_incident :: _ => Some (inc_id latest_incident)
  end.

Definition tick_store (out : Store * list Event * option exn) : Store :=
  fst (fst out).

Definition tick_events (out : Store * list Event * option exn) : list Event :=
  snd (fst out).

Definition tick_error (out : Store * list Event * option exn) : option exn :=
  snd out.

(** An [EvPost] of the key answered with [outcome]. *)
Definition posted (g : Z) (s : pystr) (outcome : PostOutcome) (ev : list Event)
    : Prop :=
  exists url p, In (EvPost g s url p outcome) ev.

(** Every event is of one key; the events of a list that are all of key
    [k] are, for another key, none, and for [k] itself, all. *)
Definition all_of (g : Z) (s : pystr) (ev : list Event) : Prop :=
  forall e, In e ev -> event_for g s e = true.

(** The shapes a pass can take.  Either nothing is delivered and the
    table is as before, or the new incident was posted, the answer was
    204, and the marker of the row's key is set to its id. *)
Inductive pass_shape (w : Pass) (config : Row) (db : Store)
    : Store * list Event * option exn -> Prop :=
| pass_quiet : forall ev err,
    all_of (guild_id config) (service config) ev ->
    count is_accepted ev = 0%nat ->
    count is_update ev = 0%nat ->
    (count is_post ev <= 1)%nat ->
    (err = None -> fetched w config = None
                   \/ (exists data, fetched w config = Some data
                                    /\ newest_id data = None)
                   \/ (exists data, fetched w config = Some data
                                    /\ newest_id data = Some (last_incident_id config)
                                    /\ count is_post ev = 0%nat)
                   \/ (exists data id embed,
                         fetched w config = Some data
                         /\ newest_id data = Some id
                         /\ id <> last_incident_id config
                         /\ create_status_embed (now w) (service config) data = Ok embed
                         /\ ev = [EvFetch (guild_id config) (service config)
                                    (fst (get_service_data (http_get w) (service config)));
                                  EvPost (guild_id config) (service config)
                                    (webhook_url config) (webhook_payload embed config)
                                    (http_post w (webhook_url config)
                                       (webhook_payload embed config))]
                         /\ http_post w (webhook_url config)
                              (webhook_payload embed config) <> PostStatus 204)) ->
    (forall data, fetched w config = Some data ->
                  newest_id data = Some (last_incident_id config) ->
                  count is_post ev = 0%nat /\ err = None) ->
    pass_shape w config db (db, ev, err)
| pass_delivered : forall data id embed,
    fetched w config = Some data ->
    newest_id data = Some id ->
    id <> last_incident_id config ->
    create_status_embed (now w) (service config) data = Ok embed ->
    http_post w (webhook_url config) (webhook_payload embed config)
    = PostStatus 204 ->
    pass_shape w config db
      (update_last_incident db id (guild_id config) (service config),
       [EvFetch (guild_id config) (service config)
          (fst (get_service_data (http_get w) (service config)));
        EvPost (guild_id config) (service config) (webhook_url config)
          (webhook_payload embed config) (PostStatus 204);
        EvUpdate (guild_id config) (service config) id],
       None).

(** ** A small world for the examples *)

Definition ex_incident : Incident :=
  mkIncident (Some (lit "inc-42")) (Some (lit "API errors"))
    (Some (lit "investigating"))
    (Some [mkUpdate (Some (lit "We are looking into it."))]).

Definition ex_body : Json :=
  JObject (mkObject
             (Some (mkStatusInfo (Some (lit "Minor Service Outage"))
                      (Some (lit "minor"))))
             (Some [ex_incident]) (Some [])).

Definition ex_data : ServiceData := mkData ex_body [ex_incident] [].

(** Every GET is answered 200 with [ex_body]; every POST with [answer]. *)
Definition ex_pass (answer : PostOutcome) : Pass :=
  mkPass (fun _ => GetResponse (mkResponse 200 (Some ex_body))) 0
    (fun _ _ => answer).

Definition ex_row (g e : Z) (last : option pystr) : Row :=
  mkRow g 10 (lit "https://discord.com/api/webhooks/1/x") (lit "vercel") None
    e last.

(** A statement that writes to the table. *)
Definition is_write (a : Action) : bool :=
  match a with
  | Execute (UpdateEnabled _ _ _) => true
  | Execute (InsertOrReplace _) => true
  | Execute (DeleteRow _ _) => true
  | _ => false
  end.

(** The number of rows of a key. *)
Definition rows_of (g : Z) (s : pystr) (db : Store) : nat :=
  List.length (filter (has_key g s) db).

(** An incident whose latest update has 250 characters, and data with
    four incidents. *)
Definition ex_long_incident : Incident :=
  mkIncident (Some (lit "inc-43")) (Some (lit "Builds delayed"))
    (Some (lit "identified")) (Some [mkUpdate (Some (repeat 97%N 250))]).

Definition ex_four_incidents : ServiceData :=
  mkData ex_body
    [ex_long_incident; ex_incident;
     mkIncident (Some (lit "inc-40")) None None None;
     mkIncident (Some (lit "inc-39")) (Some (lit "Old incident")) None None]
    [].

(** ** Readings of [multi_send] *)

(** The id resolves to a guild with a channel the bot may send to. *)
Definition reachable_guild (w : MultiWorld) (id : Z) : bool :=
  match get_guild w id with
  | Some guild =>
      match target_channel guild with
      | Some _ => true
      | None => false
      end
  | None => false
  end.

Definition followup_text (a : Action) : pystr :=
  match a with
  | Followup (Text t) => t
  | _ => []
  end.

(** The report: the text of the followups, in order. *)
Definition report (actions : list Action) : pystr :=
  List.concat (map followup_text actions).

(** The [i]-th send of [multi_send] for the [j]-th id of its list. *)
Definition multi_attempt (w : MultiWorld) (embed_format : bool)
    (message : pystr) (count : Z) (j : nat) (guild : Guild) (target : Channel)
    (i : nat) : Action :=
  Send (ch_id target)
    (multi_content embed_format message guild i count (clock w j i))
    (send_outcome w j i).

Definition send_or_sleep (a : Action) : bool := is_send a || is_sleep a.

(** A world for the examples: guild 1 has an open system channel, guild
    3 has only a text channel the bot may use, no other id resolves; the
    send of index 1 to the second id of a list is refused. *)
Definition ex_multi_world : MultiWorld :=
  mkMultiWorld
    (fun id =>
       if id =? 1
       then Some (mkGuild (lit "Alpha") (Some (mkChannel 11 (lit "<#11>") true)) [])
       else if id =? 3
       then Some (mkGuild (lit "Gamma") (Some (mkChannel 30 (lit "<#30>") false))
                    [mkChannel 31 (lit "<#31>") false;
                     mkChannel 32 (lit "<#32>") true])
       else None)
    (fun j i => match j, i with
                | 2%nat, 1%nat => Forbidden
                | _, _ => Sent
                end)
    (fun _ _ => 0).

(** Decimal digits only, for the examples ([int] of Python accepts
    more). *)
Definition ex_to_int (s : pystr) : option Z :=
  match s with
  | [] => None
  | _ =>
      if forallb (fun c => (48 <=? c)%N && (c <=? 57)%N) s
      then Some (fold_left (fun acc c => 10 * acc + Z.of_N (c - 48)) s 0)
      else None
  end.

(** ** [send_embed] *)

(** [s.startswith(prefix)] *)
Fixpoint startswith (s prefix : pystr) : bool :=
  match prefix, s with
  | [], _ => true
  | p :: prefix', c :: s' => (c =? p)%N && startswith s' prefix'
  | _ :: _, [] => false
  end.

(** The colour of [send_embed]; [int16] is Python's [int(s, 16)], [None]
    when it raises [ValueError].  No colour, or an empty one, is the
    default blue. *)
Definition parse_color (int16 : pystr -> option Z) (color : option pystr)
    : option Z :=
  match color with
  | None => Some 39423
  | Some [] => Some 39423
  | Some c =>
      if startswith c (lit "0x") then int16 c
      else if startswith c (lit "#") then int16 (skipn 1 c)
      else int16 c
  end.

(** The embed of pass [i] of [send_embed]. *)
Definition sent_embed (title description : pystr) (embed_color : Z)
    (i : nat) (count : Z) (now : Z) : Content :=
  Rich (mkEmbed title description embed_color (Some now) []
          (Some (lit "Sent via Status Bot " ++ progress i count))).

(** The loop of [send_embed]: that of [send_message], with the embed of
    each pass for the message. *)
Fixpoint send_embed_loop (send : nat -> SendOutcome) (clk : nat -> Z)
    (channel : Channel) (title description : pystr) (embed_color : Z)
    (count : Z) (delay : Q) (remaining i : nat)
    (sent_count failed_count : Z) : list Action * Z * Z :=
  match remaining with
  | O => ([], sent_count, failed_count)
  | S remaining' =>
      let attempt :=
        Send (ch_id channel)
          (sent_embed title description embed_color i count (clk i)) (send i) in
      match send i with
      | Sent =>
          let '(rest, s, f) :=
            send_embed_loop send clk channel title description embed_color
              count delay remaining' (S i) (sent_count + 1) failed_count in
          (attempt :: pause delay i count ++ rest, s, f)
      | Forbidden => ([attempt], sent_count, failed_count + 1)
      | HTTPException status =>
          let '(rest, s, f) :=
            send_embed_loop send clk channel title description embed_color
              count delay remaining' (S i) sent_count (failed_count + 1) in
          (attempt :: (if status =? 429 then [Sleep 1] else []) ++ rest, s, f)
      | OtherException =>
          let '(rest, s, f) :=
            send_embed_loop send clk channel title description embed_color
              count delay remaining' (S i) sent_count (failed_count + 1) in
          (attempt :: rest, s, f)
      end
  end.

(** [send_embed], once the owner check has let it run. *)
Definition send_embed (send : nat -> SendOutcome) (clk : nat -> Z)
    (int16 : pystr -> option Z) (channel : Channel)
    (title description : pystr) (color : option pystr) (count : Z) (delay : Q)
    : list Action :=
  if (count <? 1) || (50 <? count)
  then [Respond (Text (lit "‚ùå Count must be between 1 and 50.")) true]
  else if negative delay
  then [Respond (Text (lit "‚ùå Delay cannot be negative.")) true]
  else
    match parse_color int16 color with
    | None =>
        [Defer true;
         Followup (Text (lit "‚ùå Invalid color format. Use hex format like 0x00ff00 or #00ff00"))]
    | Some embed_color =>
        let '(sends, sent_count, failed_count) :=
          send_embed_loop send clk channel title description embed_color count
            delay (Z.to_nat count) 0 0 0 in
        let result_msg :=
          lit "‚úÖ Sent " ++ str_of_int sent_count ++ lit "/" ++ str_of_int count
          ++ lit " embeds to " ++ ch_mention channel
          ++ (if 0 <? failed_count
              then nl ++ lit "‚ùå Failed: " ++ str_of_int failed_count ++ lit " embeds"
              else [])
          ++ ultra_fast delay count in
        Defer true :: sends ++ [Followup (Text result_msg)]
    end.

(** An action without what it carries: the kind of action, the channel
    and the outcome of a send, the length of a sleep. *)
Definition outline (a : Action) : Action :=
  match a with
  | Respond _ e => Respond (Text []) e
  | Followup _ => Followup (Text [])
  | Send ch _ o => Send ch (Text []) o
  | other => other
  end.

(** ** [broadcast] *)

(** What [broadcast] sends on pass [i]; the first character of the
    title is U+F8FF. *)
Definition broadcast_content (embed_format : bool) (message : pystr) (i : nat)
    (count : Z) (now : Z) : Content :=
  if embed_format
  then Rich (mkEmbed (63743%N :: lit "üì¢ Broadcast Message") message 39423
               (Some now) []
               (Some (lit "Status Bot Broadcast " ++ progress i count)))
  else Text message.

(** The inner loop of [broadcast] for one guild: no [break]; a rate limit
    is waited out for 2 seconds. *)
Fixpoint broadcast_loop (send : nat -> SendOutcome) (clk : nat -> Z)
    (target : Channel) (embed_format : bool) (message : pystr) (count : Z)
    (delay : Q) (remaining i : nat) (sent_to_guild failed_to_guild : Z)
    : list Action * Z * Z :=
  match remaining with
  | O => ([], sent_to_guild, failed_to_guild)
  | S remaining' =>
      let attempt :=
        Send (ch_id target)
          (broadcast_content embed_format message i count (clk i)) (send i) in
      match send i with
      | Sent =>
          let '(rest, s, f) :=
            broadcast_loop send clk target embed_format message count delay
              remaining' (S i) (sent_to_guild + 1) failed_to_guild in
          (attempt :: pause delay i count ++ rest, s, f)
      | Forbidden =>
          let '(rest, s, f) :=
            broadcast_loop send clk target embed_format message count delay
              remaining' (S i) sent_to_guild (failed_to_guild + 1) in
          (attempt :: rest, s, f)
      | HTTPException status =>
          let '(rest, s, f) :=
            broadcast_loop send clk target embed_format message count delay
              remaining' (S i) sent_to_guild (failed_to_guild + 1) in
          (attempt :: (if status =? 429 then [Sleep 2] else []) ++ rest, s, f)
      | OtherException =>
          let '(rest, s, f) :=
            broadcast_loop send clk target embed_format message count delay
              remaining' (S i) sent_to_guild (failed_to_guild + 1) in
          (attempt :: rest, s, f)
      end
  end.

(** The world of [broadcast]: [bot.guilds], and for the [j]-th guild the
    outcome and the clock of its [i]-th send. *)
Record BroadcastWorld : Type := mkBroadcastWorld {
  guilds : list Guild;
  b_send : nat -> nat -> SendOutcome;
  b_clock : nat -> nat -> Z
}.

Record BroadcastState : Type := mkBroadcastState {
  b_total_sent : Z;
  b_total_failed : Z;
  servers_reached : Z
}.

(** One pass of [for guild in bot.guilds], the [j]-th. *)
Definition broadcast_pass (w : BroadcastWorld) (embed_format : bool)
    (message : pystr) (count : Z) (delay : Q) (j : nat) (guild : Guild)
    (st : BroadcastState) : list Action * BroadcastState :=
  match target_channel guild with
  | Some target =>
      let '(sends, sent_to_guild, failed_to_guild) :=
        broadcast_loop (b_send w j) (b_clock w j) target embed_format message
          count delay (Z.to_nat count) 0 0 0 in
      (sends ++ (if positive delay then [Sleep (1 # 2)] else []),
       mkBroadcastState (b_total_sent st + sent_to_guild)
         (b_total_failed st + failed_to_guild)
         (if 0 <? sent_to_guild then servers_reached st + 1
          else servers_reached st))
  | None =>
      ([], mkBroadcastState (b_total_sent st) (b_total_failed st + count)
             (servers_reached st))
  end.

Fixpoint broadcast_guilds (w : BroadcastWorld) (embed_format : bool)
    (message : pystr) (count : Z) (delay : Q) (j : nat) (gs : list Guild)
    (st : BroadcastState) : list Action * BroadcastState :=
  match gs with
  | [] => ([], st)
  | guild :: rest =>
      let '(a1, st1) :=
        broadcast_pass w embed_format message count delay j guild st in
      let '(a2, st2) :=
        broadcast_guilds w embed_format message count delay (S j) rest st1 in
      (a1 ++ a2, st2)
  end.

(** The report of [broadcast]; the first character of its second line is
    U+F8FF. *)
Definition broadcast_result_msg (w : BroadcastWorld) (st : BroadcastState)
    (count : Z) (delay : Q) : pystr :=
  lit "‚úÖ Broadcast complete!" ++ nl
  ++ (63743%N :: lit "üìä **Statistics:**") ++ nl
  ++ lit "‚Ä¢ Servers reached: " ++ str_of_int (servers_reached st) ++ lit "/"
  ++ str_of_int (Z.of_nat (List.length (guilds w))) ++ nl
  ++ lit "‚Ä¢ Messages sent: " ++ str_of_int (b_total_sent st) ++ nl
  ++ lit "‚Ä¢ Failed sends: " ++ str_of_int (b_total_failed st)
  ++ ultra_fast delay count.

(** [broadcast], once the owner check has let it run: the actions and
    the state its loop ended in (when it ran). *)
Definition broadcast (w : BroadcastWorld) (message : pystr)
    (embed_format : bool) (count : Z) (delay : Q)
    : list Action * option BroadcastState :=
  if (count <? 1) || (10 <? count)
  then ([Respond (Text (lit "‚ùå Count must be between 1 and 10 for broadcasts.")) true],
        None)
  else if negative delay
  then ([Respond (Text (lit "‚ùå Delay cannot be negative.")) true], None)
  else
    let '(sends, st) :=
      broadcast_guilds w embed_format message count delay 0 (guilds w)
        (mkBroadcastState 0 0 0) in
    (Defer true :: sends
       ++ [Followup (Text (broadcast_result_msg w st count delay))],
     Some st).

(** ** [check_status] *)

(** [check_status]: the actions, and the exception that leaves the
    callback, if one does ([create_status_embed] is called outside any
    [try]). *)
Definition check_status (w : Pass) (svc : pystr) : list Action * option exn :=
  match snd (get_service_data (http_get w) svc) with
  | None =>
      ([Defer false;
        Followup (Text (lit "‚ùå Failed to fetch " ++ svc ++ lit " status data."))],
       None)
  | Some data =>
      match create_status_embed (now w) svc data with
      | Ok embed => ([Defer false; Followup (Rich embed)], None)
      | Raise e => ([Defer false], Some e)
      end
  end.

(** The command as the user sees it: an exception of the callback goes
    to [on_app_command_error] as an invoke error, after the deferral. *)
Definition check_status_command (w : Pass) (svc : pystr) : list Action :=
  match check_status w svc with
  | (actions, None) => actions
  | (actions, Some _) =>
      actions
      ++ on_app_command_error (mkInteraction 0 (lit "checkstatus"))
           CommandInvokeError true
  end.

(** ** [list_webhooks] and [bot_stats] *)

(** An answer to the interaction that is an embed with fields only
    (no description), or a text. *)
Inductive Reply : Type :=
| ReplyText (m : pystr) (ephemeral : bool)
| ReplyEmbed (title : pystr) (color : Z) (timestamp : option Z)
    (fields : list EmbedField) (ephemeral : bool).

(** The order of two TEXT values in the index of the primary key: that
    of their UTF-8 bytes, which is that of their code points, a proper
    prefix coming first. *)
Fixpoint pystr_leb (a b : pystr) : bool :=
  match a, b with
  | [], _ => true
  | _ :: _, [] => false
  | x :: a', y :: b' =>
      if (x <? y)%N then true
      else if (x =? y)%N then pystr_leb a' b'
      else false
  end.

(** A row put among the index entries of its guild: before the first
    entry whose service is not smaller. *)
Fixpoint index_insert (r : Row) (entries : list Row) : list Row :=
  match entries with
  | [] => [r]
  | e :: rest =>
      if pystr_leb (service r) (service e) then r :: entries
      else e :: index_insert r rest
  end.

(** The rows of one guild in the order of the index: by service, rows
    of the same service (which the key excludes) in the order of the
    table. *)
Fixpoint by_service (rows : list Row) : list Row :=
  match rows with
  | [] => []
  | r :: rest => index_insert r (by_service rest)
  end.

(** [SELECT ... FROM webhooks WHERE guild_id = ?]: the table has the
    primary key [(guild_id, service)], and SQLite answers the query
    through the index of that key, so the rows of the guild come in the
    order of their service, not in the order in which they were
    stored. *)
Definition select_guild (g : Z) (db : Store) : list Row :=
  by_service (filter (fun r => guild_id r =? g) db).

(** The field of [list_webhooks] for one row; [get_channel] and
    [get_role] give the mention of a channel or role that exists. *)
Definition webhook_field (get_channel get_role : Z -> option pystr) (r : Row)
    : EmbedField :=
  let channel_name :=
    match get_channel (channel_id r) with
    | Some mention => mention
    | None => lit "Unknown Channel"
    end in
  let role_name :=
    match ping_role_id r with
    | Some role =>
        if negb (role =? 0)
        then match get_role role with
             | Some mention => mention
             | None => lit "Deleted Role"
             end
        else lit "None"
    | None => lit "None"
    end in
  let status :=
    if negb (enabled r =? 0) then lit "‚úÖ Enabled" else lit "‚ùå Disabled" in
  mkField (capitalize (service r))
    (lit "Channel: " ++ channel_name ++ nl ++ lit "Ping Role: " ++ role_name
     ++ nl ++ lit "Status: " ++ status)
    true.

(** [list_webhooks] for the guild [g] of the interaction. *)
Definition list_webhooks (get_channel get_role : Z -> option pystr) (g : Z)
    (db : Store) : Reply :=
  match select_guild g db with
  | [] => ReplyText (lit "No webhooks configured for this server.") false
  | webhooks =>
      ReplyEmbed (lit "Active Webhooks") 39423 None
        (map (webhook_field get_channel get_role) webhooks) false
  end.

(** The count of the rows [WHERE enabled = 1]. *)
Definition active_webhooks (db : Store) : nat :=
  List.length (select_enabled db).

(** The count of the distinct [guild_id] of the table. *)
Definition guilds_with_webhooks (db : Store) : nat :=
  List.length (nodup Z.eq_dec (map guild_id db)).

(** The parts of the uptime: [uptime.days], and hours and minutes by
    [divmod] from [uptime.seconds]. *)
Definition uptime_parts (days seconds : Z) : Z * Z * Z :=
  let hours := seconds / 3600 in
  let remainder := seconds mod 3600 in
  let minutes := remainder / 60 in
  (days, hours, minutes).

(** [bot_stats]: [n_guilds] is [len(bot.guilds)], [latency_ms] is
    [round(bot.latency * 1000)], [uptime] is the days and seconds since
    [on_ready] ([None] before it).  The first character of the title is
    U+F8FF. *)
Definition bot_stats (db : Store) (n_guilds : nat) (latency_ms : Z)
    (uptime : option (Z * Z)) (now : Z) : Reply :=
  let '(days, hours, minutes) :=
    match uptime with
    | Some (d, s) => uptime_parts d s
    | None => uptime_parts 0 0
    end in
  ReplyEmbed (63743%N :: lit "ü§ñ Bot Statistics") 39423 (Some now)
    [mkField (lit "Servers") (str_of_int (Z.of_nat n_guilds)) true;
     mkField (lit "Active Webhooks")
       (str_of_int (Z.of_nat (active_webhooks db))) true;
     mkField (lit "Servers with Webhooks")
       (str_of_int (Z.of_nat (guilds_with_webhooks db))) true;
     mkField (lit "Latency") (str_of_int latency_ms ++ lit "ms") true;
     mkField (lit "Uptime")
       (str_of_int days ++ lit "d " ++ str_of_int hours ++ lit "h "
        ++ str_of_int minutes ++ lit "m") true]
    true.

(** ** Further readings *)

Definition is_fetch (e : Event) : bool :=
  match e with
  | EvFetch _ _ _ => true
  | _ => false
  end.

Definition is_sent (a : Action) : bool :=
  match a with
  | Send _ _ Sent => true
  | _ => false
  end.

Definition is_forbidden (a : Action) : bool :=
  match a with
  | Send _ _ Forbidden => true
  | _ => false
  end.

Definition is_some {A : Type} (v : option A) : bool :=
  match v with
  | Some _ => true
  | None => false
  end.

(** [c.get('status') != 'operational'] *)
Definition not_operational (c : Component) : bool :=
  negb (opt_pystr_eqb (comp_status c) (Some (lit "operational"))).

(** The data [create_status_embed] renders without raising: the status
    body is an object whose ['status'] has a description and an
    indicator, none of the first three incidents has an empty list of
    updates, and each of the first five components that are not
    operational has a name and a status. *)
Definition renderable (data : ServiceData) : bool :=
  match sd_status data with
  | JObject o =>
      match j_status o with
      | Some st => is_some (description st) && is_some (indicator st)
      | None => false
      end
  | JOther => false
  end
  && forallb (fun incident =>
                match incident_updates incident with
                | Some [] => false
                | _ => true
                end) (firstn 3 (sd_incidents data))
  && forallb (fun c => is_some (comp_name c) && is_some (comp_status c))
       (firstn 5 (filter not_operational (sd_components data))).

(** The report of [send_message] for the counts its loop ended with. *)
Definition send_message_report (channel : Channel) (count : Z) (delay : Q)
    (sent_count failed_count : Z) : pystr :=
  lit "‚úÖ Sent " ++ str_of_int sent_count ++ lit "/" ++ str_of_int count
  ++ lit " messages to " ++ ch_mention channel
  ++ (if 0 <? failed_count
      then nl ++ lit "‚ùå Failed: " ++ str_of_int failed_count ++ lit " messages"
      else [])
  ++ ultra_fast delay count.

Definition has_target (guild : Guild) : bool :=
  is_some (target_channel guild).

(** A pass whose status read is answered with JSON that is not an
    object (the other reads as in [ex_pass]), and the data it gives. *)
Definition ex_odd_status_pass : Pass :=
  mkPass (fun u =>
            if pystr_eqb u (lit "https://vercel.statuspage.io/api/v2/status.json")
            then GetResponse (mkResponse 200 (Some JOther))
            else GetResponse (mkResponse 200 (Some ex_body)))
    0 (fun _ _ => PostStatus 204).

Definition ex_odd_status_data : ServiceData := mkData JOther [ex_incident] [].

Definition ex_two_rows : Store :=
  [ex_row 1 1 (Some (lit "inc-41")); ex_row 2 1 None].

(** Data with seven components, the second of them operational. *)
Definition ex_components : ServiceData :=
  mkData ex_body []
    (map (fun p => mkComponent (Some (fst p)) (Some (snd p)))
       [(lit "api", lit "degraded_performance"); (lit "dns", lit "operational");
        (lit "cdn", lit "partial_outage"); (lit "builds", lit "major_outage");
        (lit "edge", lit "degraded_performance"); (lit "logs", lit "under_maintenance");
        (lit "kv", lit "partial_outage")]).

(** The number of the actions that satisfy [p]. *)
Definition tally (p : Action -> bool) (actions : list Action) : Z :=
  Z.of_nat (List.length (filter p actions)).

(** A world for [broadcast]: three guilds, the second without a channel
    the bot may use, the third with a text channel only; every send to
    the third is refused. *)
Definition ex_broadcast_world : BroadcastWorld :=
  mkBroadcastWorld
    [mkGuild (lit "Alpha") (Some (mkChannel 11 (lit "<#11>") true)) [];
     mkGuild (lit "Beta") None [mkChannel 21 (lit "<#21>") false];
     mkGuild (lit "Gamma") (Some (mkChannel 30 (lit "<#30>") false))
       [mkChannel 31 (lit "<#31>") true]]
    (fun j i => match j with
                | 2%nat => Forbidden
                | _ => Sent
                end)
    (fun _ _ => 0).

(** The sends [broadcast] makes for the [j]-th guild of [bot.guilds]:
    [count] sends to the guild's target channel, none when it has no
    channel the bot may use. *)
Definition broadcast_attempts (w : BroadcastWorld) (embed_format : bool)
    (message : pystr) (count : Z) (jg : nat * Guild) : list Action :=
  match target_channel (snd jg) with
  | Some target =>
      map (fun i => Send (ch_id target)
                      (broadcast_content embed_format message i count
                         (b_clock w (fst jg) i))
                      (b_send w (fst jg) i))
        (seq 0 (Z.to_nat count))
  | None => []
  end.

(** The sends to the [j]-th id of the list of [multi_send] that are
    accepted, of the [count] the loop makes. *)
Definition accepted_sends (w : MultiWorld) (j : nat) (count : Z) : Z :=
  Z.of_nat
    (List.length
       (filter (fun i => match send_outcome w j i with
                         | Sent => true
                         | _ => false
                         end)
          (seq 0 (Z.to_nat count)))).

(** * Properties *)

(** ** Keys and lookups *)

Lemma pystr_eqb_true_iff (a b : pystr) : pystr_eqb a b = true <-> a = b.
Proof.
  unfold pystr_eqb. destruct (list_eq_dec N.eq_dec a b); split; congruence.
Qed.

Lemma pystr_eqb_refl (a : pystr) : pystr_eqb a a = true.
Proof. now apply pystr_eqb_true_iff. Qed.

Lemma pystr_eqb_false_iff (a b : pystr) : pystr_eqb a b = false <-> a <> b.
Proof.
  unfold pystr_eqb. destruct (list_eq_dec N.eq_dec a b); split; congruence.
Qed.

Lemma opt_pystr_eqb_true_iff (a b : option pystr) :
  opt_pystr_eqb a b = true <-> a = b.
Proof.
  destruct a as [x|], b as [y|]; simpl; try (split; congruence).
  rewrite pystr_eqb_true_iff. split; congruence.
Qed.

Lemma opt_pystr_eqb_false_iff (a b : option pystr) :
  opt_pystr_eqb a b = false <-> a <> b.
Proof.
  rewrite <- opt_pystr_eqb_true_iff. destruct (opt_pystr_eqb a b); split; congruence.
Qed.

Lemma has_key_true_iff (g : Z) (s : pystr) (r : Row) :
  has_key g s r = true <-> row_key r = (g, s).
Proof.
  unfold has_key, row_key. rewrite andb_true_iff, Z.eqb_eq, pystr_eqb_true_iff.
  split; [intros [-> ->]; reflexivity | intros H; inversion H; auto].
Qed.

Lemma has_key_self (r : Row) : has_key (guild_id r) (service r) r = true.
Proof. now apply has_key_true_iff. Qed.

Lemma has_key_false_iff (g : Z) (s : pystr) (r : Row) :
  has_key g s r = false <-> row_key r <> (g, s).
Proof.
  rewrite <- has_key_true_iff. destruct (has_key g s r); split; congruence.
Qed.

Lemma has_key_set_last (g : Z) (s : pystr) (id : option pystr) (r : Row) :
  has_key g s (set_last_incident_id id r) = has_key g s r.
Proof. reflexivity. Qed.

Lemma lookup_in (g : Z) (s : pystr) (db : Store) (r : Row) :
  lookup g s db = Some r -> In r db /\ row_key r = (g, s).
Proof.
  unfold lookup. intros H. apply find_some in H as [H1 H2].
  split; [assumption | now apply has_key_true_iff].
Qed.

Lemma lookup_unique (db : Store) (r : Row) :
  pk_unique db -> In r db -> lookup (guild_id r) (service r) db = Some r.
Proof.
  unfold pk_unique, lookup. induction db as [|x db IH]; simpl; intros U H.
  - contradiction.
  - inversion U as [|? ? Hx U']; subst.
    destruct H as [-> | H].
    + now rewrite has_key_self.
    + destruct (has_key (guild_id r) (service r) x) eqn:K.
      * apply has_key_true_iff in K. exfalso. apply Hx.
        rewrite K. change (guild_id r, service r) with (row_key r).
        now apply in_map.
      * now apply IH.
Qed.

Lemma lookup_none (g : Z) (s : pystr) (db : Store) :
  lookup g s db = None <-> ~ In (g, s) (map row_key db).
Proof.
  unfold lookup. induction db as [|x db IH]; simpl.
  - tauto.
  - destruct (has_key g s x) eqn:K.
    + apply has_key_true_iff in K. split; [discriminate | intros H; tauto].
    + apply has_key_false_iff in K. rewrite IH. tauto.
Qed.

Lemma lookup_update_same (g : Z) (s : pystr) (id : option pystr) (db : Store) :
  lookup g s (update_last_incident db id g s)
  = option_map (set_last_incident_id id) (lookup g s db).
Proof.
  unfold lookup, update_last_incident.
  induction db as [|x db IH]; simpl; [reflexivity|].
  destruct (has_key g s x) eqn:K.
  - rewrite has_key_set_last, K. reflexivity.
  - rewrite K. exact IH.
Qed.

Lemma lookup_update_other (g g' : Z) (s s' : pystr) (id : option pystr)
    (db : Store) :
  (g', s') <> (g, s) ->
  lookup g s (update_last_incident db id g' s') = lookup g s db.
Proof.
  intros D. unfold lookup, update_last_incident.
  induction db as [|x db IH]; simpl; [reflexivity|].
  destruct (has_key g' s' x) eqn:K'.
  - rewrite has_key_set_last.
    destruct (has_key g s x) eqn:K.
    + apply has_key_true_iff in K, K'. congruence.
    + exact IH.
  - destruct (has_key g s x); [reflexivity | exact IH].
Qed.

(** The marker apart, an update leaves every row as it was. *)
Lemma update_last_incident_shape (db : Store) (id : option pystr) (g : Z)
    (s : pystr) :
  map (set_last_incident_id None) (update_last_incident db id g s)
  = map (set_last_incident_id None) db.
Proof.
  unfold update_last_incident. rewrite map_map. apply map_ext.
  intros r. destruct (has_key g s r); reflexivity.
Qed.

Lemma shape_keys (db db' : Store) :
  map (set_last_incident_id None) db' = map (set_last_incident_id None) db ->
  map row_key db' = map row_key db.
Proof.
  intros H.
  assert (E : forall l, map row_key l
                        = map row_key (map (set_last_incident_id None) l)).
  { intros l. rewrite map_map. reflexivity. }
  rewrite (E db'), (E db), H. reflexivity.
Qed.

Lemma shape_select_enabled (db db' : Store) :
  map (set_last_incident_id None) db' = map (set_last_incident_id None) db ->
  map (set_last_incident_id None) (select_enabled db')
  = map (set_last_incident_id None) (select_enabled db).
Proof.
  unfold select_enabled. revert db'.
  induction db as [|x db IH]; intros [|y db'] H; cbn [map filter] in *;
    try discriminate.
  - reflexivity.
  - assert (Hxy : set_last_incident_id None y = set_last_incident_id None x)
      by congruence.
    assert (Hrest : map (set_last_incident_id None) db'
                    = map (set_last_incident_id None) db) by congruence.
    assert (E : enabled y = enabled x).
    { change (enabled (set_last_incident_id None y)
              = enabled (set_last_incident_id None x)). now rewrite Hxy. }
    rewrite E. destruct (enabled x =? 1); cbn [map].
    + rewrite Hxy. f_equal. now apply IH.
    + now apply IH.
Qed.

(** ** One pass of the poller *)

Lemma count_app (p : Event -> bool) (a b : list Event) :
  count p (a ++ b) = (count p a + count p b)%nat.
Proof. unfold count. now rewrite filter_app, length_app. Qed.

Lemma events_of_app (g : Z) (s : pystr) (a b : list Event) :
  events_of g s (a ++ b) = events_of g s a ++ events_of g s b.
Proof. apply filter_app. Qed.

Lemma event_for_key (g g' : Z) (s s' : pystr) :
  ((g' =? g) && pystr_eqb s' s = true) <-> (g', s') = (g, s).
Proof.
  rewrite andb_true_iff, Z.eqb_eq, pystr_eqb_true_iff.
  split; [intros [-> ->]; reflexivity | intros H; inversion H; auto].
Qed.

Lemma event_for_other (g g' : Z) (s s' : pystr) (e : Event) :
  (g', s') <> (g, s) -> event_for g' s' e = true -> event_for g s e = false.
Proof.
  intros D H. destruct (event_for g s e) eqn:K; [exfalso | reflexivity].
  apply D. destruct e; simpl in *;
    apply event_for_key in H; apply event_for_key in K; congruence.
Qed.

Lemma events_of_all (g : Z) (s : pystr) (ev : list Event) :
  all_of g s ev -> events_of g s ev = ev.
Proof.
  unfold all_of, events_of. induction ev as [|e ev IH]; simpl; intros H.
  - reflexivity.
  - rewrite (H e (or_introl eq_refl)). f_equal. apply IH. intros; apply H; auto.
Qed.

Lemma events_of_none (g g' : Z) (s s' : pystr) (ev : list Event) :
  (g', s') <> (g, s) -> all_of g' s' ev -> events_of g s ev = [].
Proof.
  unfold all_of, events_of. intros D. induction ev as [|e ev IH]; simpl; intros H.
  - reflexivity.
  - rewrite (event_for_other g g' s s' e D (H e (or_introl eq_refl))).
    apply IH. intros; apply H; auto.
Qed.

Lemma all_of_cons (g : Z) (s : pystr) (e : Event) (ev : list Event) :
  event_for g s e = true -> all_of g s ev -> all_of g s (e :: ev).
Proof. intros H1 H2 x [<- | Hx]; auto. Qed.

Lemma all_of_nil (g : Z) (s : pystr) : all_of g s [].
Proof. intros x []. Qed.

Lemma event_for_self (g : Z) (s : pystr) :
  (g =? g) && pystr_eqb s s = true.
Proof. now rewrite Z.eqb_refl, pystr_eqb_refl. Qed.

Lemma process_config_shape (w : Pass) (config : Row) (db : Store) :
  pass_shape w config db (process_config w config db).
Proof.
  unfold process_config.
  pose proof (event_for_self (guild_id config) (service config)) as K.
  destruct (get_service_data (http_get w) (service config)) as [requests fd] eqn:G.
  assert (F : fetched w config = fd) by (unfold fetched; now rewrite G).
  assert (R : fst (get_service_data (http_get w) (service config)) = requests)
    by now rewrite G.
  destruct fd as [data|].
  2:{ apply pass_quiet; try reflexivity; try (unfold count; simpl; lia).
      - apply all_of_cons; [exact K | apply all_of_nil].
      - intros _. now left.
      - intros data H. congruence. }
  destruct (sd_incidents data) as [|latest rest] eqn:I.
  { apply pass_quiet; try reflexivity; try (unfold count; simpl; lia).
    - apply all_of_cons; [exact K | apply all_of_nil].
    - intros _. right; left. exists data. split; [exact F|].
      unfold newest_id. now rewrite I.
    - intros d H N. assert (d = data) by congruence. subst d.
      unfold newest_id in N. rewrite I in N. discriminate. }
  assert (NI : newest_id data = Some (inc_id latest))
    by (unfold newest_id; now rewrite I).
  destruct (opt_pystr_eqb (inc_id latest) (last_incident_id config)) eqn:E.
  { apply opt_pystr_eqb_true_iff in E.
    apply pass_quiet; try reflexivity; try (unfold count; simpl; lia).
    - apply all_of_cons; [exact K | apply all_of_nil].
    - intros _. right; right; left. exists data. rewrite NI, E. auto.
    - intros d H N. split; reflexivity. }
  apply opt_pystr_eqb_false_iff in E.
  assert (NE : forall d, fetched w config = Some d ->
                         newest_id d = Some (last_incident_id config) -> False).
  { intros d H N. assert (d = data) by congruence. subst d. congruence. }
  destruct (create_status_embed (now w) (service config) data) as [embed|e] eqn:C.
  2:{ apply pass_quiet; try reflexivity; try (unfold count; simpl; lia).
      - apply all_of_cons; [exact K | apply all_of_nil].
      - discriminate.
      - intros d H N. destruct (NE d H N). }
  destruct (http_post w (webhook_url config) (webhook_payload embed config))
    as [|st] eqn:P.
  { apply pass_quiet; try reflexivity; try (unfold count; simpl; lia).
    - repeat (apply all_of_cons; [exact K|]). apply all_of_nil.
    - intros _. right; right; right. exists data, (inc_id latest), embed.
      rewrite P, R. repeat split; auto. discriminate.
    - intros d H N. destruct (NE d H N). }
  destruct (st =? 204) eqn:S.
  - apply Z.eqb_eq in S. subst st. rewrite <- R.
    eapply pass_delivered; eauto.
  - apply pass_quiet.
    + repeat (apply all_of_cons; [exact K|]). apply all_of_nil.
    + unfold count. simpl. now rewrite S.
    + reflexivity.
    + unfold count; simpl; lia.
    + intros _. right; right; right. exists data, (inc_id latest), embed.
      rewrite P, R. repeat split; auto.
      intros Q. inversion Q. subst. discriminate.
    + intros d H N. destruct (NE d H N).
Qed.

(** ** The loop of the tick *)

Lemma pass_shape_store (w : Pass) (config : Row) (db : Store) :
  map (set_last_incident_id None) (tick_store (process_config w config db))
  = map (set_last_incident_id None) db.
Proof.
  destruct (process_config_shape w config db); unfold tick_store; simpl.
  - reflexivity.
  - apply update_last_incident_shape.
Qed.

Lemma pass_events_own (w : Pass) (config : Row) (db : Store) :
  all_of (guild_id config) (service config)
    (tick_events (process_config w config db)).
Proof.
  destruct (process_config_shape w config db); unfold tick_events; simpl.
  - assumption.
  - pose proof (event_for_self (guild_id config) (service config)) as K.
    repeat (apply all_of_cons; [exact K|]). apply all_of_nil.
Qed.

Lemma pass_lookup_other (w : Pass) (config : Row) (db : Store) (g : Z)
    (s : pystr) :
  row_key config <> (g, s) ->
  lookup g s (tick_store (process_config w config db)) = lookup g s db.
Proof.
  intros D. destruct (process_config_shape w config db); unfold tick_store; simpl.
  - reflexivity.
  - now apply lookup_update_other.
Qed.

Lemma tick_store_mk (db : Store) (ev : list Event) (err : option exn) :
  tick_store (db, ev, err) = db.
Proof. reflexivity. Qed.

Lemma tick_events_mk (db : Store) (ev : list Event) (err : option exn) :
  tick_events (db, ev, err) = ev.
Proof. reflexivity. Qed.

Lemma tick_error_mk (db : Store) (ev : list Event) (err : option exn) :
  tick_error (db, ev, err) = err.
Proof. reflexivity. Qed.

Ltac triple := cbv zeta; rewrite ?tick_store_mk, ?tick_events_mk, ?tick_error_mk.

Lemma run_configs_step (w : nat -> Pass) (i : nat) (config : Row)
    (rest : list Row) (db : Store) :
  run_configs w i (config :: rest) db
  = match tick_error (process_config (w i) config db) with
    | Some e => process_config (w i) config db
    | None =>
        let out := run_configs w (S i) rest
                     (tick_store (process_config (w i) config db)) in
        (tick_store out,
         tick_events (process_config (w i) config db) ++ tick_events out,
         tick_error out)
    end.
Proof.
  simpl. destruct (process_config (w i) config db) as [[db1 ev1] [e|]];
    unfold tick_error, tick_store, tick_events; simpl; [reflexivity|].
  destruct (run_configs w (S i) rest db1) as [[db2 ev2] r]; reflexivity.
Qed.

(** A tick changes markers only. *)
Lemma run_configs_keeps_shape (w : nat -> Pass) (configs : list Row) :
  forall i db,
    map (set_last_incident_id None) (tick_store (run_configs w i configs db))
    = map (set_last_incident_id None) db.
Proof.
  induction configs as [|c rest IH]; intros i db.
  - reflexivity.
  - rewrite run_configs_step.
    destruct (tick_error (process_config (w i) c db)).
    + apply pass_shape_store.
    + triple. rewrite IH. apply pass_shape_store.
Qed.

(** A key none of the rows to process has: the loop neither touches its
    row nor does anything in its name. *)
Lemma run_configs_other (w : nat -> Pass) (g : Z) (s : pystr)
    (configs : list Row) :
  forall i db,
    ~ In (g, s) (map row_key configs) ->
    events_of g s (tick_events (run_configs w i configs db)) = []
    /\ lookup g s (tick_store (run_configs w i configs db)) = lookup g s db.
Proof.
  induction configs as [|c rest IH]; intros i db N.
  - split; reflexivity.
  - simpl in N.
    assert (D : row_key c <> (g, s)) by tauto.
    assert (N' : ~ In (g, s) (map row_key rest)) by tauto.
    rewrite run_configs_step.
    pose proof (pass_events_own (w i) c db) as O.
    pose proof (pass_lookup_other (w i) c db g s D) as L.
    destruct (tick_error (process_config (w i) c db)).
    + split; [|exact L].
      now apply (events_of_none g (guild_id c) s (service c)).
    + triple.
      destruct (IH (S i) (tick_store (process_config (w i) c db)) N') as [E1 E2].
      split.
      * rewrite events_of_app, E1, app_nil_r.
        now apply (events_of_none g (guild_id c) s (service c)).
      * now rewrite E2.
Qed.

(** The row at position [k] of the rows to process: either the loop
    ended before its pass, or what the tick did for its key is what its
    pass did. *)
Lemma run_configs_at (w : nat -> Pass) (configs : list Row) :
  forall i db k c,
    NoDup (map row_key configs) ->
    nth_error configs k = Some c ->
    let out := run_configs w i configs db in
    let g := guild_id c in
    let s := service c in
    (events_of g s (tick_events out) = []
     /\ lookup g s (tick_store out) = lookup g s db
     /\ tick_error out <> None)
    \/ (exists dbk,
          lookup g s dbk = lookup g s db
          /\ events_of g s (tick_events out)
             = tick_events (process_config (w (i + k)%nat) c dbk)
          /\ lookup g s (tick_store out)
             = lookup g s (tick_store (process_config (w (i + k)%nat) c dbk))
          /\ (tick_error out = None ->
              tick_error (process_config (w (i + k)%nat) c dbk) = None)).
Proof.
  induction configs as [|c0 rest IH]; intros i db k c U H.
  - destruct k; discriminate.
  - cbv zeta. rewrite run_configs_step.
    simpl in U. inversion U as [|? ? N U']; subst.
    destruct k as [|k]; simpl in H.
    + injection H as ->. right. exists db. rewrite Nat.add_0_r.
      split; [reflexivity|].
      pose proof (pass_events_own (w i) c db) as O.
      destruct (tick_error (process_config (w i) c db)) eqn:E.
      * split; [now apply events_of_all|]. split; [reflexivity | congruence].
      * triple.
        destruct (run_configs_other w (guild_id c) (service c) rest (S i)
                    (tick_store (process_config (w i) c db)) N) as [E1 E2].
        rewrite events_of_app, E1, app_nil_r, E2.
        split; [now apply events_of_all|]. split; [reflexivity | auto].
    + assert (D : row_key c0 <> (guild_id c, service c)).
      { intros Q. apply N. rewrite Q.
        change (guild_id c, service c) with (row_key c).
        apply in_map. eapply nth_error_In; eauto. }
      pose proof (pass_events_own (w i) c0 db) as O.
      pose proof (pass_lookup_other (w i) c0 db _ _ D) as L.
      pose proof (events_of_none _ _ _ _ _ D O) as Z0.
      destruct (tick_error (process_config (w i) c0 db)) eqn:E.
      * left. split; [exact Z0|]. split; [exact L | congruence].
      * triple.
        specialize (IH (S i) (tick_store (process_config (w i) c0 db)) k c U' H).
        cbv zeta in IH. rewrite events_of_app, Z0. simpl app.
        replace (i + S k)%nat with (S i + k)%nat by lia.
        destruct IH as [(A & B & C) | (dbk & A & B & C & F)].
        -- left. split; [exact A|]. split; [congruence | exact C].
        -- right. exists dbk. split; [congruence|]. split; [exact B|].
           split; [exact C | exact F].
Qed.

(** ** The tick and the stored marker *)

Lemma select_enabled_in (db : Store) (c : Row) :
  In c (select_enabled db) <-> In c db /\ enabled c = 1.
Proof.
  unfold select_enabled. rewrite filter_In, Z.eqb_eq. tauto.
Qed.

Lemma select_enabled_unique (db : Store) :
  pk_unique db -> NoDup (map row_key (select_enabled db)).
Proof.
  unfold pk_unique, select_enabled.
  induction db as [|x db IH]; simpl; intros U.
  - constructor.
  - inversion U as [|? ? N U']; subst.
    destruct (enabled x =? 1); simpl; [|now apply IH].
    constructor; [|now apply IH].
    intros H. apply N. apply in_map_iff in H as (y & Ky & Hy).
    apply filter_In in Hy as [Hy _]. rewrite <- Ky. now apply in_map.
Qed.

Lemma not_accepted_not_posted (g : Z) (s : pystr) (ev : list Event) :
  count is_accepted ev = 0%nat -> ~ posted g s (PostStatus 204) ev.
Proof.
  unfold count. intros H (url & p & I).
  assert (J : In (EvPost g s url p (PostStatus 204)) (filter is_accepted ev))
    by (apply filter_In; split; [exact I | reflexivity]).
  destruct (filter is_accepted ev); [destruct J | discriminate].
Qed.

(** What a tick does for the key of the row at position [i] of the rows
    it reads. *)
Lemma tick_at (w : nat -> Pass) (db : Store) (i : nat) (config : Row) :
  pk_unique db ->
  nth_error (select_enabled db) i = Some config ->
  let out := check_and_post_incidents w db in
  let g := guild_id config in
  let s := service config in
  (events_of g s (tick_events out) = []
   /\ lookup g s (tick_store out) = Some config
   /\ tick_error out <> None)
  \/ (exists dbk,
        lookup g s dbk = Some config
        /\ events_of g s (tick_events out)
           = tick_events (process_config (w i) config dbk)
        /\ lookup g s (tick_store out)
           = lookup g s (tick_store (process_config (w i) config dbk))
        /\ (tick_error out = None ->
            tick_error (process_config (w i) config dbk) = None)).
Proof.
  intros U H. cbv zeta. unfold check_and_post_incidents.
  assert (L : lookup (guild_id config) (service config) db = Some config).
  { apply lookup_unique; [exact U|].
    apply nth_error_In in H. now apply select_enabled_in in H. }
  pose proof (run_configs_at w (select_enabled db) 0 db i config
                (select_enabled_unique db U) H) as R.
  cbv zeta in R. simpl Nat.add in R. now rewrite L in R.
Qed.

(** C1: for an enabled row whose fetched newest incident id differs from
    its stored marker, the tick sets the marker to that id, by exactly
    one update, when the POST for the row is answered with 204; when no
    POST for the row is answered with 204 (another status, an exception
    in the POST, or no POST at all) the row is left as it was and no
    update is made.  At most one POST is made for the row, and when the
    tick runs to its end that POST was made and its answer is the
    world's. *)
Theorem marker_moves_only_on_accepted_post (w : nat -> Pass) (db : Store)
    (i : nat) (config : Row) (data : ServiceData) (id : option pystr) :
  pk_unique db ->
  nth_error (select_enabled db) i = Some config ->
  fetched (w i) config = Some data ->
  newest_id data = Some id ->
  id <> last_incident_id config ->
  let out := check_and_post_incidents w db in
  let g := guild_id config in
  let s := service config in
  let mine := events_of g s (tick_events out) in
  (posted g s (PostStatus 204) mine ->
   lookup g s (tick_store out) = Some (set_last_incident_id id config)
   /\ count is_update mine = 1%nat
   /\ In (EvUpdate g s id) mine)
  /\ (~ posted g s (PostStatus 204) mine ->
      lookup g s (tick_store out) = Some config
      /\ count is_update mine = 0%nat)
  /\ (count is_post mine <= 1)%nat
  /\ (tick_error out = None ->
      exists embed,
        create_status_embed (now (w i)) s data = Ok embed
        /\ In (EvPost g s (webhook_url config) (webhook_payload embed config)
                 (http_post (w i) (webhook_url config)
                    (webhook_payload embed config))) mine).
Proof.
  intros U H F N D. cbv zeta.
  destruct (tick_at w db i config U H) as [(E & L & X) | (dbk & Lk & E & L & X)].
  - rewrite E, L. split; [|split; [|split]].
    + intros (url & p & []).
    + intros _. split; reflexivity.
    + unfold count; simpl; lia.
    + intros Q. contradiction.
  - rewrite E, L. clear E L.
    destruct (process_config_shape (w i) config dbk)
      as [ev err O A Up P Q Same | data' id' embed F' N' D' C' P'].
    + triple. rewrite Lk. split; [|split; [|split]].
      * intros Y. now apply not_accepted_not_posted in Y.
      * intros _. split; [reflexivity | exact Up].
      * exact P.
      * intros Y. specialize (X Y). rewrite tick_error_mk in X.
        destruct (Q X) as [Q1 | [(d & Q1 & Q2) | [(d & Q1 & Q2 & Q3) | Q4]]];
          try congruence.
        destruct Q4 as (d & id0 & embed & Q1 & Q2 & Q3 & Q4 & Q5 & Q6).
        assert (d = data) by congruence. subst d.
        exists embed. split; [exact Q4|]. rewrite Q5. simpl. auto.
    + triple. rewrite lookup_update_same, Lk.
      assert (data' = data) by congruence. subst data'.
      assert (id' = id) by congruence. subst id'.
      split; [|split; [|split]].
      * intros _. split; [reflexivity|]. split; [reflexivity | simpl; auto].
      * intros Y. exfalso. apply Y. exists (webhook_url config),
          (webhook_payload embed config). simpl; auto.
      * unfold count; simpl; lia.
      * intros _. exists embed. split; [exact C'|]. rewrite P'. simpl; auto.
Qed.

Lemma pk_unique_one (r : Row) : pk_unique [r].
Proof. unfold pk_unique. simpl. constructor; [intros [] | constructor]. Defined.

(** The scenario of the specification: the stored marker is inc-41, the
    newest incident is inc-42, and the POST is answered with 204. *)
Lemma marker_moves_only_on_accepted_post_witness :
  lookup 1 (lit "vercel")
    (tick_store (check_and_post_incidents (fun _ => ex_pass (PostStatus 204))
                   [ex_row 1 1 (Some (lit "inc-41"))]))
  = Some (ex_row 1 1 (Some (lit "inc-42"))).
Proof.
  assert (D : Some (lit "inc-42") <> Some (lit "inc-41"))
    by (intros Q; vm_compute in Q; discriminate Q).
  generalize (marker_moves_only_on_accepted_post
                (fun _ => ex_pass (PostStatus 204))
                [ex_row 1 1 (Some (lit "inc-41"))] 0
                (ex_row 1 1 (Some (lit "inc-41"))) ex_data
                (Some (lit "inc-42"))
                (pk_unique_one _) eq_refl eq_refl eq_refl D).
  vm_compute. intros [B _]. apply B.
  eexists; eexists. right; left. reflexivity.
Defined.

(** The same scenario with a POST that fails: the marker stays, and the
    next tick posts again. *)
Example failed_delivery_is_retried :
  let db := [ex_row 1 1 (Some (lit "inc-41"))] in
  let out1 := check_and_post_incidents (fun _ => ex_pass (PostStatus 500)) db in
  let out2 := check_and_post_incidents (fun _ => ex_pass PostRaises)
                (tick_store out1) in
  let out3 := check_and_post_incidents (fun _ => ex_pass (PostStatus 204))
                (tick_store out2) in
  tick_store out1 = db /\ count is_post (tick_events out1) = 1%nat
  /\ tick_store out2 = db /\ count is_post (tick_events out2) = 1%nat
  /\ tick_store out3 = [ex_row 1 1 (Some (lit "inc-42"))]
  /\ count is_update (tick_events out3) = 1%nat.
Proof. vm_compute. repeat split. Qed.

(** C3: a tick does nothing for a row with [enabled] = 0: no event of
    the tick (no fetch, no POST, no update) is of its key, and the row is
    in the table after the tick as it was before.  The table keeps its
    length: no row is deleted. *)
Theorem disabled_rows_are_skipped_and_kept (w : nat -> Pass) (db : Store)
    (r : Row) :
  pk_unique db ->
  In r db ->
  enabled r = 0 ->
  let out := check_and_post_incidents w db in
  events_of (guild_id r) (service r) (tick_events out) = []
  /\ In r (tick_store out)
  /\ lookup (guild_id r) (service r) (tick_store out) = Some r
  /\ List.length (tick_store out) = List.length db.
Proof.
  intros U I E. cbv zeta. unfold check_and_post_incidents.
  assert (N : ~ In (guild_id r, service r) (map row_key (select_enabled db))).
  { intros H. apply in_map_iff in H as (c & K & Hc).
    apply select_enabled_in in Hc as [Hc1 Hc2].
    assert (c = r).
    { pose proof (lookup_unique db c U Hc1) as L1.
      pose proof (lookup_unique db r U I) as L2.
      unfold row_key in K. injection K as K1 K2. rewrite K1, K2 in L1.
      congruence. }
    subst c. lia. }
  destruct (run_configs_other w (guild_id r) (service r) (select_enabled db) 0 db N)
    as [E1 E2].
  rewrite (lookup_unique db r U I) in E2.
  split; [exact E1|]. split; [now apply lookup_in in E2|]. split; [exact E2|].
  pose proof (run_configs_keeps_shape w (select_enabled db) 0 db) as S.
  apply (f_equal (@List.length Row)) in S. now rewrite !length_map in S.
Qed.

Lemma disabled_rows_are_skipped_and_kept_witness :
  let db := [ex_row 1 1 (Some (lit "inc-41")); ex_row 2 0 None] in
  let out := check_and_post_incidents (fun _ => ex_pass (PostStatus 204)) db in
  events_of 2 (lit "vercel") (tick_events out) = []
  /\ In (ex_row 2 0 None) (tick_store out)
  /\ lookup 2 (lit "vercel") (tick_store out) = Some (ex_row 2 0 None)
  /\ List.length (tick_store out) = 2%nat.
Proof.
  assert (U : pk_unique [ex_row 1 1 (Some (lit "inc-41")); ex_row 2 0 None]).
  { unfold pk_unique. simpl. constructor.
    - intros [Q | []]. discriminate Q.
    - constructor; [intros [] | constructor]. }
  exact (disabled_rows_are_skipped_and_kept
           (fun _ => ex_pass (PostStatus 204))
           [ex_row 1 1 (Some (lit "inc-41")); ex_row 2 0 None]
           (ex_row 2 0 None) U (or_intror (or_introl eq_refl)) eq_refl).
Defined.

(** ** Two ticks in a row *)

Lemma shape_fields (r r' : Row) :
  set_last_incident_id None r' = set_last_incident_id None r ->
  guild_id r' = guild_id r /\ service r' = service r.
Proof.
  intros H. split.
  - change (guild_id (set_last_incident_id None r')
            = guild_id (set_last_incident_id None r)). now rewrite H.
  - change (service (set_last_incident_id None r')
            = service (set_last_incident_id None r)). now rewrite H.
Qed.

(** After a tick the rows to process are the same, position by
    position, the markers apart. *)
Lemma tick_keeps_positions (w : nat -> Pass) (db : Store) (i : nat)
    (config : Row) :
  pk_unique db ->
  nth_error (select_enabled db) i = Some config ->
  let db1 := tick_store (check_and_post_incidents w db) in
  pk_unique db1
  /\ exists config1,
       nth_error (select_enabled db1) i = Some config1
       /\ guild_id config1 = guild_id config
       /\ service config1 = service config
       /\ lookup (guild_id config) (service config) db1 = Some config1.
Proof.
  intros U H. cbv zeta. unfold check_and_post_incidents.
  pose proof (run_configs_keeps_shape w (select_enabled db) 0 db) as S.
  set (db1 := tick_store (run_configs w 0 (select_enabled db) db)) in *.
  assert (U1 : pk_unique db1).
  { unfold pk_unique. now rewrite (shape_keys db db1 S). }
  split; [exact U1|].
  pose proof (shape_select_enabled db db1 S) as SE.
  assert (M : nth_error (map (set_last_incident_id None) (select_enabled db1)) i
              = Some (set_last_incident_id None config)).
  { rewrite SE, nth_error_map, H. reflexivity. }
  rewrite nth_error_map in M.
  destruct (nth_error (select_enabled db1) i) as [config1|] eqn:H1;
    [|discriminate].
  cbn [option_map] in M.
  assert (M' : set_last_incident_id None config1
               = set_last_incident_id None config) by congruence.
  apply shape_fields in M'. destruct M' as [M1 M2].
  exists config1. split; [reflexivity|]. split; [exact M1|]. split; [exact M2|].
  rewrite <- M1, <- M2. apply lookup_unique; [exact U1|].
  apply nth_error_In in H1. now apply select_enabled_in in H1.
Qed.

Lemma pass_accepted_at_most_once (w : Pass) (config : Row) (db : Store) :
  (count is_accepted (tick_events (process_config w config db)) <= 1)%nat.
Proof.
  destruct (process_config_shape w config db); triple.
  - lia.
  - unfold count; simpl; lia.
Qed.

(** C2: when the newest incident id a tick fetches for an enabled row is
    the row's stored marker, the tick makes no POST for the row and
    leaves the row as it was; and over two ticks in a row that fetch the
    same data for the row, at most one POST for the row is answered with
    204 (one confirmed delivery at most). *)
Theorem unchanged_incident_is_not_delivered_again (w1 w2 : nat -> Pass)
    (db : Store) (i : nat) (config : Row) :
  pk_unique db ->
  nth_error (select_enabled db) i = Some config ->
  let g := guild_id config in
  let s := service config in
  let out1 := check_and_post_incidents w1 db in
  let out2 := check_and_post_incidents w2 (tick_store out1) in
  (forall data,
      fetched (w1 i) config = Some data ->
      newest_id data = Some (last_incident_id config) ->
      count is_post (events_of g s (tick_events out1)) = 0%nat
      /\ lookup g s (tick_store out1) = Some config)
  /\ (fetched (w2 i) config = fetched (w1 i) config ->
      (count is_accepted
         (events_of g s (tick_events out1 ++ tick_events out2)) <= 1)%nat).
Proof.
  intros U H. cbv zeta.
  destruct (tick_keeps_positions w1 db i config U H)
    as (U1 & config1 & H1 & G1 & S1 & L1).
  cbv zeta in L1.
  pose proof (tick_at w1 db i config U H) as T1. cbv zeta in T1.
  pose proof (tick_at w2 _ i config1 U1 H1) as T2. cbv zeta in T2.
  rewrite G1, S1 in T2.
  set (out1 := check_and_post_incidents w1 db) in *.
  set (out2 := check_and_post_incidents w2 (tick_store out1)) in *.
  split.
  - intros data F N.
    destruct T1 as [(E & L & X) | (dbk & Lk & E & L & X)].
    + rewrite E. split; [reflexivity | exact L].
    + rewrite E, L. clear E L.
      destruct (process_config_shape (w1 i) config dbk)
        as [ev err O A Up P Q Same | data' id' embed F' N' D' C' P'].
      * triple. split; [apply (Same data F N) | exact Lk].
      * exfalso. assert (data' = data) by congruence. subst data'. congruence.
  - intros Eq. rewrite events_of_app, count_app.
    assert (B2 : (count is_accepted
                    (events_of (guild_id config) (service config)
                       (tick_events out2)) <= 1)%nat).
    { destruct T2 as [(E & _) | (dbk & _ & E & _)]; rewrite E.
      - unfold count; simpl; lia.
      - apply pass_accepted_at_most_once. }
    destruct T1 as [(E & L & X) | (dbk & Lk & E & L & X)].
    + rewrite E. unfold count at 1. simpl. exact B2.
    + rewrite E. clear E. revert L X.
      destruct (process_config_shape (w1 i) config dbk)
        as [ev err O A Up P Q Same | data' id' embed F' N' D' C' P'];
        intros L X.
      * rewrite tick_events_mk, A. exact B2.
      * rewrite tick_events_mk. rewrite tick_store_mk in L.
        rewrite lookup_update_same, Lk in L. simpl in L.
        assert (C1 : config1 = set_last_incident_id id' config) by congruence.
        assert (F2 : fetched (w2 i) config1 = Some data').
        { unfold fetched in *. rewrite S1. congruence. }
        assert (Z2 : count is_accepted
                       (events_of (guild_id config) (service config)
                          (tick_events out2)) = 0%nat).
        { destruct T2 as [(E & _) | (dbk2 & _ & E & _)]; rewrite E.
          - reflexivity.
          - destruct (process_config_shape (w2 i) config1 dbk2)
              as [ev err O A Up P Q Same | data2 id2 embed2 F3 N3 D3 C3 P3].
            + rewrite tick_events_mk. exact A.
            + exfalso. assert (data2 = data') by congruence. subst data2.
              apply D3. rewrite C1. simpl. congruence. }
        rewrite Z2. unfold count; simpl; lia.
Qed.

Lemma unchanged_incident_is_not_delivered_again_witness :
  let db := [ex_row 1 1 (Some (lit "inc-42"))] in
  let out1 := check_and_post_incidents (fun _ => ex_pass (PostStatus 204)) db in
  let out2 := check_and_post_incidents (fun _ => ex_pass (PostStatus 204))
                (tick_store out1) in
  count is_post (events_of 1 (lit "vercel") (tick_events out1)) = 0%nat
  /\ lookup 1 (lit "vercel") (tick_store out1)
     = Some (ex_row 1 1 (Some (lit "inc-42")))
  /\ (count is_accepted
        (events_of 1 (lit "vercel") (tick_events out1 ++ tick_events out2))
      <= 1)%nat.
Proof.
  generalize (unchanged_incident_is_not_delivered_again
                (fun _ => ex_pass (PostStatus 204))
                (fun _ => ex_pass (PostStatus 204))
                [ex_row 1 1 (Some (lit "inc-42"))] 0
                (ex_row 1 1 (Some (lit "inc-42")))
                (pk_unique_one _) eq_refl).
  vm_compute. intros [A B].
  destruct (A _ eq_refl eq_refl) as [A1 A2].
  split; [exact A1|]. split; [exact A2 | exact (B eq_refl)].
Defined.

(** A new incident over two ticks that both get 204: one delivery, in
    the first tick; the second tick makes no POST. *)
Example new_incident_is_delivered_once :
  let db := [ex_row 1 1 (Some (lit "inc-41"))] in
  let out1 := check_and_post_incidents (fun _ => ex_pass (PostStatus 204)) db in
  let out2 := check_and_post_incidents (fun _ => ex_pass (PostStatus 204))
                (tick_store out1) in
  count is_accepted (tick_events out1) = 1%nat
  /\ count is_post (tick_events out2) = 0%nat
  /\ tick_store out2 = [ex_row 1 1 (Some (lit "inc-42"))].
Proof. vm_compute. repeat split. Qed.

(** ** The fetch *)

Lemma services_url_not_empty (service_name url : pystr) :
  dict_get SERVICES service_name = Some url -> pystr_eqb url [] = false.
Proof.
  unfold SERVICES, dict_get.
  repeat (match goal with
          | |- context [pystr_eqb ?a service_name] =>
              destruct (pystr_eqb a service_name)
          end);
    intros H; try discriminate H; injection H as <-; vm_compute; reflexivity.
Qed.

(** C4, as the code has it: for a name outside [SERVICES] the fetch
    gives [None] and makes no read.  For a name of [SERVICES] it gives
    [None] exactly when one of the three reads gives no JSON (the request
    raises, or the body is not JSON) or the body of the incidents or of
    the components read is JSON and not an object; otherwise it gives the
    data with its three parts: the status body as it is, and the
    ['incidents'] and ['components'] lists of the other two bodies, the
    empty list for a key that is absent.  The data is given only after
    the three reads were made, in the order status, incidents,
    components.  The status code of an answer plays no part. *)
Theorem fetch_is_all_or_nothing (http_get : pystr -> GetOutcome)
    (service_name : pystr) :
  (dict_get SERVICES service_name = None ->
   get_service_data http_get service_name = ([], None))
  /\ (forall url,
        dict_get SERVICES service_name = Some url ->
        let o1 := http_get (url ++ lit "/status.json") in
        let o2 := http_get (url ++ lit "/incidents.json") in
        let o3 := http_get (url ++ lit "/components.json") in
        let out := get_service_data http_get service_name in
        (snd out = None <->
         no_json o1 || no_json o2 || no_json o3
         || not_object o2 || not_object o3 = true)
        /\ (forall data,
              snd out = Some data ->
              fst out = [url ++ lit "/status.json";
                         url ++ lit "/incidents.json";
                         url ++ lit "/components.json"]
              /\ exists j1 b2 b3,
                   body_of o1 = Some j1
                   /\ body_of o2 = Some (JObject b2)
                   /\ body_of o3 = Some (JObject b3)
                   /\ data = mkData j1 (get_default (j_incidents b2) [])
                               (get_default (j_components b3) []))).
Proof.
  split.
  - intros H. unfold get_service_data. now rewrite H.
  - intros url H. cbv zeta. unfold get_service_data.
    rewrite H, (services_url_not_empty _ _ H).
    unfold reads_of, read_json, no_json, not_object, body_of, bind, json_get,
      get_default.
    destruct (http_get (url ++ lit "/status.json")) as [|[s1 [j1|]]];
      destruct (http_get (url ++ lit "/incidents.json")) as [|[s2 [[b2|]|]]];
      destruct (http_get (url ++ lit "/components.json")) as [|[s3 [[b3|]|]]];
      cbn [resp_json snd fst orb];
      try (destruct (j_incidents b2) eqn:I2);
      try (destruct (j_components b3) eqn:I3);
      cbn [resp_json snd fst orb];
      (split; [split; intros Q; first [discriminate Q | reflexivity]
              | intros data D; try discriminate D]).
    all: split; [reflexivity|]; exists j1, b2, b3; rewrite I2, I3;
      injection D as <-; auto.
Qed.

(** C4 as the specification words it does not hold: here the incidents
    read is answered 503 with a JSON object that has no ['incidents']
    key, the other two reads are answered 200, and the fetch gives data,
    with an empty incident list, instead of [None]. *)
Lemma non_2xx_read_still_gives_data :
  let incidents_url := lit "https://vercel.statuspage.io/api/v2/incidents.json" in
  let http_get := fun u =>
    if pystr_eqb u incidents_url
    then GetResponse (mkResponse 503 (Some (JObject (mkObject None None None))))
    else GetResponse (mkResponse 200 (Some ex_body)) in
  is_2xx (http_get incidents_url) = false
  /\ snd (get_service_data http_get (lit "vercel"))
     = Some (mkData ex_body [] []).
Proof. vm_compute. split; reflexivity. Qed.

(** With the three reads answered 200, the same fetch gives the incident. *)
Example fetch_of_good_answers :
  get_service_data (http_get (ex_pass PostRaises)) (lit "vercel")
  = ([lit "https://vercel.statuspage.io/api/v2/status.json";
      lit "https://vercel.statuspage.io/api/v2/incidents.json";
      lit "https://vercel.statuspage.io/api/v2/components.json"],
     Some ex_data).
Proof. vm_compute. reflexivity. Qed.

(** ** The table under the commands *)

Lemma filter_keeps_unique (p : Row -> bool) (db : Store) :
  pk_unique db -> pk_unique (filter p db).
Proof.
  unfold pk_unique. induction db as [|x db IH]; simpl; intros U.
  - constructor.
  - inversion U as [|? ? N U']; subst.
    destruct (p x); simpl; [|now apply IH].
    constructor; [|now apply IH].
    intros H. apply N. apply in_map_iff in H as (y & Ky & Hy).
    apply filter_In in Hy as [Hy _]. rewrite <- Ky. now apply in_map.
Qed.

Lemma NoDup_snoc {A : Type} (l : list A) (x : A) :
  NoDup l -> ~ In x l -> NoDup (l ++ [x]).
Proof.
  induction l as [|y l IH]; simpl; intros U N.
  - constructor; [intros [] | constructor].
  - inversion U as [|? ? Ny U']; subst. constructor.
    + rewrite in_app_iff. simpl. intros [H | [H | []]]; [tauto|]. subst. tauto.
    + apply IH; tauto.
Qed.

Lemma insert_or_replace_unique (row : Row) (db : Store) :
  pk_unique db -> pk_unique (insert_or_replace row db).
Proof.
  intros U. unfold insert_or_replace.
  pose proof (filter_keeps_unique
                (fun r => negb (has_key (guild_id row) (service row) r)) db U) as F.
  unfold pk_unique in *. rewrite map_app. simpl. apply NoDup_snoc; [exact F|].
  intros H. apply in_map_iff in H as (y & Ky & Hy).
  apply filter_In in Hy as [_ Hy]. apply negb_true_iff in Hy.
  apply has_key_false_iff in Hy. now apply Hy.
Qed.

Lemma update_enabled_keys (db : Store) (v : bool) (g : Z) (s : pystr) :
  map row_key (update_enabled db v g s) = map row_key db.
Proof.
  unfold update_enabled. rewrite map_map. apply map_ext.
  intros r. destruct (has_key g s r); reflexivity.
Qed.

Lemma setup_webhook_unique create perm guild channel svc ping_role (db : Store) :
  pk_unique db ->
  pk_unique (fst (setup_webhook create perm guild channel svc ping_role db)).
Proof.
  intros U. unfold setup_webhook. destruct perm; simpl; [|exact U].
  destruct create; simpl; [|exact U|exact U].
  now apply insert_or_replace_unique.
Qed.

Lemma remove_webhook_unique perm guild svc (db : Store) :
  pk_unique db -> pk_unique (fst (remove_webhook perm guild svc db)).
Proof.
  intros U. unfold remove_webhook. destruct perm; simpl; [|exact U].
  destruct (0 <? rowcount guild svc db)%nat; simpl; [|exact U].
  now apply filter_keeps_unique.
Qed.

Lemma toggle_webhook_unique perm guild svc (db : Store) :
  pk_unique db -> pk_unique (fst (toggle_webhook perm guild svc db)).
Proof.
  intros U. unfold toggle_webhook. destruct perm; simpl; [|exact U].
  destruct (find (has_key guild svc) db); simpl; [|exact U].
  unfold pk_unique. now rewrite update_enabled_keys.
Qed.

Lemma tick_unique (w : nat -> Pass) (db : Store) :
  pk_unique db -> pk_unique (fst (fst (check_and_post_incidents w db))).
Proof.
  intros U. unfold check_and_post_incidents, pk_unique.
  change (fst (fst (run_configs w 0 (select_enabled db) db)))
    with (tick_store (run_configs w 0 (select_enabled db) db)).
  now rewrite (shape_keys db _ (run_configs_keeps_shape w (select_enabled db) 0 db)).
Qed.

(** The primary key holds in every table the program can produce. *)
Lemma reachable_unique (db : Store) : reachable db -> pk_unique db.
Proof.
  induction 1.
  - constructor.
  - now apply setup_webhook_unique.
  - now apply remove_webhook_unique.
  - now apply toggle_webhook_unique.
  - now apply tick_unique.
Qed.

Lemma lookup_app_new (g : Z) (s : pystr) (l : Store) (row : Row) :
  lookup g s l = None -> row_key row = (g, s) -> lookup g s (l ++ [row]) = Some row.
Proof.
  unfold lookup. intros N K. induction l as [|x l IH]; simpl in *.
  - apply has_key_true_iff in K. now rewrite K.
  - destruct (has_key g s x); [discriminate | now apply IH].
Qed.

Lemma lookup_app_old (g : Z) (s : pystr) (l : Store) (row : Row) :
  row_key row <> (g, s) -> lookup g s (l ++ [row]) = lookup g s l.
Proof.
  unfold lookup. intros K. apply has_key_false_iff in K.
  induction l as [|x l IH]; simpl.
  - now rewrite K.
  - destruct (has_key g s x); [reflexivity | exact IH].
Qed.

Lemma lookup_filter_other (g g' : Z) (s s' : pystr) (db : Store) :
  (g', s') <> (g, s) ->
  lookup g s (filter (fun r => negb (has_key g' s' r)) db) = lookup g s db.
Proof.
  unfold lookup. intros D. induction db as [|x db IH]; simpl; [reflexivity|].
  destruct (has_key g' s' x) eqn:K'; simpl.
  - destruct (has_key g s x) eqn:K; [|exact IH].
    apply has_key_true_iff in K, K'. congruence.
  - destruct (has_key g s x); [reflexivity | exact IH].
Qed.

Lemma filter_out_key (g : Z) (s : pystr) (db : Store) :
  filter (has_key g s) (filter (fun r => negb (has_key g s r)) db) = [].
Proof.
  induction db as [|x db IH]; simpl; [reflexivity|].
  destruct (has_key g s x) eqn:K; simpl; [exact IH|]. now rewrite K.
Qed.

(** C5: [setup_webhook], when the caller may manage webhooks and the
    webhook is created, leaves exactly one row of the key
    [(guild, service)], and that row is made of the arguments of this
    call alone: the new channel and URL, the role of this call ([NULL]
    when none is given, whatever the old row had), [enabled] 1 and the
    marker [NULL].  Rows of other keys are as they were, one write is
    made, and the primary key holds afterwards in every table the
    program can reach. *)
Theorem setup_webhook_replaces_the_row (url : pystr) (guild : Z)
    (channel : Channel) (svc : pystr) (ping_role : option Role) (db : Store) :
  let row := mkRow guild (ch_id channel) url svc
               (match ping_role with
                | Some role => Some (role_id role)
                | None => None
                end) 1 None in
  let out := setup_webhook (Created url) true guild channel svc ping_role db in
  lookup guild svc (fst out) = Some row
  /\ rows_of guild svc (fst out) = 1%nat
  /\ (forall r, In r (fst out) -> row_key r = (guild, svc) -> r = row)
  /\ (ping_role = None -> ping_role_id row = None)
  /\ (forall g s, (g, s) <> (guild, svc) ->
                  lookup g s (fst out) = lookup g s db)
  /\ List.length (filter is_write (snd out)) = 1%nat
  /\ (reachable db -> pk_unique db /\ pk_unique (fst out)).
Proof.
  cbv zeta. unfold setup_webhook. cbn [negb fst snd].
  set (row := mkRow guild (ch_id channel) url svc _ 1 None).
  unfold insert_or_replace. cbn [guild_id service row].
  assert (K : row_key row = (guild, svc)) by reflexivity.
  assert (N : lookup guild svc
                (filter (fun r => negb (has_key guild svc r)) db) = None).
  { apply lookup_none. intros H. apply in_map_iff in H as (y & Ky & Hy).
    apply filter_In in Hy as [_ Hy]. apply negb_true_iff in Hy.
    apply has_key_false_iff in Hy. now apply Hy. }
  split; [now apply lookup_app_new|].
  split.
  { unfold rows_of. rewrite filter_app, filter_out_key. simpl.
    apply has_key_true_iff in K. now rewrite K. }
  split.
  { intros r I Kr. apply in_app_iff in I as [I | [I | []]]; [|now symmetry].
    apply filter_In in I as [_ I]. apply negb_true_iff in I.
    apply has_key_false_iff in I. contradiction. }
  split; [intros ->; reflexivity|].
  split.
  { intros g s D. assert (D' : (guild, svc) <> (g, s)) by congruence.
    rewrite lookup_app_old by (rewrite K; exact D').
    now apply lookup_filter_other. }
  split; [reflexivity|].
  intros R. pose proof (reachable_unique db R) as U. split; [exact U|].
  now apply (insert_or_replace_unique row db).
Qed.

(** An old row with a role, disabled, with a marker; the new call gives
    no role: nothing of the old row is left. *)
Example setup_webhook_no_stale_fields :
  fst (setup_webhook (Created (lit "https://discord.com/api/webhooks/2/y")) true
         1 (mkChannel 20 (lit "<#20>") true) (lit "vercel") None
         [mkRow 1 10 (lit "https://discord.com/api/webhooks/1/x") (lit "vercel")
            (Some 99) 0 (Some (lit "inc-41"))])
  = [mkRow 1 20 (lit "https://discord.com/api/webhooks/2/y") (lit "vercel")
       None 1 None].
Proof. vm_compute. reflexivity. Qed.

Lemma lookup_update_enabled_same (g : Z) (s : pystr) (v : bool) (db : Store) :
  lookup g s (update_enabled db v g s)
  = option_map (set_enabled (if v then 1 else 0)) (lookup g s db).
Proof.
  unfold lookup, update_enabled.
  induction db as [|x db IH]; simpl; [reflexivity|].
  destruct (has_key g s x) eqn:K.
  - assert (K' : has_key g s (set_enabled (if v then 1 else 0) x) = true)
      by exact K.
    rewrite K'. reflexivity.
  - rewrite K. exact IH.
Qed.

Lemma update_enabled_other (g : Z) (s : pystr) (v : bool) (db : Store) (r : Row) :
  In r db -> row_key r <> (g, s) -> In r (update_enabled db v g s).
Proof.
  intros I K. unfold update_enabled. apply in_map_iff. exists r.
  apply has_key_false_iff in K. rewrite K. auto.
Qed.

(** C10: [toggle_webhook], for a caller who may manage webhooks.  A row
    of the key is replaced by the same row with [enabled] negated (1
    becomes 0, 0 becomes 1): [guild_id], [channel_id], [webhook_url],
    [service], [ping_role_id] and [last_incident_id] are as before.  Rows
    of other keys stay, and the table keeps its length.  When the key has
    no row, the table is left as it is, no write is made, and the answer
    is the not-found message. *)
Theorem toggle_webhook_changes_enabled_only (guild : Z) (svc : pystr)
    (db : Store) :
  pk_unique db ->
  let out := toggle_webhook true guild svc db in
  (forall r,
      In r db -> row_key r = (guild, svc) ->
      exists r',
        lookup guild svc (fst out) = Some r'
        /\ enabled r' = (if enabled r =? 0 then 1 else 0)
        /\ guild_id r' = guild_id r
        /\ channel_id r' = channel_id r
        /\ webhook_url r' = webhook_url r
        /\ service r' = service r
        /\ ping_role_id r' = ping_role_id r
        /\ last_incident_id r' = last_incident_id r)
  /\ (forall r, In r db -> row_key r <> (guild, svc) -> In r (fst out))
  /\ List.length (fst out) = List.length db
  /\ (lookup guild svc db = None ->
      fst out = db
      /\ List.length (filter is_write (snd out)) = 0%nat
      /\ In (Respond (Text (lit "‚ùå No webhook found for " ++ capitalize svc))
               false) (snd out)).
Proof.
  intros U. cbv zeta. unfold toggle_webhook. cbn [negb].
  fold (lookup guild svc db).
  destruct (lookup guild svc db) as [result|] eqn:L; cbn [fst snd].
  - split; [|split; [|split]].
    + intros r I K.
      assert (r = result).
      { unfold row_key in K. injection K as K1 K2.
        pose proof (lookup_unique db r U I) as L'. rewrite K1, K2 in L'.
        congruence. }
      subst r.
      exists (set_enabled (if enabled result =? 0 then 1 else 0) result).
      rewrite lookup_update_enabled_same, L. simpl.
      destruct (enabled result =? 0); repeat split; reflexivity.
    + intros r I K. now apply update_enabled_other.
    + unfold update_enabled. apply length_map.
    + discriminate.
  - split; [|split; [|split]].
    + intros r I K. exfalso.
      unfold row_key in K. injection K as K1 K2.
      pose proof (lookup_unique db r U I) as L'. rewrite K1, K2 in L'.
      congruence.
    + intros r I _. exact I.
    + reflexivity.
    + intros _. split; [reflexivity|]. split; [reflexivity|].
      simpl. right. left. reflexivity.
Qed.

Lemma toggle_webhook_changes_enabled_only_witness :
  fst (toggle_webhook true 1 (lit "vercel")
         [ex_row 1 1 (Some (lit "inc-41")); ex_row 2 0 None])
  = [ex_row 1 0 (Some (lit "inc-41")); ex_row 2 0 None]
  /\ In (ex_row 2 0 None)
       (fst (toggle_webhook true 1 (lit "vercel")
               [ex_row 1 1 (Some (lit "inc-41")); ex_row 2 0 None])).
Proof.
  assert (U : pk_unique [ex_row 1 1 (Some (lit "inc-41")); ex_row 2 0 None]).
  { unfold pk_unique. simpl. constructor.
    - intros [Q | []]. discriminate Q.
    - constructor; [intros [] | constructor]. }
  split; [vm_compute; reflexivity|].
  generalize (toggle_webhook_changes_enabled_only 1 (lit "vercel")
                [ex_row 1 1 (Some (lit "inc-41")); ex_row 2 0 None] U).
  intros (_ & B & _). apply B.
  - right. left. reflexivity.
  - intros Q. discriminate Q.
Defined.

(** Toggling back and forth, and toggling a key that has no row. *)
Example toggle_webhook_twice_and_missing :
  let db := [ex_row 1 1 (Some (lit "inc-41"))] in
  fst (toggle_webhook true 1 (lit "vercel")
         (fst (toggle_webhook true 1 (lit "vercel") db))) = db
  /\ fst (toggle_webhook true 7 (lit "vercel") db) = db
  /\ filter is_write (snd (toggle_webhook true 7 (lit "vercel") db)) = [].
Proof. vm_compute. repeat split. Qed.

(** ** The owner check *)

(** The four owner commands that are in the tree: a caller who is not
    the owner gets the restricted answer and nothing else happens; the
    callback is not called. *)
Lemma registered_owner_commands_reject_others (OWNER_ID : Z)
    (interaction : Interaction) :
  In (command_name interaction)
     [lit "sendmessage"; lit "sendembed"; lit "broadcast"; lit "multisend"] ->
  user_id interaction <> OWNER_ID ->
  dispatch OWNER_ID interaction = [restricted_response]
  /\ filter is_invoke (dispatch OWNER_ID interaction) = [].
Proof.
  intros I N. apply Z.eqb_neq in N.
  destruct interaction as [u name]. simpl in *.
  assert (D : dispatch OWNER_ID (mkInteraction u name) = [restricted_response]).
  { destruct I as [<- | [<- | [<- | [<- | []]]]];
      unfold dispatch, tree; cbn [find command_name cmd_name];
      repeat match goal with
        | |- context [pystr_eqb ?a ?b] =>
            let v := eval vm_compute in (pystr_eqb a b) in
            change (pystr_eqb a b) with v; cbv iota
        end;
      cbn [cmd_checks forallb]; unfold is_owner; cbn [user_id]; rewrite N;
      vm_compute; reflexivity. }
  rewrite D. split; reflexivity.
Qed.

(** The owner is let through to the callback. *)
Lemma owner_is_let_through (OWNER_ID : Z) :
  dispatch OWNER_ID (mkInteraction OWNER_ID (lit "sendmessage"))
  = [Invoke (lit "sendmessage")].
Proof.
  unfold dispatch, tree; cbn [find command_name cmd_name].
  repeat match goal with
    | |- context [pystr_eqb ?a ?b] =>
        let v := eval vm_compute in (pystr_eqb a b) in
        change (pystr_eqb a b) with v; cbv iota
    end.
  cbn [cmd_checks forallb]. unfold is_owner; cbn [user_id].
  now rewrite Z.eqb_refl.
Qed.

(** C6 at [botstats]: the tree holds no command of that name, so the
    dispatch ends in [CommandNotFound], which the handler answers with
    its general error message, for every caller; the answer is not the
    restricted one.  No callback is called. *)
Theorem botstats_is_not_answered_as_restricted (OWNER_ID caller : Z) :
  dispatch OWNER_ID (mkInteraction caller (lit "botstats"))
  = [Respond (Text (lit "‚ùå An error occurred while executing the command."))
       true]
  /\ dispatch OWNER_ID (mkInteraction caller (lit "botstats"))
     <> [restricted_response]
  /\ filter is_invoke (dispatch OWNER_ID (mkInteraction caller (lit "botstats")))
     = [].
Proof.
  assert (D : dispatch OWNER_ID (mkInteraction caller (lit "botstats"))
              = [Respond (Text (lit "‚ùå An error occurred while executing the command."))
                   true]).
  { unfold dispatch, tree; cbn [find command_name cmd_name].
    repeat match goal with
      | |- context [pystr_eqb ?a ?b] =>
          let v := eval vm_compute in (pystr_eqb a b) in
          change (pystr_eqb a b) with v; cbv iota
      end.
    reflexivity. }
  rewrite D. split; [reflexivity|]. split; [|reflexivity].
  intros Q. vm_compute in Q. discriminate Q.
Qed.

(** ** [send_message] *)

Section SendMessage.

Variable send : nat -> SendOutcome.
Variable channel : Channel.
Variable message : pystr.

Lemma filter_send_pause (delay : Q) (i : nat) (count : Z) :
  filter is_send (pause delay i count) = [].
Proof. unfold pause. destruct (_ && _); reflexivity. Qed.

(** When every send is accepted and the delay is not positive, the loop
    is the sends and nothing else. *)
Lemma send_message_loop_all_sent (count : Z) (delay : Q) :
  positive delay = false ->
  forall remaining i s f,
    (forall j, (i <= j < i + remaining)%nat -> send j = Sent) ->
    send_message_loop send channel message count delay remaining i s f
    = (map (fun _ => Send (ch_id channel) (Text message) Sent) (seq i remaining),
       s + Z.of_nat remaining, f).
Proof.
  intros P. induction remaining as [|r IH]; intros i s f A.
  - simpl. now rewrite Z.add_0_r.
  - cbn [send_message_loop]. rewrite (A i) by lia.
    rewrite IH by (intros j Hj; apply A; lia).
    unfold pause. rewrite P. cbn [andb app seq map].
    replace (s + 1 + Z.of_nat r) with (s + Z.of_nat (S r)) by lia.
    reflexivity.
Qed.

(** The loop ends with the first [Forbidden]: the sends made are those
    up to it. *)
Lemma send_message_loop_stops (count : Z) (delay : Q) (k : nat) :
  send k = Forbidden ->
  forall remaining i s f,
    (i <= k < i + remaining)%nat ->
    (forall j, (i <= j < k)%nat -> send j <> Forbidden) ->
    filter is_send
      (fst (fst (send_message_loop send channel message count delay
                   remaining i s f)))
    = map (fun j => Send (ch_id channel) (Text message) (send j))
        (seq i (S k - i)).
Proof.
  intros F. induction remaining as [|r IH]; intros i s f B A.
  - lia.
  - cbn [send_message_loop].
    destruct (Nat.eq_dec i k) as [-> | D].
    + rewrite F. replace (S k - k)%nat with 1%nat by lia. simpl. now rewrite F.
    + assert (N : send i <> Forbidden) by (apply A; lia).
      replace (S k - i)%nat with (S (S k - S i)) by lia.
      cbn [seq map].
      specialize (IH (S i)).
      destruct (send i) eqn:E; [|congruence| |].
      * specialize (IH (s + 1) f).
        destruct (send_message_loop send channel message count delay r (S i)
                    (s + 1) f) as [[rest s'] f'].
        cbn [fst filter is_send]. rewrite filter_app, filter_send_pause.
        simpl app. f_equal. apply IH; [lia | intros; apply A; lia].
      * specialize (IH s (f + 1)).
        destruct (send_message_loop send channel message count delay r (S i)
                    s (f + 1)) as [[rest s'] f'].
        cbn [fst filter is_send]. rewrite filter_app.
        replace (filter is_send (if status =? 429 then [Sleep 1] else []))
          with (@nil Action) by (destruct (status =? 429); reflexivity).
        simpl app. f_equal. apply IH; [lia | intros; apply A; lia].
      * specialize (IH s (f + 1)).
        destruct (send_message_loop send channel message count delay r (S i)
                    s (f + 1)) as [[rest s'] f'].
        cbn [fst filter is_send]. f_equal. apply IH; [lia | intros; apply A; lia].
Qed.

(** C7: with count 5 and delay 0, when the five sends are accepted,
    [send_message] makes exactly these five sends, with no sleep, between
    the deferral and the report.  Whatever the count and the delay, when
    a send raises [Forbidden] the loop ends there: the sends made are the
    attempts up to the first [Forbidden], and none after it. *)
Theorem sendmessage_sends_all_or_stops_at_forbidden :
  ((forall i, (i < 5)%nat -> send i = Sent) ->
   send_message send channel message 5 0
   = Defer true
     :: map (fun _ => Send (ch_id channel) (Text message) Sent) (seq 0 5)
     ++ [Followup (Text (lit "‚úÖ Sent 5/5 messages to " ++ ch_mention channel
                         ++ nl ++ lit "‚ö° Ultra-fast mode used"))]
   /\ List.length (filter is_send (send_message send channel message 5 0)) = 5%nat
   /\ filter is_sleep (send_message send channel message 5 0) = [])
  /\ (forall count delay k,
        1 <= count <= 50 ->
        negative delay = false ->
        (k < Z.to_nat count)%nat ->
        send k = Forbidden ->
        (forall j, (j < k)%nat -> send j <> Forbidden) ->
        filter is_send (send_message send channel message count delay)
        = map (fun j => Send (ch_id channel) (Text message) (send j))
            (seq 0 (S k))).
Proof.
  split.
  - intros A.
    assert (E : send_message send channel message 5 0
                = Defer true
                  :: map (fun _ => Send (ch_id channel) (Text message) Sent)
                       (seq 0 5)
                  ++ [Followup (Text (lit "‚úÖ Sent 5/5 messages to "
                                      ++ ch_mention channel
                                      ++ nl ++ lit "‚ö° Ultra-fast mode used"))]).
    { unfold send_message.
      change ((5 <? 1) || (50 <? 5)) with false.
      change (negative 0) with false. cbv iota.
      rewrite (send_message_loop_all_sent 5 0 eq_refl)
        by (intros j Hj; apply A; change (Z.to_nat 5) with 5%nat in Hj; lia).
      change (Z.to_nat 5) with 5%nat. vm_compute. reflexivity. }
    rewrite E. split; [reflexivity|]. split; reflexivity.
  - intros count delay k C D K F A. unfold send_message.
    destruct ((count <? 1) || (50 <? count)) eqn:V.
    { apply orb_true_iff in V as [V | V]; apply Z.ltb_lt in V; lia. }
    rewrite D.
    pose proof (send_message_loop_stops count delay k F (Z.to_nat count) 0 0 0)
      as S.
    destruct (send_message_loop send channel message count delay
                (Z.to_nat count) 0 0 0) as [[sends s'] f'].
    cbn [fst] in S. cbn [filter is_send]. rewrite filter_app. simpl.
    rewrite app_nil_r. rewrite S; [now rewrite Nat.sub_0_r | lia|].
    intros j Hj. apply A. lia.
Qed.

End SendMessage.

(** The scenario of the specification: of five sends the second and the
    fourth would be refused; two sends are made, the last three never. *)
Example sendmessage_two_of_five_forbidden :
  filter is_send
    (send_message (fun i => match i with
                            | 1%nat => Forbidden
                            | 3%nat => Forbidden
                            | _ => Sent
                            end)
       (mkChannel 7 (lit "<#7>") true) (lit "hi") 5 0)
  = [Send 7 (Text (lit "hi")) Sent; Send 7 (Text (lit "hi")) Forbidden].
Proof. vm_compute. reflexivity. Qed.

(** Other failures do not end the loop: a rate limit is waited out and
    counted, and the next send is made. *)
Example sendmessage_goes_on_after_rate_limit :
  send_message (fun i => match i with
                         | 0%nat => HTTPException 429
                         | _ => Sent
                         end)
    (mkChannel 7 (lit "<#7>") true) (lit "hi") 2 0
  = [Defer true;
     Send 7 (Text (lit "hi")) (HTTPException 429); Sleep 1;
     Send 7 (Text (lit "hi")) Sent;
     Followup (Text (lit "‚úÖ Sent 1/2 messages to <#7>" ++ nl
                     ++ lit "‚ùå Failed: 1 messages" ++ nl
                     ++ lit "‚ö° Ultra-fast mode used"))].
Proof. vm_compute. reflexivity. Qed.

(** ** The renderer *)

Lemma bind_ok {A B : Type} (r : result A) (k : A -> result B) (b : B) :
  bind r k = Ok b -> exists a, r = Ok a /\ k a = Ok b.
Proof. destruct r as [a|e]; simpl; [eauto | discriminate]. Qed.

Lemma incidents_loop_entries (incidents : list Incident) :
  forall acc text,
    incidents_loop incidents acc = Ok text ->
    exists entries,
      Forall2 (fun incident entry => incident_entry incident = Ok entry)
        incidents entries
      /\ text = acc ++ List.concat entries.
Proof.
  induction incidents as [|x l IH]; simpl; intros acc text H.
  - exists []. split; [constructor|]. injection H as <-. simpl.
    now rewrite app_nil_r.
  - apply bind_ok in H as (entry & E & H).
    apply IH in H as (entries & F & ->).
    exists (entry :: entries). split; [now constructor|].
    simpl. now rewrite app_assoc.
Qed.

Lemma Forall2_nth_error {A B : Type} (R : A -> B -> Prop) (l : list A)
    (l' : list B) :
  Forall2 R l l' ->
  forall k a, nth_error l k = Some a ->
              exists b, nth_error l' k = Some b /\ R a b.
Proof.
  induction 1 as [|x y l l' Hxy F IH]; intros k a H.
  - destruct k; discriminate.
  - destruct k as [|k]; simpl in *.
    + injection H as <-. eauto.
    + now apply IH.
Qed.

Lemma nth_error_firstn_lt {A : Type} (l : list A) :
  forall n k, (k < n)%nat -> nth_error (firstn n l) k = nth_error l k.
Proof.
  induction l as [|x l IH]; intros n k H.
  - now rewrite firstn_nil.
  - destruct n as [|n]; [lia|]. destruct k as [|k]; simpl; [reflexivity|].
    apply IH. lia.
Qed.

Lemma update_text_cases (text : pystr) :
  ((200 < List.length text)%nat ->
   update_text text = firstn 200 text ++ lit "..." ++ nl ++ nl)
  /\ ((0 < List.length text <= 200)%nat -> update_text text = text ++ nl ++ nl)
  /\ (text = [] -> update_text text = []).
Proof.
  unfold update_text. destruct text as [|c rest].
  - simpl. repeat split; intros; try lia; reflexivity.
  - split; [|split].
    + intros H. apply Nat.ltb_lt in H. rewrite H. now rewrite <- app_assoc.
    + intros [_ H].
      assert (F : (200 <? List.length (c :: rest))%nat = false)
        by (apply Nat.ltb_ge; exact H).
      now rewrite F.
    + discriminate.
Qed.

(** C8: in a notification that [create_status_embed] gives for data
    with incidents, the first field is "Recent Incidents" and its text is
    the entries of the first three incidents, in order, and of no other.
    The entry of an incident is its header line followed by its latest
    update text: the first 200 characters and ["..."] when the text is
    longer than 200 characters, the whole text when it has 1 to 200
    characters (each followed by an empty line), and nothing when it is
    empty.  Incidents after the third play no part in the
    notification. *)
Theorem updates_are_cut_at_200_and_three_incidents_shown (now : Z)
    (service_name : pystr) (data : ServiceData) (embed : Embed) :
  create_status_embed now service_name data = Ok embed ->
  sd_incidents data <> [] ->
  (exists entries,
     hd_error (e_fields embed)
     = Some (mkField (lit "Recent Incidents") (List.concat entries) false)
     /\ List.length entries = Nat.min 3 (List.length (sd_incidents data))
     /\ forall k incident,
          nth_error (sd_incidents data) k = Some incident ->
          (k < 3)%nat ->
          exists text,
            latest_update incident = Ok text
            /\ ((200 < List.length text)%nat ->
                nth_error entries k
                = Some (incident_header incident ++ firstn 200 text
                        ++ lit "..." ++ nl ++ nl))
            /\ ((0 < List.length text <= 200)%nat ->
                nth_error entries k
                = Some (incident_header incident ++ text ++ nl ++ nl))
            /\ (text = [] ->
                nth_error entries k = Some (incident_header incident)))
  /\ create_status_embed now service_name
       (mkData (sd_status data) (firstn 3 (sd_incidents data))
          (sd_components data))
     = Ok embed.
Proof.
  intros H NE. split.
  - unfold create_status_embed in H.
    apply bind_ok in H as (status & _ & H).
    apply bind_ok in H as (descr & _ & H).
    apply bind_ok in H as (ind & _ & H).
    apply bind_ok in H as (f1 & F1 & H).
    apply bind_ok in H as (f2 & _ & H).
    injection H as <-. cbn [e_fields hd_error].
    unfold incidents_field in F1.
    destruct (firstn 3 (sd_incidents data)) as [|x shown] eqn:S.
    { destruct (sd_incidents data); [congruence | discriminate S]. }
    apply bind_ok in F1 as (text & L & F1). injection F1 as <-.
    apply incidents_loop_entries in L as (entries & F & ->).
    exists entries. split; [reflexivity|]. split.
    + transitivity (List.length (x :: shown));
        [symmetry; exact (Forall2_length F) | rewrite <- S; apply length_firstn].
    + intros k incident K Hk.
      rewrite <- (nth_error_firstn_lt _ 3 k Hk), S in K.
      destruct (Forall2_nth_error _ _ _ F k incident K) as (entry & E1 & E2).
      unfold incident_entry in E2.
      apply bind_ok in E2 as (update & U & E2).
      assert (Ee : entry = incident_header incident ++ update_text update)
        by (injection E2; auto).
      exists update. split; [exact U|].
      destruct (update_text_cases update) as (C1 & C2 & C3).
      split; [|split]; intros Hc; (etransitivity; [exact E1|]); rewrite Ee;
        do 2 f_equal.
      * exact (C1 Hc).
      * exact (C2 Hc).
      * rewrite (C3 Hc). apply app_nil_r.
  - rewrite <- H. unfold create_status_embed, incidents_field, components_field.
    cbn [sd_status sd_incidents sd_components].
    rewrite firstn_firstn. reflexivity.
Qed.

Lemma updates_are_cut_at_200_and_three_incidents_shown_witness :
  exists embed entries,
    create_status_embed 0 (lit "vercel") ex_four_incidents = Ok embed
    /\ hd_error (e_fields embed)
       = Some (mkField (lit "Recent Incidents") (List.concat entries) false)
    /\ List.length entries = 3%nat
    /\ nth_error entries 0
       = Some (incident_header ex_long_incident ++ repeat 97%N 200
               ++ lit "..." ++ nl ++ nl).
Proof.
  assert (E : exists embed,
             create_status_embed 0 (lit "vercel") ex_four_incidents = Ok embed)
    by (vm_compute; eexists; reflexivity).
  destruct E as [embed E].
  assert (NE : sd_incidents ex_four_incidents <> []) by discriminate.
  destruct (updates_are_cut_at_200_and_three_incidents_shown
              0 (lit "vercel") ex_four_incidents embed E NE)
    as [(entries & A & B & C) _].
  exists embed, entries. split; [exact E|]. split; [exact A|].
  split; [exact B|].
  destruct (C 0%nat ex_long_incident eq_refl (Nat.lt_0_succ 2))
    as (text & T & C1 & _).
  vm_compute in T. injection T as <-.
  etransitivity.
  - apply C1. apply Nat.ltb_lt. vm_compute. reflexivity.
  - vm_compute. reflexivity.
Defined.

(** Short, missing and empty parts of an incident, and the fourth
    incident left out. *)
Example render_of_four_incidents :
  match create_status_embed 0 (lit "vercel") ex_four_incidents with
  | Ok embed =>
      hd_error (e_fields embed)
      = Some (mkField (lit "Recent Incidents")
                (lit "**Builds delayed** (identified)" ++ nl
                 ++ repeat 97%N 200 ++ lit "..." ++ nl ++ nl
                 ++ lit "**API errors** (investigating)" ++ nl
                 ++ lit "We are looking into it." ++ nl ++ nl
                 ++ lit "**Unnamed incident** (unknown)" ++ nl)
                false)
  | Raise _ => False
  end.
Proof. vm_compute. reflexivity. Qed.

(** No incidents: the placeholder field. *)
Example render_without_incidents :
  match create_status_embed 0 (lit "vercel") (mkData ex_body [] []) with
  | Ok embed =>
      e_fields embed
      = [mkField (lit "Incidents") (lit "No current incidents") false;
         mkField (lit "Components") (lit "All systems operational") false]
  | Raise _ => False
  end.
Proof. vm_compute. reflexivity. Qed.

(** ** [multi_send] *)

Lemma results_get_set_same (r : list (Z * pystr)) (k : Z) (v : pystr) :
  results_get (dict_set r k v) k = Some v.
Proof.
  induction r as [|[k' v'] r IH]; simpl.
  - now rewrite Z.eqb_refl.
  - destruct (k' =? k) eqn:E; simpl; rewrite E; [reflexivity | exact IH].
Qed.

Lemma results_get_set_other (r : list (Z * pystr)) (k k' : Z) (v : pystr) :
  k' <> k -> results_get (dict_set r k v) k' = results_get r k'.
Proof.
  intros D. induction r as [|[k0 v0] r IH]; simpl.
  - apply Z.eqb_neq in D. rewrite Z.eqb_sym in D. now rewrite D.
  - destruct (k0 =? k) eqn:E; simpl.
    + apply Z.eqb_eq in E. subst k0.
      assert (F : (k =? k') = false) by (apply Z.eqb_neq; congruence).
      now rewrite F.
    + destruct (k0 =? k'); [reflexivity | exact IH].
Qed.

(** An entry of the results has its line in the report. *)
Lemma results_get_line (r : list (Z * pystr)) (k : Z) (v : pystr) :
  results_get r k = Some v ->
  exists before after,
    List.concat (map result_line r) = before ++ result_line (k, v) ++ after.
Proof.
  induction r as [|[k' v'] r IH]; simpl; intros H.
  - discriminate.
  - destruct (k' =? k) eqn:E.
    + apply Z.eqb_eq in E. subst k'. injection H as ->.
      exists [], (List.concat (map result_line r)). reflexivity.
    + destruct (IH H) as (before & after & Q).
      exists (result_line (k', v') ++ before), after.
      rewrite Q. now rewrite app_assoc.
Qed.

Lemma chunks_concat (n : nat) :
  (0 < n)%nat ->
  forall fuel s, (List.length s <= fuel)%nat ->
                 List.concat (chunks fuel n s) = s.
Proof.
  intros P. induction fuel as [|fuel IH]; intros s L.
  - destruct s; [reflexivity | simpl in L; lia].
  - destruct s as [|c s]; [reflexivity|].
    cbn [chunks List.concat].
    rewrite IH.
    + apply firstn_skipn.
    + rewrite length_skipn. lia.
Qed.

Lemma report_app (a b : list Action) : report (a ++ b) = report a ++ report b.
Proof. unfold report. now rewrite map_app, concat_app. Qed.

Lemma report_followups (msg : pystr) : report (followups msg) = msg.
Proof.
  unfold followups, report.
  destruct (2000 <? List.length msg)%nat.
  - rewrite map_map. cbn [followup_text]. rewrite map_id.
    apply chunks_concat; lia.
  - simpl. apply app_nil_r.
Qed.

Lemma report_send_or_sleep (acts : list Action) :
  forallb send_or_sleep acts = true -> report acts = [].
Proof.
  unfold report. induction acts as [|a acts IH]; simpl; intros H.
  - reflexivity.
  - apply andb_true_iff in H as [Ha H]. rewrite (IH H).
    destruct a; try discriminate Ha; reflexivity.
Qed.

Section MultiSend.

Variable w : MultiWorld.
Variable embed_format : bool.
Variable message : pystr.
Variable count : Z.
Variable delay : Q.

Lemma pause_send_or_sleep (i : nat) :
  forallb send_or_sleep (pause delay i count) = true.
Proof. unfold pause. destruct (_ && _); reflexivity. Qed.

Lemma pause_not_failed (i : nat) :
  filter is_failed_send (pause delay i count) = [].
Proof. unfold pause. destruct (_ && _); reflexivity. Qed.

Lemma pause_not_send (i : nat) : filter is_send (pause delay i count) = [].
Proof. unfold pause. destruct (_ && _); reflexivity. Qed.

(** The inner loop runs all its passes: every one makes its send, and
    counts it as sent or as failed. *)
Lemma guild_loop_runs_all (send : nat -> SendOutcome) (clk : nat -> Z)
    (target : Channel) (guild : Guild) :
  forall remaining i s f,
    let out := guild_loop send clk target guild embed_format message count
                 delay remaining i s f in
    filter is_send (fst (fst out))
    = map (fun k => Send (ch_id target)
                      (multi_content embed_format message guild k count (clk k))
                      (send k))
        (seq i remaining)
    /\ snd out
       = f + Z.of_nat (List.length (filter is_failed_send (fst (fst out))))
    /\ snd (fst out) + snd out = s + f + Z.of_nat remaining
    /\ forallb send_or_sleep (fst (fst out)) = true.
Proof.
  induction remaining as [|r IH]; intros i s f.
  - simpl. repeat split; lia.
  - cbv zeta. cbn [guild_loop seq map].
    destruct (send i) eqn:E.
    + specialize (IH (S i) (s + 1) f). cbv zeta in IH.
      destruct (guild_loop send clk target guild embed_format message count
                  delay r (S i) (s + 1) f) as [[rest s'] f'].
      cbn [fst snd] in *. destruct IH as (I1 & I2 & I3 & I4).
      cbn [filter is_send is_failed_send forallb send_or_sleep is_sleep orb].
      rewrite !filter_app, pause_not_send, pause_not_failed, forallb_app,
        pause_send_or_sleep, I1, I4.
      simpl app. repeat split; [exact I2 | lia].
    + specialize (IH (S i) s (f + 1)). cbv zeta in IH.
      destruct (guild_loop send clk target guild embed_format message count
                  delay r (S i) s (f + 1)) as [[rest s'] f'].
      cbn [fst snd] in *. destruct IH as (I1 & I2 & I3 & I4).
      cbn [filter is_send is_failed_send forallb send_or_sleep is_sleep orb
             List.length].
      rewrite I1, I4. repeat split; lia.
    + specialize (IH (S i) s (f + 1)). cbv zeta in IH.
      destruct (guild_loop send clk target guild embed_format message count
                  delay r (S i) s (f + 1)) as [[rest s'] f'].
      cbn [fst snd] in *. destruct IH as (I1 & I2 & I3 & I4).
      cbn [filter is_send is_failed_send forallb send_or_sleep is_sleep orb
             List.length].
      rewrite !filter_app, forallb_app, I1, I4.
      destruct (status =? 429); cbn [filter is_send is_failed_send forallb
                                       send_or_sleep is_sleep orb app andb];
        repeat split; lia.
    + specialize (IH (S i) s (f + 1)). cbv zeta in IH.
      destruct (guild_loop send clk target guild embed_format message count
                  delay r (S i) s (f + 1)) as [[rest s'] f'].
      cbn [fst snd] in *. destruct IH as (I1 & I2 & I3 & I4).
      cbn [filter is_send is_failed_send forallb send_or_sleep is_sleep orb
             List.length].
      rewrite I1, I4. repeat split; lia.
Qed.

End MultiSend.

Section MultiSendLoop.

Variable w : MultiWorld.
Variable embed_format : bool.
Variable message : pystr.
Variable count : Z.
Variable delay : Q.
Variable many : bool.

(** What one pass of the outer loop does. *)
Lemma multi_pass_spec (j : nat) (id : Z) (st : MultiState) :
  let out := multi_pass w embed_format message count delay many j id st in
  (exists text,
     results (snd out) = dict_set (results st) id text
     /\ (get_guild w id = None -> text = not_found_text))
  /\ forallb send_or_sleep (fst out) = true
  /\ total_failed (snd out)
     = total_failed st + (if reachable_guild w id then 0 else count)
       + Z.of_nat (List.length (filter is_failed_send (fst out)))
  /\ total_sent (snd out) + total_failed (snd out)
     = total_sent st + total_failed st
       + (if reachable_guild w id then Z.of_nat (Z.to_nat count) else count)
  /\ List.length (filter is_send (fst out))
     = (if reachable_guild w id then Z.to_nat count else 0%nat)
  /\ (forall guild target,
        get_guild w id = Some guild ->
        target_channel guild = Some target ->
        forall i, (i < Z.to_nat count)%nat ->
                  In (multi_attempt w embed_format message count j guild target i) (fst out)).
Proof.
  cbv zeta. unfold multi_pass, reachable_guild.
  destruct (get_guild w id) as [guild|] eqn:G.
  2:{ cbn [fst snd results total_sent total_failed filter List.length forallb].
      split; [exists not_found_text; auto|].
      repeat split; try lia. intros; congruence. }
  destruct (target_channel guild) as [target|] eqn:T.
  2:{ cbn [fst snd results total_sent total_failed filter List.length forallb].
      split; [eexists; split; [reflexivity | discriminate]|].
      repeat split; try lia. intros; congruence. }
  pose proof (guild_loop_runs_all embed_format message count delay
                (send_outcome w j) (clock w j) target guild
                (Z.to_nat count) 0 0 0) as L.
  cbv zeta in L.
  destruct (guild_loop (send_outcome w j) (clock w j) target guild embed_format
              message count delay (Z.to_nat count) 0 0 0) as [[sends s'] f'].
  cbn [fst snd results total_sent total_failed] in *.
  destruct L as (L1 & L2 & L3 & L4).
  assert (P : forall tail : list Action,
             forallb send_or_sleep tail = true ->
             filter is_send tail = [] ->
             filter is_failed_send tail = [] ->
             (forallb send_or_sleep (sends ++ tail) = true
              /\ filter is_failed_send (sends ++ tail) = filter is_failed_send sends
              /\ filter is_send (sends ++ tail) = filter is_send sends)).
  { intros tail T1 T2 T3.
    rewrite forallb_app, !filter_app, L4, T1, T2, T3, !app_nil_r. auto. }
  destruct (P (if positive delay && many then [Sleep (3 # 10)] else []))
    as (P1 & P2 & P3); try (destruct (positive delay && many); reflexivity).
  split; [eexists; split; [reflexivity | discriminate]|].
  split; [exact P1|]. rewrite P2, P3.
  split; [lia|]. split; [lia|]. split.
  { rewrite L1, length_map, length_seq. reflexivity. }
  intros guild' target' G' T' i Hi.
  assert (guild' = guild) by congruence. subst guild'.
  assert (target' = target) by congruence. subst target'.
  apply in_or_app. left.
  assert (I : In (multi_attempt w embed_format message count j guild target i) (filter is_send sends)).
  { rewrite L1. unfold multi_attempt.
    apply (in_map (fun k => Send (ch_id target)
                              (multi_content embed_format message guild k count
                                 (clock w j k)) (send_outcome w j k))).
    apply in_seq. lia. }
  now apply filter_In in I.
Qed.

Lemma multi_loop_step (j : nat) (id : Z) (rest : list Z) (st : MultiState) :
  multi_loop w embed_format message count delay many j (id :: rest) st
  = (fst (multi_pass w embed_format message count delay many j id st)
     ++ fst (multi_loop w embed_format message count delay many (S j) rest
               (snd (multi_pass w embed_format message count delay many j id st))),
     snd (multi_loop w embed_format message count delay many (S j) rest
            (snd (multi_pass w embed_format message count delay many j id st)))).
Proof.
  cbn [multi_loop].
  destruct (multi_pass w embed_format message count delay many j id st)
    as [a1 st1].
  cbn [fst snd].
  destruct (multi_loop w embed_format message count delay many (S j) rest st1)
    as [a2 st2].
  reflexivity.
Qed.

(** What the outer loop does: the totals, the sends, and the entry of an
    id that does not resolve. *)
Lemma multi_loop_spec (guild_ids : list Z) :
  forall j st,
    let out := multi_loop w embed_format message count delay many j guild_ids
                 st in
    forallb send_or_sleep (fst out) = true
    /\ total_failed (snd out)
       = total_failed st
         + count * Z.of_nat
                     (List.length
                        (filter (fun id => negb (reachable_guild w id)) guild_ids))
         + Z.of_nat (List.length (filter is_failed_send (fst out)))
    /\ (0 <= count ->
        total_sent (snd out) + total_failed (snd out)
        = total_sent st + total_failed st
          + count * Z.of_nat (List.length guild_ids))
    /\ List.length (filter is_send (fst out))
       = (Z.to_nat count
          * List.length (filter (reachable_guild w) guild_ids))%nat
    /\ (forall k id guild target,
          nth_error guild_ids k = Some id ->
          get_guild w id = Some guild ->
          target_channel guild = Some target ->
          forall i, (i < Z.to_nat count)%nat ->
                    In (multi_attempt w embed_format message count (j + k) guild target i) (fst out))
    /\ (forall bad,
          get_guild w bad = None ->
          In bad guild_ids \/ results_get (results st) bad = Some not_found_text ->
          results_get (results (snd out)) bad = Some not_found_text).
Proof.
  induction guild_ids as [|id rest IH]; intros j st.
  - cbn [multi_loop fst snd forallb filter List.length].
    split; [reflexivity|]. split; [lia|]. split; [lia|]. split; [lia|]. split.
    + intros k ? ? ? H. destruct k; discriminate.
    + intros bad _ [[] | H]. exact H.
  - cbv zeta. rewrite multi_loop_step. cbn [fst snd].
    pose proof (multi_pass_spec j id st) as P. cbv zeta in P.
    destruct P as ((text & P1 & P1') & P2 & P3 & P4 & P5 & P6).
    specialize (IH (S j)
                  (snd (multi_pass w embed_format message count delay many j
                          id st))).
    cbv zeta in IH. destruct IH as (I1 & I2 & I3 & I4 & I5 & I6).
    rewrite forallb_app, !filter_app, !length_app, P2, I1, P5, I4.
    cbn [filter List.length].
    split; [reflexivity|]. split.
    { rewrite I2, P3.
      destruct (reachable_guild w id); cbn [negb List.length]; nia. }
    split.
    { intros C. rewrite (I3 C), P4.
      destruct (reachable_guild w id); cbn [List.length]; [|nia].
      rewrite Z2Nat.id by exact C. nia. }
    split.
    { destruct (reachable_guild w id); cbn [List.length]; nia. }
    split.
    { intros k id' guild target H G T i Hi. apply in_or_app.
      destruct k as [|k]; cbn [nth_error] in H.
      - injection H as ->. left. rewrite Nat.add_0_r. now apply P6.
      - right. replace (j + S k)%nat with (S j + k)%nat by lia.
        now apply (I5 k id'). }
    intros bad B H. apply I6; [exact B|]. rewrite P1.
    destruct (Z.eq_dec bad id) as [-> | D].
    + right. rewrite results_get_set_same. f_equal. now apply P1'.
    + rewrite results_get_set_other by exact D.
      destruct H as [[H | H] | H]; [congruence | now left | now right].
Qed.

End MultiSendLoop.

(** C9: [multi_send] with a valid count and delay and a list of at most
    20 ids, one of which ([bad]) does not resolve.  The results map [bad]
    to the text that the server was not found or the bot is not in it,
    and the report that the followups carry holds the line of [bad]: the
    id between backquotes, a dash, and that text.  The whole count of
    [bad] is counted as failed ([total_failed] is [count] for every id
    that cannot be reached, plus the sends that failed); and every id of
    the list that resolves to a guild with a usable channel gets its
    [count] sends all the same, wherever it stands in the list. *)
Theorem multisend_reports_missing_server_and_goes_on (w : MultiWorld)
    (to_int : pystr -> option Z) (server_ids message : pystr)
    (embed_format : bool) (count : Z) (delay : Q) (guild_ids : list Z)
    (bad : Z) :
  1 <= count <= 20 ->
  negative delay = false ->
  parse_ids to_int (split_comma server_ids []) = Some guild_ids ->
  (List.length guild_ids <= 20)%nat ->
  In bad guild_ids ->
  get_guild w bad = None ->
  exists actions st,
    multi_send w to_int server_ids message embed_format count delay
    = (actions, Some st)
    /\ results_get (results st) bad
       = Some (lit "‚ùå Server not found or bot not in server")
    /\ (exists before after,
          report actions
          = before
            ++ (lit "`" ++ str_of_int bad ++ lit "` - "
                ++ lit "‚ùå Server not found or bot not in server" ++ nl)
            ++ after)
    /\ total_failed st
       = count * Z.of_nat
                   (List.length
                      (filter (fun id => negb (reachable_guild w id)) guild_ids))
         + Z.of_nat (List.length (filter is_failed_send actions))
    /\ count <= total_failed st
    /\ total_sent st + total_failed st
       = count * Z.of_nat (List.length guild_ids)
    /\ (forall k id guild target,
          nth_error guild_ids k = Some id ->
          get_guild w id = Some guild ->
          target_channel guild = Some target ->
          forall i, (i < Z.to_nat count)%nat ->
                    In (multi_attempt w embed_format message count k guild
                          target i) actions)
    /\ List.length (filter is_send actions)
       = (Z.to_nat count
          * List.length (filter (reachable_guild w) guild_ids))%nat.
Proof.
  intros C D P L B G.
  assert (NF : not_found_text
               = lit "‚ùå Server not found or bot not in server")
    by reflexivity.
  assert (RL : result_line (bad, not_found_text)
               = lit "`" ++ str_of_int bad ++ lit "` - " ++ not_found_text ++ nl)
    by reflexivity.
  rewrite <- NF, <- RL. clear NF RL.
  unfold multi_send.
  destruct ((count <? 1) || (20 <? count)) eqn:V.
  { apply orb_true_iff in V as [V | V]; apply Z.ltb_lt in V; lia. }
  rewrite D, P.
  destruct (20 <? List.length guild_ids)%nat eqn:V2.
  { apply Nat.ltb_lt in V2. lia. }
  pose proof (multi_loop_spec w embed_format message count delay
                (1 <? List.length guild_ids)%nat guild_ids 0
                (mkMultiState [] 0 0)) as S.
  cbv zeta in S.
  destruct (multi_loop w embed_format message count delay
              (1 <? List.length guild_ids)%nat 0 guild_ids
              (mkMultiState [] 0 0)) as [sends st].
  cbn [fst snd results total_sent total_failed] in S.
  destruct S as (S1 & S2 & S3 & S4 & S5 & S6).
  exists (Defer true :: sends ++ followups (multi_result_msg st count delay)), st.
  assert (F1 : forall msg, filter is_failed_send (followups msg) = []).
  { intros msg. unfold followups. destruct (2000 <? _)%nat; [|reflexivity].
    induction (chunks _ _ _); [reflexivity | exact IHl]. }
  assert (F2 : forall msg, filter is_send (followups msg) = []).
  { intros msg. unfold followups. destruct (2000 <? _)%nat; [|reflexivity].
    induction (chunks _ _ _); [reflexivity | exact IHl]. }
  assert (R : results_get (results st) bad = Some not_found_text)
    by (apply S6; auto).
  split; [reflexivity|]. split; [exact R|]. split.
  { change (Defer true :: sends ++ followups (multi_result_msg st count delay))
      with ([Defer true] ++ sends ++ followups (multi_result_msg st count delay)).
    rewrite !report_app, report_followups, (report_send_or_sleep sends S1).
    change (report [Defer true]) with (@nil N). cbn [app].
    destruct (results_get_line _ _ _ R) as (before & after & Q).
    exists (result_heading st ++ before), (after ++ ultra_fast delay count).
    unfold multi_result_msg. rewrite Q, <- !app_assoc. reflexivity. }
  cbn [filter is_failed_send is_send]. rewrite !filter_app, F1, F2, !app_nil_r.
  split; [lia|]. split.
  { assert (I : In bad (filter (fun id => negb (reachable_guild w id)) guild_ids)).
    { apply filter_In. split; [exact B|]. unfold reachable_guild. now rewrite G. }
    destruct (filter (fun id => negb (reachable_guild w id)) guild_ids)
      as [|x l]; [destruct I|].
    cbn [List.length] in S2. nia. }
  split; [rewrite S3; lia|]. split; [|exact S4].
  intros k id guild target H Gd T i Hi. right. apply in_or_app. left.
  exact (S5 k id guild target H Gd T i Hi).
Qed.

Lemma multisend_reports_missing_server_and_goes_on_witness :
  exists actions st,
    multi_send ex_multi_world ex_to_int (lit "1,2,3") (lit "hi") false 2 0
    = (actions, Some st)
    /\ results_get (results st) 2
       = Some (lit "‚ùå Server not found or bot not in server")
    /\ (exists before after,
          report actions
          = before
            ++ (lit "`2` - ‚ùå Server not found or bot not in server" ++ [10%N])
            ++ after)
    /\ 2 <= total_failed st
    /\ In (Send 32 (Text (lit "hi")) Forbidden) actions.
Proof.
  assert (C : 1 <= 2 <= 20) by lia.
  assert (P : parse_ids ex_to_int (split_comma (lit "1,2,3") []) = Some [1; 2; 3])
    by (vm_compute; reflexivity).
  assert (L : (List.length [1; 2; 3] <= 20)%nat) by (simpl; lia).
  destruct (multisend_reports_missing_server_and_goes_on
              ex_multi_world ex_to_int (lit "1,2,3") (lit "hi") false 2 0
              [1; 2; 3] 2 C eq_refl P L (or_intror (or_introl eq_refl)) eq_refl)
    as (actions & st & E & R & Q & _ & F & _ & S & _).
  exists actions, st.
  assert (T : lit "`" ++ str_of_int 2 ++ lit "` - "
              ++ lit "‚ùå Server not found or bot not in server" ++ nl
              = lit "`2` - ‚ùå Server not found or bot not in server" ++ [10%N])
    by (vm_compute; reflexivity).
  split; [exact E|]. split; [exact R|].
  split; [rewrite <- T; exact Q|]. split; [exact F|].
  generalize (S 2%nat 3
                (mkGuild (lit "Gamma") (Some (mkChannel 30 (lit "<#30>") false))
                   [mkChannel 31 (lit "<#31>") false;
                    mkChannel 32 (lit "<#32>") true])
                (mkChannel 32 (lit "<#32>") true)
                eq_refl eq_refl eq_refl 1%nat (Nat.lt_succ_diag_r 1)).
  vm_compute. exact (fun H => H).
Defined.

(** The list "1,2,3" where 2 does not resolve: guilds 1 and 3 get their
    sends, before and after the missing one, and the report names it. *)
Example multisend_one_missing_server :
  let out := multi_send ex_multi_world ex_to_int (lit "1,2,3") (lit "hi") false
               2 0 in
  filter is_send (fst out)
  = [Send 11 (Text (lit "hi")) Sent; Send 11 (Text (lit "hi")) Sent;
     Send 32 (Text (lit "hi")) Sent; Send 32 (Text (lit "hi")) Forbidden]
  /\ option_map total_sent (snd out) = Some 3
  /\ option_map total_failed (snd out) = Some 3
  /\ option_map (fun st => results_get (results st) 2) (snd out)
     = Some (Some (lit "‚ùå Server not found or bot not in server")).
Proof. vm_compute. repeat split. Qed.

(** The report of that call, as the followup carries it: the line of
    the id 2 says that the server was not found, between the lines of
    the two servers that were sent to. *)
Example multisend_report_of_a_missing_server :
  report (fst (multi_send ex_multi_world ex_to_int (lit "1,2,3") (lit "hi")
                 false 2 0))
  = (63743%N :: lit "üìä **Multi-Server Send Results:**") ++ [10%N]
    ++ lit "Total sent: 3 | Total failed: 3" ++ [10%N; 10%N]
    ++ lit "`1` - ‚úÖ Alpha: 2/2 sent" ++ [10%N]
    ++ lit "`2` - ‚ùå Server not found or bot not in server" ++ [10%N]
    ++ lit "`3` - ‚ö†Ô∏è Gamma: 1/2 sent, 1 failed" ++ [10%N]
    ++ [10%N] ++ lit "‚ö° Ultra-fast mode used".
Proof. vm_compute. reflexivity. Qed.

(** ** Further properties *)

Lemma registered_owner_commands_reject_others_witness :
  dispatch 1 (mkInteraction 2 (lit "broadcast")) = [restricted_response]
  /\ filter is_invoke (dispatch 1 (mkInteraction 2 (lit "broadcast"))) = [].
Proof.
  assert (N : 2 <> 1) by lia.
  exact (registered_owner_commands_reject_others 1
           (mkInteraction 2 (lit "broadcast"))
           (or_intror (or_intror (or_introl eq_refl))) N).
Defined.

(** Data without incidents: the first field of the notification is the
    placeholder, not an empty list. *)
Lemma no_incidents_placeholder (now : Z) (service_name : pystr)
    (data : ServiceData) (embed : Embed) :
  create_status_embed now service_name data = Ok embed ->
  sd_incidents data = [] ->
  hd_error (e_fields embed)
  = Some (mkField (lit "Incidents") (lit "No current incidents") false).
Proof.
  intros H E. unfold create_status_embed in H.
  apply bind_ok in H as (status & _ & H).
  apply bind_ok in H as (descr & _ & H).
  apply bind_ok in H as (ind & _ & H).
  apply bind_ok in H as (f1 & F1 & H).
  apply bind_ok in H as (f2 & _ & H).
  injection H as <-. cbn [e_fields hd_error].
  unfold incidents_field in F1. rewrite E in F1. cbn [firstn] in F1.
  congruence.
Qed.

Lemma no_incidents_placeholder_witness :
  exists embed,
    create_status_embed 0 (lit "vercel") (mkData ex_body [] []) = Ok embed
    /\ hd_error (e_fields embed)
       = Some (mkField (lit "Incidents") (lit "No current incidents") false).
Proof.
  assert (E : exists embed,
             create_status_embed 0 (lit "vercel") (mkData ex_body [] [])
             = Ok embed)
    by (vm_compute; eexists; reflexivity).
  destruct E as [embed E]. exists embed. split; [exact E|].
  exact (no_incidents_placeholder 0 (lit "vercel") (mkData ex_body [] [])
           embed E eq_refl).
Defined.

(** ** More on the tick *)

Lemma process_config_without_data (w : Pass) (config : Row) (db : Store) :
  fetched w config = None ->
  process_config w config db
  = (db, [EvFetch (guild_id config) (service config)
            (fst (get_service_data (http_get w) (service config)))], None).
Proof.
  unfold fetched, process_config.
  destruct (get_service_data (http_get w) (service config)) as [rq fd].
  simpl. intros ->. reflexivity.
Qed.

Lemma process_config_without_incidents (w : Pass) (config : Row) (db : Store)
    (data : ServiceData) :
  fetched w config = Some data ->
  newest_id data = None ->
  process_config w config db
  = (db, [EvFetch (guild_id config) (service config)
            (fst (get_service_data (http_get w) (service config)))], None).
Proof.
  unfold fetched, process_config, newest_id.
  destruct (get_service_data (http_get w) (service config)) as [rq fd].
  simpl. intros -> N. destruct (sd_incidents data); [reflexivity | discriminate].
Qed.

Lemma process_config_render_error (w : Pass) (config : Row) (db : Store)
    (data : ServiceData) (id : option pystr) (e : exn) :
  fetched w config = Some data ->
  newest_id data = Some id ->
  id <> last_incident_id config ->
  create_status_embed (now w) (service config) data = Raise e ->
  process_config w config db
  = (db, [EvFetch (guild_id config) (service config)
            (fst (get_service_data (http_get w) (service config)))], Some e).
Proof.
  unfold fetched, process_config, newest_id.
  destruct (get_service_data (http_get w) (service config)) as [rq fd].
  simpl. intros -> N D C.
  destruct (sd_incidents data) as [|latest rest]; [discriminate|].
  injection N as <-. apply opt_pystr_eqb_false_iff in D. rewrite D, C.
  reflexivity.
Qed.

(** The events of a pass: a fetch, then at most a POST, then an update
    exactly when the POST is answered with 204. *)
Lemma pass_event_counts (w : Pass) (config : Row) (db : Store) :
  let ev := tick_events (process_config w config db) in
  count is_fetch ev = 1%nat
  /\ (count is_post ev <= 1)%nat
  /\ count is_update ev = count is_accepted ev.
Proof.
  cbv zeta. unfold process_config.
  destruct (get_service_data (http_get w) (service config)) as [rq [data|]];
    [|repeat split; unfold count; simpl; lia].
  destruct (sd_incidents data) as [|latest rest];
    [repeat split; unfold count; simpl; lia|].
  destruct (opt_pystr_eqb (inc_id latest) (last_incident_id config));
    [repeat split; unfold count; simpl; lia|].
  destruct (create_status_embed (now w) (service config) data) as [embed|e];
    [|repeat split; unfold count; simpl; lia].
  destruct (http_post w (webhook_url config) (webhook_payload embed config))
    as [|st] eqn:P; [repeat split; unfold count; simpl; lia|].
  destruct (st =? 204) eqn:S; unfold count, tick_events; simpl; rewrite ?S;
    repeat split; simpl; lia.
Qed.

Lemma run_configs_counts (w : nat -> Pass) (configs : list Row) :
  forall i db,
    let out := run_configs w i configs db in
    let ev := tick_events out in
    (count is_fetch ev <= List.length configs)%nat
    /\ (tick_error out = None -> count is_fetch ev = List.length configs)
    /\ (count is_post ev <= count is_fetch ev)%nat
    /\ count is_update ev = count is_accepted ev.
Proof.
  induction configs as [|c rest IH]; intros i db.
  - cbv zeta. simpl. unfold count. simpl. repeat split; lia.
  - cbv zeta. rewrite run_configs_step.
    pose proof (pass_event_counts (w i) c db) as P. cbv zeta in P.
    destruct P as (P1 & P2 & P3).
    destruct (tick_error (process_config (w i) c db)) eqn:E.
    + rewrite E, P1, P3. cbn [List.length]. repeat split; try lia. discriminate.
    + triple.
      specialize (IH (S i) (tick_store (process_config (w i) c db))).
      cbv zeta in IH. destruct IH as (I1 & I2 & I3 & I4).
      rewrite !count_app, P1, P3, I4. cbn [List.length].
      repeat split; try lia. intros Q. rewrite (I2 Q). reflexivity.
Qed.

(** In every tick the marker updates are as many as the POSTs answered
    with 204, there are no more POSTs than fetches and no more fetches
    than enabled rows; a tick that runs to its end has fetched once for
    every enabled row. *)
Theorem tick_fetches_posts_and_updates (w : nat -> Pass) (db : Store) :
  let out := check_and_post_incidents w db in
  let ev := tick_events out in
  count is_update ev = count is_accepted ev
  /\ (count is_accepted ev <= count is_post ev)%nat
  /\ (count is_post ev <= count is_fetch ev)%nat
  /\ (count is_fetch ev <= active_webhooks db)%nat
  /\ (tick_error out = None -> count is_fetch ev = active_webhooks db).
Proof.
  cbv zeta. unfold check_and_post_incidents, active_webhooks.
  pose proof (run_configs_counts w (select_enabled db) 0 db) as R.
  cbv zeta in R. destruct R as (R1 & R2 & R3 & R4).
  split; [exact R4|]. split; [|split; [exact R3 | split; [exact R1 | exact R2]]].
  unfold count. generalize (tick_events (run_configs w 0 (select_enabled db) db)).
  induction l as [|e l IH]; simpl; [lia|].
  destruct e as [| ? ? ? ? [|st] |]; simpl; try lia.
  destruct (st =? 204); simpl; lia.
Qed.

(** The shape of the table after a tick: as many rows, and in every row
    all the columns but the marker as they were. *)
Theorem tick_changes_markers_only (w : nat -> Pass) (db : Store) :
  let db' := tick_store (check_and_post_incidents w db) in
  List.length db' = List.length db
  /\ forall i r',
       nth_error db' i = Some r' ->
       exists r,
         nth_error db i = Some r
         /\ guild_id r' = guild_id r
         /\ channel_id r' = channel_id r
         /\ webhook_url r' = webhook_url r
         /\ service r' = service r
         /\ ping_role_id r' = ping_role_id r
         /\ enabled r' = enabled r.
Proof.
  cbv zeta. unfold check_and_post_incidents.
  pose proof (run_configs_keeps_shape w (select_enabled db) 0 db) as S.
  set (db' := tick_store (run_configs w 0 (select_enabled db) db)) in *.
  split.
  - apply (f_equal (@List.length Row)) in S. now rewrite !length_map in S.
  - intros i r' H.
    assert (M : nth_error (map (set_last_incident_id None) db) i
                = Some (set_last_incident_id None r'))
      by (rewrite <- S, nth_error_map, H; reflexivity).
    rewrite nth_error_map in M.
    destruct (nth_error db i) as [r|]; [|discriminate].
    cbn [option_map] in M.
    assert (M' : set_last_incident_id None r = set_last_incident_id None r')
      by congruence.
    exists r. split; [reflexivity|].
    repeat split;
      [ change (guild_id (set_last_incident_id None r')
                = guild_id (set_last_incident_id None r))
      | change (channel_id (set_last_incident_id None r')
                = channel_id (set_last_incident_id None r))
      | change (webhook_url (set_last_incident_id None r')
                = webhook_url (set_last_incident_id None r))
      | change (service (set_last_incident_id None r')
                = service (set_last_incident_id None r))
      | change (ping_role_id (set_last_incident_id None r')
                = ping_role_id (set_last_incident_id None r))
      | change (enabled (set_last_incident_id None r')
                = enabled (set_last_incident_id None r)) ];
      now rewrite M'.
Qed.

(** A fetch that fails, or that gives no incident, does nothing for the
    row: in the tick no POST and no update is made for an enabled row
    whose fetch gives [None] or data with an empty incident list, and the
    row stays as it was. *)
Theorem tick_skips_row_without_incident (w : nat -> Pass) (db : Store)
    (i : nat) (config : Row) :
  pk_unique db ->
  nth_error (select_enabled db) i = Some config ->
  fetched (w i) config = None
  \/ (exists data, fetched (w i) config = Some data /\ sd_incidents data = []) ->
  let out := check_and_post_incidents w db in
  let mine := events_of (guild_id config) (service config) (tick_events out) in
  count is_post mine = 0%nat
  /\ count is_update mine = 0%nat
  /\ lookup (guild_id config) (service config) (tick_store out) = Some config.
Proof.
  intros U H F. cbv zeta.
  destruct (tick_at w db i config U H) as [(E & L & X) | (dbk & Lk & E & L & X)].
  - rewrite E, L. repeat split.
  - rewrite E, L.
    assert (P : process_config (w i) config dbk
                = (dbk, [EvFetch (guild_id config) (service config)
                           (fst (get_service_data (http_get (w i))
                                   (service config)))], None)).
    { destruct F as [F | (data & F & N)].
      - now apply process_config_without_data.
      - apply (process_config_without_incidents _ _ _ data F).
        unfold newest_id. now rewrite N. }
    rewrite P. triple. repeat split. exact Lk.
Qed.

Lemma tick_skips_row_without_incident_witness :
  let w := fun _ : nat =>
    mkPass (fun _ => GetRaises) 0 (fun _ _ => PostStatus 204) in
  let out := check_and_post_incidents w [ex_row 1 1 (Some (lit "inc-41"))] in
  count is_post (events_of 1 (lit "vercel") (tick_events out)) = 0%nat
  /\ count is_update (events_of 1 (lit "vercel") (tick_events out)) = 0%nat
  /\ lookup 1 (lit "vercel") (tick_store out)
     = Some (ex_row 1 1 (Some (lit "inc-41"))).
Proof.
  exact (tick_skips_row_without_incident
           (fun _ : nat => mkPass (fun _ => GetRaises) 0 (fun _ _ => PostStatus 204))
           [ex_row 1 1 (Some (lit "inc-41"))] 0
           (ex_row 1 1 (Some (lit "inc-41")))
           (pk_unique_one _) eq_refl (or_introl eq_refl)).
Defined.

(** When the pass of the row at position [i] raises, whatever the table
    then holds, the loop ends in an exception and nothing is done for
    the rows after it. *)
Lemma run_configs_stops (w : nat -> Pass) (configs : list Row) :
  forall i0 db i c,
    NoDup (map row_key configs) ->
    nth_error configs i = Some c ->
    (forall dbx, tick_error (process_config (w (i0 + i)%nat) c dbx) <> None) ->
    let out := run_configs w i0 configs db in
    tick_error out <> None
    /\ forall k later,
         (i < k)%nat ->
         nth_error configs k = Some later ->
         events_of (guild_id later) (service later) (tick_events out) = []
         /\ lookup (guild_id later) (service later) (tick_store out)
            = lookup (guild_id later) (service later) db.
Proof.
  induction configs as [|c0 rest IH]; intros i0 db i c U H A.
  - destruct i; discriminate.
  - cbv zeta. rewrite run_configs_step.
    simpl in U. inversion U as [|? ? N U']; subst.
    assert (Later : forall k later,
               nth_error rest k = Some later ->
               events_of (guild_id later) (service later)
                 (tick_events (process_config (w i0) c0 db)) = []
               /\ lookup (guild_id later) (service later)
                    (tick_store (process_config (w i0) c0 db))
                  = lookup (guild_id later) (service later) db).
    { intros k later K.
      assert (D : row_key c0 <> (guild_id later, service later)).
      { intros Q. apply N. rewrite Q.
        change (guild_id later, service later) with (row_key later).
        apply in_map. eapply nth_error_In; eauto. }
      split.
      - exact (events_of_none _ _ _ _ _ D (pass_events_own (w i0) c0 db)).
      - now apply pass_lookup_other. }
    destruct (tick_error (process_config (w i0) c0 db)) eqn:E.
    + split; [congruence|].
      intros k later Hk K. destruct k as [|k]; [lia|]. simpl in K.
      exact (Later k later K).
    + destruct i as [|i]; simpl in H.
      * injection H as ->. exfalso. apply (A db).
        now rewrite Nat.add_0_r.
      * triple.
        assert (A' : forall dbx,
                   tick_error (process_config (w (S i0 + i)%nat) c dbx) <> None).
        { intros dbx. replace (S i0 + i)%nat with (i0 + S i)%nat by lia.
          apply A. }
        destruct (IH (S i0) (tick_store (process_config (w i0) c0 db)) i c
                    U' H A') as [I1 I2].
        split; [exact I1|].
        intros k later Hk K. destruct k as [|k]; [lia|]. simpl in K.
        destruct (I2 k later ltac:(lia) K) as [J1 J2].
        destruct (Later k later K) as [L1 L2].
        split.
        -- now rewrite events_of_app, L1, J1.
        -- now rewrite J2, L2.
Qed.

(** [create_status_embed] is called outside any [try]: when it raises
    for an enabled row with a new incident, the tick ends in an
    exception, no POST or update is made for that row, and the enabled
    rows after it get no fetch, no POST and no update in this tick. *)
Theorem render_error_ends_the_tick (w : nat -> Pass) (db : Store) (i : nat)
    (config : Row) (data : ServiceData) (id : option pystr) (e : exn) :
  pk_unique db ->
  nth_error (select_enabled db) i = Some config ->
  fetched (w i) config = Some data ->
  newest_id data = Some id ->
  id <> last_incident_id config ->
  create_status_embed (now (w i)) (service config) data = Raise e ->
  let out := check_and_post_incidents w db in
  tick_error out <> None
  /\ count is_post (events_of (guild_id config) (service config)
                      (tick_events out)) = 0%nat
  /\ lookup (guild_id config) (service config) (tick_store out) = Some config
  /\ forall k later,
       (i < k)%nat ->
       nth_error (select_enabled db) k = Some later ->
       events_of (guild_id later) (service later) (tick_events out) = []
       /\ lookup (guild_id later) (service later) (tick_store out) = Some later.
Proof.
  intros U H F N D C. cbv zeta.
  assert (P : forall dbx,
             process_config (w i) config dbx
             = (dbx, [EvFetch (guild_id config) (service config)
                        (fst (get_service_data (http_get (w i))
                                (service config)))], Some e))
    by (intros dbx; now apply (process_config_render_error _ _ _ data id)).
  assert (A : forall dbx,
             tick_error (process_config (w (0 + i)%nat) config dbx) <> None)
    by (intros dbx; simpl; rewrite P; discriminate).
  destruct (run_configs_stops w (select_enabled db) 0 db i config
              (select_enabled_unique db U) H A) as [S1 S2].
  fold (check_and_post_incidents w db) in S1, S2.
  split; [exact S1|].
  destruct (tick_at w db i config U H) as [(E & L & X) | (dbk & Lk & E & L & X)].
  - rewrite E, L. split; [reflexivity|]. split; [reflexivity|].
    intros k later Hk K. destruct (S2 k later Hk K) as [J1 J2].
    split; [exact J1|]. rewrite J2. apply lookup_unique; [exact U|].
    apply nth_error_In in K. now apply select_enabled_in in K.
  - rewrite E, L, P. triple. split; [reflexivity|]. split; [exact Lk|].
    intros k later Hk K. destruct (S2 k later Hk K) as [J1 J2].
    split; [exact J1|]. rewrite J2. apply lookup_unique; [exact U|].
    apply nth_error_In in K. now apply select_enabled_in in K.
Qed.

Lemma ex_two_rows_unique : pk_unique ex_two_rows.
Proof.
  unfold pk_unique, ex_two_rows. simpl. constructor.
  - intros [Q | []]. discriminate Q.
  - constructor; [intros [] | constructor].
Defined.

Lemma render_error_ends_the_tick_witness :
  let out := check_and_post_incidents (fun _ => ex_odd_status_pass) ex_two_rows in
  tick_error out = Some TypeError
  /\ events_of 2 (lit "vercel") (tick_events out) = []
  /\ tick_store out = ex_two_rows.
Proof.
  assert (F : fetched ex_odd_status_pass (ex_row 1 1 (Some (lit "inc-41")))
              = Some ex_odd_status_data) by (vm_compute; reflexivity).
  assert (D : Some (lit "inc-42") <> Some (lit "inc-41"))
    by (intros Q; vm_compute in Q; discriminate Q).
  assert (C : create_status_embed (now ex_odd_status_pass)
                (service (ex_row 1 1 (Some (lit "inc-41")))) ex_odd_status_data
              = Raise TypeError) by (vm_compute; reflexivity).
  generalize (render_error_ends_the_tick (fun _ => ex_odd_status_pass)
                ex_two_rows 0 (ex_row 1 1 (Some (lit "inc-41")))
                ex_odd_status_data (Some (lit "inc-42")) TypeError
                ex_two_rows_unique eq_refl F eq_refl D C).
  cbv zeta. intros (_ & _ & _ & L).
  destruct (L 1%nat (ex_row 2 1 None) (Nat.lt_0_succ 0) eq_refl) as [L1 _].
  split; [vm_compute; reflexivity|]. split; [exact L1|].
  vm_compute. reflexivity.
Defined.

(** ** More on the subscription commands *)

Lemma tick_row_origin (w : nat -> Pass) (db : Store) (r' : Row) :
  In r' (tick_store (check_and_post_incidents w db)) ->
  exists r, In r db /\ set_last_incident_id None r = set_last_incident_id None r'.
Proof.
  unfold check_and_post_incidents. intros I.
  pose proof (run_configs_keeps_shape w (select_enabled db) 0 db) as S.
  apply (in_map (set_last_incident_id None)) in I. rewrite S in I.
  apply in_map_iff in I as (r & E & I). eauto.
Qed.

(** The [enabled] column holds 0 or 1 in every table the program can
    produce: rows are inserted with 1, toggled between 1 and 0, and left
    alone by the poller. *)
Theorem reachable_enabled_is_0_or_1 (db : Store) :
  reachable db -> forall r, In r db -> enabled r = 0 \/ enabled r = 1.
Proof.
  induction 1 as [| db create perm guild channel svc ping_role R IH
                  | db perm guild svc R IH
                  | db perm guild svc R IH
                  | db w R IH]; intros r I.
  - destruct I.
  - unfold setup_webhook in I. destruct perm; simpl in I; [|now apply IH].
    destruct create; simpl in I; try now apply IH.
    unfold insert_or_replace in I. apply in_app_iff in I as [I | [<- | []]].
    + apply filter_In in I as [I _]. now apply IH.
    + right. reflexivity.
  - unfold remove_webhook in I. destruct perm; simpl in I; [|now apply IH].
    destruct (0 <? rowcount guild svc db)%nat; simpl in I; [|now apply IH].
    apply filter_In in I as [I _]. now apply IH.
  - unfold toggle_webhook in I. destruct perm; simpl in I; [|now apply IH].
    destruct (find (has_key guild svc) db) as [result|]; simpl in I;
      [|now apply IH].
    unfold update_enabled in I. apply in_map_iff in I as (x & E & I).
    destruct (has_key guild svc x); [|subst; now apply IH].
    subst r. simpl. destruct (enabled result =? 0); auto.
  - apply (tick_row_origin w db r) in I as (r0 & I & E).
    assert (Q : enabled r = enabled r0).
    { change (enabled (set_last_incident_id None r)
              = enabled (set_last_incident_id None r0)). now rewrite E. }
    rewrite Q. now apply IH.
Qed.

Lemma reachable_enabled_is_0_or_1_witness :
  Forall (fun r => enabled r = 0 \/ enabled r = 1)
    (fst (toggle_webhook true 1 (lit "vercel")
            (fst (setup_webhook (Created (lit "https://discord.com/api/webhooks/1/x"))
                    true 1 (mkChannel 10 (lit "<#10>") true) (lit "vercel")
                    None [])))).
Proof.
  apply Forall_forall.
  exact (reachable_enabled_is_0_or_1 _
           (reach_toggle _ true 1 (lit "vercel")
              (reach_setup [] (Created (lit "https://discord.com/api/webhooks/1/x"))
                 true 1 (mkChannel 10 (lit "<#10>") true) (lit "vercel") None
                 reach_init))).
Defined.

Lemma set_enabled_same (r : Row) : set_enabled (enabled r) r = r.
Proof. destruct r; reflexivity. Qed.

Lemma set_enabled_twice (r : Row) :
  enabled r = 0 \/ enabled r = 1 ->
  set_enabled (if (if enabled r =? 0 then 1 else 0) =? 0 then 1 else 0)
    (set_enabled (if enabled r =? 0 then 1 else 0) r)
  = r.
Proof.
  destruct r as [g c u s p e l]. simpl. intros [-> | ->]; reflexivity.
Qed.

Lemma key_row_unique (db : Store) (r x : Row) (g : Z) (s : pystr) :
  pk_unique db -> lookup g s db = Some r -> In x db -> has_key g s x = true ->
  x = r.
Proof.
  intros U L I K. apply has_key_true_iff in K.
  pose proof (lookup_unique db x U I) as Lx.
  unfold row_key in K. injection K as K1 K2. rewrite K1, K2 in Lx. congruence.
Qed.

(** Toggling twice gives the table back, when the table has one row per
    key and its [enabled] values are 0 or 1 (as every table the program
    produces has). *)
Theorem toggle_webhook_twice_restores (guild : Z) (svc : pystr) (db : Store) :
  pk_unique db ->
  (forall r, In r db -> enabled r = 0 \/ enabled r = 1) ->
  fst (toggle_webhook true guild svc (fst (toggle_webhook true guild svc db)))
  = db.
Proof.
  intros U B. unfold toggle_webhook at 2. cbn [negb].
  fold (lookup guild svc db).
  destruct (lookup guild svc db) as [r|] eqn:L; cbn [fst].
  - unfold toggle_webhook. cbn [negb].
    fold (lookup guild svc (update_enabled db (enabled r =? 0) guild svc)).
    rewrite lookup_update_enabled_same, L. cbn [option_map fst].
    unfold update_enabled. rewrite map_map.
    rewrite <- (map_id db) at 2. apply map_ext_in.
    intros x I. destruct (has_key guild svc x) eqn:K.
    + assert (K' : has_key guild svc
                     (set_enabled (if enabled r =? 0 then 1 else 0) x) = true)
        by exact K.
      rewrite K'. rewrite (key_row_unique db r x guild svc U L I K).
      apply lookup_in in L as [Ir _].
      apply set_enabled_twice. now apply B.
    + rewrite K. reflexivity.
  - unfold toggle_webhook. cbn [negb]. fold (lookup guild svc db).
    rewrite L. reflexivity.
Qed.

Lemma toggle_webhook_twice_restores_witness :
  fst (toggle_webhook true 1 (lit "vercel")
         (fst (toggle_webhook true 1 (lit "vercel") ex_two_rows)))
  = ex_two_rows.
Proof.
  apply (toggle_webhook_twice_restores 1 (lit "vercel") ex_two_rows
           ex_two_rows_unique).
  intros r [<- | [<- | []]]; right; reflexivity.
Defined.

Lemma rowcount_lookup (g : Z) (s : pystr) (db : Store) :
  (0 <? rowcount g s db)%nat = is_some (lookup g s db).
Proof.
  unfold rowcount, lookup. induction db as [|x db IH]; simpl; [reflexivity|].
  destruct (has_key g s x); [reflexivity | exact IH].
Qed.

Lemma delete_row_absent (g : Z) (s : pystr) (db : Store) :
  lookup g s db = None -> delete_row g s db = db.
Proof.
  unfold lookup, delete_row. induction db as [|x db IH]; simpl; [reflexivity|].
  destruct (has_key g s x); [discriminate|]. simpl. intros H. now rewrite IH.
Qed.

(** [remove_webhook], for a caller who may manage webhooks: afterwards
    the key has no row, the rows of the table are exactly the former rows
    of other keys, and the answer says "Removed" exactly when there was a
    row; with no row the table is left as it was and the answer is the
    not-found message. *)
Theorem remove_webhook_removes_the_key_only (guild : Z) (svc : pystr)
    (db : Store) :
  let out := remove_webhook true guild svc db in
  lookup guild svc (fst out) = None
  /\ fst out = filter (fun r => negb (has_key guild svc r)) db
  /\ (forall r, In r (fst out) <-> In r db /\ row_key r <> (guild, svc))
  /\ (forall g s, (g, s) <> (guild, svc) ->
                  lookup g s (fst out) = lookup g s db)
  /\ (lookup guild svc db = None ->
      fst out = db
      /\ In (Respond (Text (lit "‚ùå No webhook found for " ++ capitalize svc))
               false) (snd out))
  /\ (lookup guild svc db <> None ->
      In (Respond (Text (lit "‚úÖ Removed auto-posting for " ++ capitalize svc))
            false) (snd out)).
Proof.
  cbv zeta.
  assert (E : fst (remove_webhook true guild svc db)
              = filter (fun r => negb (has_key guild svc r)) db).
  { unfold remove_webhook. cbn [negb]. rewrite rowcount_lookup.
    destruct (lookup guild svc db) eqn:L; cbn [is_some fst]; [reflexivity|].
    symmetry. now apply delete_row_absent. }
  rewrite E. split.
  { apply lookup_none. intros H. apply in_map_iff in H as (y & Ky & Hy).
    apply filter_In in Hy as [_ Hy]. apply negb_true_iff in Hy.
    apply has_key_false_iff in Hy. now apply Hy. }
  split; [reflexivity|]. split.
  { intros r. rewrite filter_In, negb_true_iff, has_key_false_iff. tauto. }
  split.
  { intros g s D. apply lookup_filter_other. congruence. }
  unfold remove_webhook. cbn [negb]. rewrite rowcount_lookup.
  split; intros L.
  - rewrite L. cbn [is_some snd]. split; [now apply delete_row_absent|].
    right. left. reflexivity.
  - destruct (lookup guild svc db); [|congruence]. cbn [is_some snd].
    right. left. reflexivity.
Qed.

(** Setting up a key that has no row and removing it again gives the
    table back; and setting up after a removal is setting up. *)
Theorem setup_then_remove_round_trip (url : pystr) (guild : Z)
    (channel : Channel) (svc : pystr) (ping_role : option Role) (db : Store) :
  fst (setup_webhook (Created url) true guild channel svc ping_role
         (fst (remove_webhook true guild svc db)))
  = fst (setup_webhook (Created url) true guild channel svc ping_role db)
  /\ (lookup guild svc db = None ->
      fst (remove_webhook true guild svc
             (fst (setup_webhook (Created url) true guild channel svc ping_role
                     db)))
      = db).
Proof.
  assert (R : forall d, fst (remove_webhook true guild svc d)
                        = filter (fun r => negb (has_key guild svc r)) d).
  { intros d. unfold remove_webhook. cbn [negb]. rewrite rowcount_lookup.
    destruct (lookup guild svc d) eqn:L; cbn [is_some fst]; [reflexivity|].
    symmetry. now apply delete_row_absent. }
  assert (S : forall d,
             fst (setup_webhook (Created url) true guild channel svc ping_role d)
             = filter (fun r => negb (has_key guild svc r)) d
               ++ [mkRow guild (ch_id channel) url svc
                     (match ping_role with
                      | Some role => Some (role_id role)
                      | None => None
                      end) 1 None]) by reflexivity.
  split.
  - rewrite !S, R. f_equal.
    induction db as [|x db IH]; simpl; [reflexivity|].
    destruct (has_key guild svc x) eqn:K; simpl; [exact IH|].
    rewrite K. simpl. now rewrite IH.
  - intros L. rewrite R, S, filter_app.
    assert (K : has_key guild svc
                  (mkRow guild (ch_id channel) url svc
                     (match ping_role with
                      | Some role => Some (role_id role)
                      | None => None
                      end) 1 None) = true)
      by (apply has_key_true_iff; reflexivity).
    cbn [filter]. rewrite K. cbn [negb]. rewrite app_nil_r.
    change (filter (fun r => negb (has_key guild svc r)) db)
      with (delete_row guild svc db).
    rewrite (delete_row_absent _ _ _ L).
    change (filter (fun r => negb (has_key guild svc r)) db)
      with (delete_row guild svc db).
    now apply delete_row_absent.
Qed.

(** ** More on the renderer *)

Lemma incidents_loop_ok (incidents : list Incident) :
  forall acc,
    (exists text, incidents_loop incidents acc = Ok text)
    <-> forallb (fun incident =>
                   match incident_updates incident with
                   | Some [] => false
                   | _ => true
                   end) incidents = true.
Proof.
  induction incidents as [|x l IH]; intros acc; cbn [incidents_loop forallb].
  - split; [reflexivity | eauto].
  - unfold incident_entry, latest_update, get_default.
    destruct (incident_updates x) as [[|u us]|]; cbn [bind andb].
    + split; [intros [t H]; discriminate | discriminate].
    + apply IH.
    + apply IH.
Qed.

Lemma components_loop_ok (comps : list Component) :
  forall acc,
    (exists text, components_loop comps acc = Ok text)
    <-> forallb (fun c => is_some (comp_name c) && is_some (comp_status c))
          comps = true.
Proof.
  induction comps as [|x l IH]; intros acc; cbn [components_loop forallb].
  - split; [reflexivity | eauto].
  - unfold component_line, subscript.
    destruct (comp_name x) as [n|]; cbn [bind is_some andb];
      [|split; [intros [t H]; discriminate | discriminate]].
    destruct (comp_status x) as [s|]; cbn [bind is_some andb];
      [|split; [intros [t H]; discriminate | discriminate]].
    apply IH.
Qed.

Lemma incidents_field_ok (data : ServiceData) :
  (exists f, incidents_field data = Ok f)
  <-> forallb (fun incident =>
                 match incident_updates incident with
                 | Some [] => false
                 | _ => true
                 end) (firstn 3 (sd_incidents data)) = true.
Proof.
  unfold incidents_field.
  destruct (firstn 3 (sd_incidents data)) as [|x xs].
  - split; [reflexivity | eauto].
  - rewrite <- (incidents_loop_ok (x :: xs) []). split.
    + intros [f H]. apply bind_ok in H as (t & T & _). eauto.
    + intros [t T]. rewrite T. cbn [bind]. eauto.
Qed.

Lemma components_field_ok (data : ServiceData) :
  (exists f, components_field data = Ok f)
  <-> forallb (fun c => is_some (comp_name c) && is_some (comp_status c))
        (firstn 5 (filter not_operational (sd_components data))) = true.
Proof.
  unfold components_field.
  change (filter (fun c => negb (opt_pystr_eqb (comp_status c)
                                   (Some (lit "operational"))))
            (sd_components data))
    with (filter not_operational (sd_components data)).
  destruct (filter not_operational (sd_components data)) as [|x xs].
  - split; [reflexivity | eauto].
  - rewrite <- (components_loop_ok (firstn 5 (x :: xs)) []). split.
    + intros [f H]. apply bind_ok in H as (t & T & _). eauto.
    + intros [t T]. rewrite T. cbn [bind]. eauto.
Qed.

Lemma create_status_embed_ok (now : Z) (service_name : pystr)
    (data : ServiceData) :
  (exists embed, create_status_embed now service_name data = Ok embed)
  <-> renderable data = true.
Proof.
  unfold create_status_embed, renderable, status_of, subscript.
  destruct (sd_status data) as [o|]; cbn [bind andb];
    [|split; [intros [t H]; discriminate | discriminate]].
  destruct (j_status o) as [st|]; cbn [bind andb];
    [|split; [intros [t H]; discriminate | discriminate]].
  destruct (description st) as [d|]; cbn [bind is_some andb];
    [|split; [intros [t H]; discriminate | discriminate]].
  destruct (indicator st) as [ind|]; cbn [bind is_some andb];
    [|split; [intros [t H]; discriminate | discriminate]].
  rewrite andb_true_iff, <- incidents_field_ok, <- components_field_ok.
  split.
  - intros [embed H].
    apply bind_ok in H as (f1 & F1 & H). apply bind_ok in H as (f2 & F2 & _).
    eauto.
  - intros [[f1 F1] [f2 F2]]. rewrite F1, F2. cbn [bind]. eauto.
Qed.

(** [create_status_embed] returns a notification exactly for the data
    that are [renderable]: the status body is an object whose ['status']
    has a description and an indicator, none of the first three
    incidents has an empty list of updates, and each of the first five
    components that are not operational has a name and a status.  For
    all other data it raises. *)
Theorem render_succeeds_iff_renderable (now : Z) (service_name : pystr)
    (data : ServiceData) :
  ((exists embed, create_status_embed now service_name data = Ok embed)
   <-> renderable data = true)
  /\ ((exists e, create_status_embed now service_name data = Raise e)
      <-> renderable data = false).
Proof.
  pose proof (create_status_embed_ok now service_name data) as R.
  split; [exact R|].
  destruct (create_status_embed now service_name data) as [embed|e].
  - assert (T : renderable data = true) by (apply R; eauto).
    rewrite T. split; [intros [e H]; discriminate | discriminate].
  - destruct (renderable data).
    + destruct (proj2 R eq_refl) as [embed H]. discriminate.
    + split; eauto.
Qed.

(** A status body that is JSON and no object, an incident among the
    first three with an empty list of updates, a component that is not
    operational and has no name: each makes the renderer raise; a fourth
    incident with an empty list of updates does not. *)
Example render_raises_or_not :
  create_status_embed 0 (lit "vercel") ex_odd_status_data = Raise TypeError
  /\ create_status_embed 0 (lit "vercel")
       (mkData ex_body [mkIncident None None None (Some [])] [])
     = Raise IndexError
  /\ create_status_embed 0 (lit "vercel")
       (mkData ex_body [] [mkComponent None (Some (lit "degraded"))])
     = Raise (KeyError (lit "name"))
  /\ renderable
       (mkData ex_body
          [ex_incident; ex_incident; ex_incident;
           mkIncident None None None (Some [])] [])
     = true.
Proof. vm_compute. repeat split. Qed.

Lemma components_loop_lines (comps : list Component) :
  forall acc text,
    components_loop comps acc = Ok text ->
    exists lines,
      Forall2 (fun c line =>
                 exists name status,
                   comp_name c = Some name /\ comp_status c = Some status
                   /\ line = bullet ++ lit " " ++ name ++ lit ": " ++ status
                             ++ nl)
        comps lines
      /\ text = acc ++ List.concat lines.
Proof.
  induction comps as [|x l IH]; simpl; intros acc text H.
  - exists []. split; [constructor|]. injection H as <-. simpl.
    now rewrite app_nil_r.
  - apply bind_ok in H as (line & E & H).
    apply IH in H as (lines & F & ->).
    exists (line :: lines). split; [|simpl; now rewrite app_assoc].
    constructor; [|exact F].
    unfold component_line in E.
    apply bind_ok in E as (name & N & E). apply bind_ok in E as (st & S & E).
    unfold subscript in N, S.
    destruct (comp_name x) as [n|]; [|discriminate].
    destruct (comp_status x) as [s|]; [|discriminate].
    cbv beta iota in N, S, E.
    exists name, st. split; [congruence|]. split; [congruence|]. injection E as <-. reflexivity.
Qed.

(** The second field of a notification.  When no component of the data
    has a status other than "operational" it is the placeholder
    "Components: All systems operational".  Otherwise it is "Affected
    Components", and its text is one line per component for the first
    five components that are not operational, in the order of the data:
    an operational component is never listed, nor is a sixth affected
    one. *)
Theorem affected_components_are_the_first_five (now : Z)
    (service_name : pystr) (data : ServiceData) (embed : Embed) :
  create_status_embed now service_name data = Ok embed ->
  exists f1 f2,
    e_fields embed = [f1; f2]
    /\ (filter not_operational (sd_components data) = [] ->
        f2 = mkField (lit "Components") (lit "All systems operational") false)
    /\ (filter not_operational (sd_components data) <> [] ->
        exists lines,
          f2 = mkField (lit "Affected Components") (List.concat lines) false
          /\ (List.length lines
              = Nat.min 5 (List.length (filter not_operational
                                          (sd_components data))))
          /\ Forall2 (fun c line =>
                        exists name status,
                          comp_name c = Some name
                          /\ comp_status c = Some status
                          /\ line = bullet ++ lit " " ++ name ++ lit ": "
                                    ++ status ++ nl)
               (firstn 5 (filter not_operational (sd_components data)))
               lines).
Proof.
  intros H. unfold create_status_embed in H.
  apply bind_ok in H as (status & _ & H).
  apply bind_ok in H as (descr & _ & H).
  apply bind_ok in H as (ind & _ & H).
  apply bind_ok in H as (f1 & _ & H).
  apply bind_ok in H as (f2 & F2 & H).
  injection H as <-. cbn [e_fields]. exists f1, f2.
  split; [reflexivity|].
  unfold components_field in F2.
  change (filter (fun c => negb (opt_pystr_eqb (comp_status c)
                                   (Some (lit "operational"))))
            (sd_components data))
    with (filter not_operational (sd_components data)) in F2.
  destruct (filter not_operational (sd_components data)) as [|x xs].
  - split; [intros _; congruence | intros N; now elim N].
  - split; [discriminate|]. intros _.
    apply bind_ok in F2 as (text & T & F2).
    apply components_loop_lines in T as (lines & F & ->).
    exists lines. split; [simpl in F2; congruence|]. split; [|exact F].
    apply Forall2_length in F. rewrite <- F. apply length_firstn.
Qed.

Lemma affected_components_are_the_first_five_witness :
  exists embed,
    create_status_embed 0 (lit "vercel") ex_components = Ok embed
    /\ exists f1 f2,
         e_fields embed = [f1; f2]
         /\ (filter not_operational (sd_components ex_components) = [] ->
             f2 = mkField (lit "Components") (lit "All systems operational")
                    false)
         /\ (filter not_operational (sd_components ex_components) <> [] ->
             exists lines,
               f2 = mkField (lit "Affected Components") (List.concat lines)
                      false
               /\ (List.length lines
                   = Nat.min 5 (List.length (filter not_operational
                                               (sd_components ex_components))))
               /\ Forall2 (fun c line =>
                             exists name status,
                               comp_name c = Some name
                               /\ comp_status c = Some status
                               /\ line = bullet ++ lit " " ++ name ++ lit ": "
                                         ++ status ++ nl)
                    (firstn 5 (filter not_operational
                                 (sd_components ex_components)))
                    lines).
Proof.
  assert (E : exists embed,
             create_status_embed 0 (lit "vercel") ex_components = Ok embed)
    by (vm_compute; eexists; reflexivity).
  destruct E as [embed E]. exists embed. split; [exact E|].
  exact (affected_components_are_the_first_five 0 (lit "vercel")
           ex_components embed E).
Defined.

(** Of seven components, one operational, five lines are shown: the
    operational one and the sixth affected one are not. *)
Example affected_components_of_seven :
  option_map f_value
    (match create_status_embed 0 (lit "vercel") ex_components with
     | Ok embed => nth_error (e_fields embed) 1
     | Raise _ => None
     end)
  = Some (bullet ++ lit " api: degraded_performance" ++ nl
          ++ bullet ++ lit " cdn: partial_outage" ++ nl
          ++ bullet ++ lit " builds: major_outage" ++ nl
          ++ bullet ++ lit " edge: degraded_performance" ++ nl
          ++ bullet ++ lit " logs: under_maintenance" ++ nl).
Proof. vm_compute. reflexivity. Qed.

(** ** Counting the sends of the bulk commands *)

Lemma tally_nil (p : Action -> bool) : tally p [] = 0.
Proof. reflexivity. Qed.

Lemma tally_cons (p : Action -> bool) (a : Action) (l : list Action) :
  tally p (a :: l) = (if p a then 1 else 0) + tally p l.
Proof.
  unfold tally. cbn [filter]. destruct (p a); cbn [List.length]; lia.
Qed.

Lemma tally_app (p : Action -> bool) (l1 l2 : list Action) :
  tally p (l1 ++ l2) = tally p l1 + tally p l2.
Proof. unfold tally. rewrite filter_app, length_app. lia. Qed.

Lemma tally_nonneg (p : Action -> bool) (l : list Action) : 0 <= tally p l.
Proof. unfold tally. lia. Qed.

Lemma tally_pause (p : Action -> bool) (delay : Q) (i : nat) (count : Z) :
  (forall q, p (Sleep q) = false) -> tally p (pause delay i count) = 0.
Proof.
  intros H. unfold pause. destruct (_ && _); [|reflexivity].
  rewrite tally_cons, H. reflexivity.
Qed.

Lemma tally_rate_limit (p : Action -> bool) (status : Z) (q : Q) :
  (forall q, p (Sleep q) = false) ->
  tally p (if status =? 429 then [Sleep q] else []) = 0.
Proof.
  intros H. destruct (status =? 429); [|reflexivity].
  rewrite tally_cons, H. reflexivity.
Qed.

Lemma sent_or_failed (l : list Action) :
  tally is_sent l + tally is_failed_send l = tally is_send l.
Proof.
  induction l as [|a l IH]; [reflexivity|].
  rewrite !tally_cons. destruct a as [| | | ch c [| | |]| | | |];
    cbn [is_sent is_failed_send is_send]; lia.
Qed.

Lemma forallb_pause (delay : Q) (i : nat) (count : Z) :
  forallb send_or_sleep (pause delay i count) = true.
Proof. unfold pause. destruct (_ && _); reflexivity. Qed.

Ltac tally_step :=
  cbn [forallb];
  rewrite ?tally_cons, ?tally_app, ?forallb_app, ?forallb_pause;
  rewrite ?tally_pause, ?tally_rate_limit by reflexivity;
  cbn [is_sent is_failed_send is_send is_forbidden forallb send_or_sleep
       is_sleep orb andb].

Lemma send_message_loop_counts (send : nat -> SendOutcome) (channel : Channel)
    (message : pystr) (count : Z) (delay : Q) :
  forall remaining i s f acts s' f',
    send_message_loop send channel message count delay remaining i s f
    = (acts, s', f') ->
    s' = s + tally is_sent acts
    /\ f' = f + tally is_failed_send acts
    /\ forallb send_or_sleep acts = true
    /\ tally is_send acts <= Z.of_nat remaining
    /\ (tally is_forbidden acts = 0 -> tally is_send acts = Z.of_nat remaining).
Proof.
  induction remaining as [|r IH]; intros i s f acts s' f' H.
  - injection H as <- <- <-. rewrite !tally_nil. repeat split; lia.
  - cbn [send_message_loop] in H.
    destruct (send i) eqn:E.
    + destruct (send_message_loop send channel message count delay r (S i)
                  (s + 1) f) as [[rest s1] f1] eqn:R.
      apply IH in R as (R1 & R2 & R3 & R4 & R5).
      injection H as <- <- <-. tally_step. rewrite R3.
      pose proof (tally_nonneg is_forbidden rest).
      repeat split; lia.
    + injection H as <- <- <-. tally_step. rewrite !tally_nil.
      repeat split; lia.
    + destruct (send_message_loop send channel message count delay r (S i)
                  s (f + 1)) as [[rest s1] f1] eqn:R.
      apply IH in R as (R1 & R2 & R3 & R4 & R5).
      injection H as <- <- <-. tally_step. rewrite R3.
      pose proof (tally_nonneg is_forbidden rest).
      repeat split; try lia. now destruct (status =? 429).
    + destruct (send_message_loop send channel message count delay r (S i)
                  s (f + 1)) as [[rest s1] f1] eqn:R.
      apply IH in R as (R1 & R2 & R3 & R4 & R5).
      injection H as <- <- <-. tally_step. rewrite R3.
      pose proof (tally_nonneg is_forbidden rest).
      repeat split; lia.
Qed.

(** [send_message] with a count from 1 to 50 and a delay that is not
    negative: one deferral, then sends and sleeps only, then one report.
    The two numbers of the report are the numbers of the sends that were
    accepted and of those that failed; together they are the sends
    made, at most [count], and exactly [count] when no send was
    answered [Forbidden]. *)
Theorem send_message_report_counts (send : nat -> SendOutcome)
    (channel : Channel) (message : pystr) (count : Z) (delay : Q) :
  1 <= count <= 50 ->
  negative delay = false ->
  exists sends,
    send_message send channel message count delay
    = Defer true :: sends
      ++ [Followup (Text (send_message_report channel count delay
                            (tally is_sent sends)
                            (tally is_failed_send sends)))]
    /\ forallb send_or_sleep sends = true
    /\ tally is_sent sends + tally is_failed_send sends = tally is_send sends
    /\ tally is_send sends <= count
    /\ (tally is_forbidden sends = 0 -> tally is_send sends = count).
Proof.
  intros C D. unfold send_message.
  destruct ((count <? 1) || (50 <? count)) eqn:V.
  { apply orb_true_iff in V as [V | V]; apply Z.ltb_lt in V; lia. }
  rewrite D.
  destruct (send_message_loop send channel message count delay
              (Z.to_nat count) 0 0 0) as [[sends s'] f'] eqn:L.
  apply send_message_loop_counts in L as (L1 & L2 & L3 & L4 & L5).
  exists sends. rewrite Z.add_0_l in L1, L2. subst s' f'.
  split; [reflexivity|]. split; [exact L3|].
  split; [apply sent_or_failed|]. rewrite Z2Nat.id in L4, L5 by lia.
  split; assumption.
Qed.

Lemma send_message_report_counts_witness :
  exists sends,
    send_message (fun i => match i with
                           | 1%nat => HTTPException 500
                           | 3%nat => Forbidden
                           | _ => Sent
                           end)
      (mkChannel 7 (lit "<#7>") true) (lit "hi") 5 (1 # 2)
    = Defer true :: sends
      ++ [Followup (Text (send_message_report (mkChannel 7 (lit "<#7>") true)
                            5 (1 # 2)
                            (tally is_sent sends)
                            (tally is_failed_send sends)))]
    /\ forallb send_or_sleep sends = true
    /\ tally is_sent sends + tally is_failed_send sends = tally is_send sends
    /\ tally is_send sends <= 5
    /\ (tally is_forbidden sends = 0 -> tally is_send sends = 5).
Proof.
  assert (C : 1 <= 5 <= 50) by lia.
  exact (send_message_report_counts _ (mkChannel 7 (lit "<#7>") true)
           (lit "hi") 5 (1 # 2) C eq_refl).
Defined.

(** Two of the first four sends fail, the fourth with [Forbidden]: the
    fifth is never made, and the report says 2/5 sent and 2 failed. *)
Example send_message_report_of_a_refused_run :
  send_message (fun i => match i with
                         | 1%nat => HTTPException 500
                         | 3%nat => Forbidden
                         | _ => Sent
                         end)
    (mkChannel 7 (lit "<#7>") true) (lit "hi") 5 (1 # 2)
  = [Defer true;
     Send 7 (Text (lit "hi")) Sent; Sleep (1 # 2);
     Send 7 (Text (lit "hi")) (HTTPException 500);
     Send 7 (Text (lit "hi")) Sent; Sleep (1 # 2);
     Send 7 (Text (lit "hi")) Forbidden;
     Followup (Text (lit "‚úÖ Sent 2/5 messages to <#7>" ++ nl
                     ++ lit "‚ùå Failed: 2 messages"))].
Proof. vm_compute. reflexivity. Qed.

(** Between accepted sends the loop sleeps for the delay, and not after
    the last one. *)
Lemma send_message_loop_pauses (send : nat -> SendOutcome) (channel : Channel)
    (message : pystr) (count : Z) (delay : Q) :
  positive delay = true ->
  forall remaining i s f,
    Z.of_nat (i + remaining) = count ->
    (forall j, (i <= j < i + remaining)%nat -> send j = Sent) ->
    filter is_sleep
      (fst (fst (send_message_loop send channel message count delay
                   remaining i s f)))
    = repeat (Sleep delay) (remaining - 1)
    /\ filter is_send
         (fst (fst (send_message_loop send channel message count delay
                      remaining i s f)))
       = repeat (Send (ch_id channel) (Text message) Sent) remaining.
Proof.
  intros P. induction remaining as [|r IH]; intros i s f C A.
  - split; reflexivity.
  - cbn [send_message_loop]. rewrite (A i) by lia.
    specialize (IH (S i) (s + 1) f).
    destruct (send_message_loop send channel message count delay r (S i)
                (s + 1) f) as [[rest s1] f1].
    cbn [fst] in *. cbn [filter is_sleep is_send].
    rewrite !filter_app, filter_send_pause.
    destruct IH as [IH1 IH2]; [lia | intros; apply A; lia|].
    rewrite IH1, IH2. split; [|reflexivity].
    unfold pause. rewrite P. cbn [andb].
    destruct r as [|r].
    + assert (F : (Z.of_nat i <? count - 1) = false)
        by (apply Z.ltb_ge; lia).
      rewrite F. reflexivity.
    + assert (F : (Z.of_nat i <? count - 1) = true)
        by (apply Z.ltb_lt; lia).
      rewrite F. cbn [filter is_sleep app]. simpl Nat.sub.
      now rewrite Nat.sub_0_r.
Qed.

(** With a positive delay, when all the sends are accepted,
    [send_message] makes [count] sends and sleeps [count - 1] times, each
    time for the delay: there is no sleep after the last send. *)
Theorem send_message_pauses_between_sends (send : nat -> SendOutcome)
    (channel : Channel) (message : pystr) (count : Z) (delay : Q) :
  1 <= count <= 50 ->
  positive delay = true ->
  (forall j, (j < Z.to_nat count)%nat -> send j = Sent) ->
  filter is_sleep (send_message send channel message count delay)
  = repeat (Sleep delay) (Z.to_nat count - 1)
  /\ filter is_send (send_message send channel message count delay)
     = repeat (Send (ch_id channel) (Text message) Sent) (Z.to_nat count).
Proof.
  intros C P A. unfold send_message.
  destruct ((count <? 1) || (50 <? count)) eqn:V.
  { apply orb_true_iff in V as [V | V]; apply Z.ltb_lt in V; lia. }
  assert (D : negative delay = false).
  { unfold positive, negative in *. apply negb_true_iff in P.
    apply negb_false_iff. destruct (Qle_bool 0 delay) eqn:E; [reflexivity|].
    exfalso.
    assert (N1 : ~ (delay <= 0)%Q)
      by (intros L; apply Qle_bool_iff in L; congruence).
    assert (N2 : ~ (0 <= delay)%Q)
      by (intros L; apply Qle_bool_iff in L; congruence).
    apply N1. apply Qlt_le_weak. now apply Qnot_le_lt. }
  rewrite D.
  pose proof (send_message_loop_pauses send channel message count delay P
                (Z.to_nat count) 0 0 0) as L.
  destruct (send_message_loop send channel message count delay
              (Z.to_nat count) 0 0 0) as [[sends s'] f'].
  cbn [fst] in L. cbn [filter is_sleep is_send].
  rewrite !filter_app. cbn [filter is_sleep is_send]. rewrite !app_nil_r.
  apply L; [simpl; lia | intros; apply A; lia].
Qed.

Lemma send_message_pauses_between_sends_witness :
  filter is_sleep
    (send_message (fun _ => Sent) (mkChannel 7 (lit "<#7>") true) (lit "hi")
       3 (1 # 4))
  = repeat (Sleep (1 # 4)) (Z.to_nat 3 - 1)
  /\ filter is_send
       (send_message (fun _ => Sent) (mkChannel 7 (lit "<#7>") true)
          (lit "hi") 3 (1 # 4))
     = repeat (Send (ch_id (mkChannel 7 (lit "<#7>") true)) (Text (lit "hi"))
                 Sent) (Z.to_nat 3).
Proof.
  assert (C : 1 <= 3 <= 50) by lia.
  exact (send_message_pauses_between_sends (fun _ => Sent)
           (mkChannel 7 (lit "<#7>") true) (lit "hi") 3 (1 # 4) C eq_refl
           (fun j _ => eq_refl)).
Defined.

(** ** [send_embed] *)

Lemma outline_pause (delay : Q) (i : nat) (count : Z) :
  map outline (pause delay i count) = pause delay i count.
Proof. unfold pause. destruct (_ && _); reflexivity. Qed.

Lemma send_embed_loop_outline (send : nat -> SendOutcome) (clk : nat -> Z)
    (channel : Channel) (title description message : pystr) (embed_color : Z)
    (count : Z) (delay : Q) :
  forall remaining i s f,
    map outline
      (fst (fst (send_embed_loop send clk channel title description
                   embed_color count delay remaining i s f)))
    = map outline
        (fst (fst (send_message_loop send channel message count delay
                     remaining i s f)))
    /\ snd (fst (send_embed_loop send clk channel title description
                   embed_color count delay remaining i s f))
       = snd (fst (send_message_loop send channel message count delay
                     remaining i s f))
    /\ snd (send_embed_loop send clk channel title description
              embed_color count delay remaining i s f)
       = snd (send_message_loop send channel message count delay
                remaining i s f).
Proof.
  induction remaining as [|r IH]; intros i s f; [repeat split|].
  cbn [send_embed_loop send_message_loop].
  destruct (send i) eqn:E.
  - specialize (IH (S i) (s + 1) f).
    destruct (send_embed_loop send clk channel title description embed_color
                count delay r (S i) (s + 1) f) as [[r1 s1] f1].
    destruct (send_message_loop send channel message count delay r (S i)
                (s + 1) f) as [[r2 s2] f2].
    cbn [fst snd] in *. destruct IH as (I1 & I2 & I3).
    cbn [map outline]. rewrite !map_app, I1. repeat split; assumption.
  - repeat split.
  - specialize (IH (S i) s (f + 1)).
    destruct (send_embed_loop send clk channel title description embed_color
                count delay r (S i) s (f + 1)) as [[r1 s1] f1].
    destruct (send_message_loop send channel message count delay r (S i)
                s (f + 1)) as [[r2 s2] f2].
    cbn [fst snd] in *. destruct IH as (I1 & I2 & I3).
    cbn [map outline]. rewrite !map_app, I1. repeat split; assumption.
  - specialize (IH (S i) s (f + 1)).
    destruct (send_embed_loop send clk channel title description embed_color
                count delay r (S i) s (f + 1)) as [[r1 s1] f1].
    destruct (send_message_loop send channel message count delay r (S i)
                s (f + 1)) as [[r2 s2] f2].
    cbn [fst snd] in *. destruct IH as (I1 & I2 & I3).
    cbn [map outline]. rewrite I1. repeat split; assumption.
Qed.

(** When its colour parses, [send_embed] does what [send_message] does
    for the same channel, count, delay and outcomes of the sends, up to
    what is sent and the wording of the answers: the same deferral, the
    same sends to the same channel with the same outcomes, the same
    sleeps, the same stop at a [Forbidden], and one report at the
    end. *)
Theorem send_embed_acts_like_send_message (send : nat -> SendOutcome)
    (clk : nat -> Z) (int16 : pystr -> option Z) (channel : Channel)
    (title description message : pystr) (color : option pystr) (count : Z)
    (delay : Q) :
  parse_color int16 color <> None ->
  map outline
    (send_embed send clk int16 channel title description color count delay)
  = map outline (send_message send channel message count delay).
Proof.
  intros P. unfold send_embed, send_message.
  destruct ((count <? 1) || (50 <? count)); [reflexivity|].
  destruct (negative delay); [reflexivity|].
  destruct (parse_color int16 color) as [embed_color|]; [|now elim P].
  pose proof (send_embed_loop_outline send clk channel title description
                message embed_color count delay (Z.to_nat count) 0 0 0)
    as (L1 & _ & _).
  destruct (send_embed_loop send clk channel title description embed_color
              count delay (Z.to_nat count) 0 0 0) as [[r1 s1] f1].
  destruct (send_message_loop send channel message count delay
              (Z.to_nat count) 0 0 0) as [[r2 s2] f2].
  cbn [fst] in L1. cbn [map outline]. rewrite !map_app, L1. reflexivity.
Qed.

Lemma send_embed_acts_like_send_message_witness :
  map outline
    (send_embed (fun i => match i with
                          | 1%nat => HTTPException 429
                          | _ => Sent
                          end)
       (fun _ => 0) (fun _ => Some 65280) (mkChannel 7 (lit "<#7>") true)
       (lit "t") (lit "d") (Some (lit "#00ff00")) 3 1)
  = map outline
      (send_message (fun i => match i with
                              | 1%nat => HTTPException 429
                              | _ => Sent
                              end)
         (mkChannel 7 (lit "<#7>") true) (lit "hi") 3 1).
Proof.
  assert (P : parse_color (fun _ => Some 65280) (Some (lit "#00ff00")) <> None)
    by (vm_compute; discriminate).
  exact (send_embed_acts_like_send_message _ (fun _ => 0)
           (fun _ => Some 65280) (mkChannel 7 (lit "<#7>") true) (lit "t")
           (lit "d") (lit "hi") (Some (lit "#00ff00")) 3 1 P).
Defined.

Lemma parse_color_reads (int16 : pystr -> option Z) (color : option pystr) :
  parse_color int16 color
  = match color with
    | None => Some 39423
    | Some [] => Some 39423
    | Some c => int16 (if startswith c (lit "#") then skipn 1 c else c)
    end.
Proof.
  destruct color as [[|c0 cs]|]; try reflexivity.
  unfold parse_color.
  destruct (startswith (c0 :: cs) (lit "0x")) eqn:X.
  - change (lit "0x") with [48%N; 120%N] in X.
    change (lit "#") with [35%N].
    cbn [startswith] in *. apply andb_true_iff in X as [X _].
    apply N.eqb_eq in X. subst c0. reflexivity.
  - destruct (startswith (c0 :: cs) (lit "#")); reflexivity.
Qed.

Lemma send_embed_loop_sends (send : nat -> SendOutcome) (clk : nat -> Z)
    (channel : Channel) (title description : pystr) (embed_color : Z)
    (count : Z) (delay : Q) :
  forall remaining i s f,
    Forall (fun a =>
              is_send a = true ->
              exists k,
                (i <= k < i + remaining)%nat
                /\ a = Send (ch_id channel)
                       (sent_embed title description embed_color k count
                          (clk k))
                       (send k))
      (fst (fst (send_embed_loop send clk channel title description
                   embed_color count delay remaining i s f))).
Proof.
  induction remaining as [|r IH]; intros i s f; [constructor|].
  cbn [send_embed_loop].
  assert (P : forall l : list Action,
             Forall (fun a => is_send a = true ->
                              exists k,
                                (S i <= k < S i + r)%nat
                                /\ a = Send (ch_id channel)
                                       (sent_embed title description
                                          embed_color k count (clk k))
                                       (send k)) l ->
             forall extra,
               forallb is_sleep extra = true ->
               Forall (fun a => is_send a = true ->
                                exists k,
                                  (i <= k < i + S r)%nat
                                  /\ a = Send (ch_id channel)
                                         (sent_embed title description
                                            embed_color k count (clk k))
                                         (send k)) (extra ++ l)).
  { intros l F extra S. apply Forall_app. split.
    - apply Forall_forall. intros a A. rewrite forallb_forall in S.
      apply S in A. destruct a; discriminate.
    - eapply Forall_impl; [|exact F]. cbv beta. intros a H Ha.
      destruct (H Ha) as (k & K & ->). exists k. split; [lia | reflexivity]. }
  assert (H0 : forall o, send i = o ->
                         is_send (Send (ch_id channel)
                                    (sent_embed title description embed_color
                                       i count (clk i)) o) = true ->
                         exists k,
                           (i <= k < i + S r)%nat
                           /\ Send (ch_id channel)
                                (sent_embed title description embed_color i
                                   count (clk i)) o
                              = Send (ch_id channel)
                                  (sent_embed title description embed_color
                                     k count (clk k))
                                  (send k)).
  { intros o E _. exists i. split; [lia | now rewrite E]. }
  destruct (send i) eqn:E.
  - specialize (IH (S i) (s + 1) f).
    destruct (send_embed_loop send clk channel title description embed_color
                count delay r (S i) (s + 1) f) as [[rest s1] f1].
    cbn [fst] in *. constructor; [now apply H0|].
    apply P; [exact IH|]. unfold pause. now destruct (_ && _).
  - cbn [fst]. constructor; [now apply H0 | constructor].
  - specialize (IH (S i) s (f + 1)).
    destruct (send_embed_loop send clk channel title description embed_color
                count delay r (S i) s (f + 1)) as [[rest s1] f1].
    cbn [fst] in *. constructor; [now apply H0|].
    apply P; [exact IH|]. now destruct (status =? 429).
  - specialize (IH (S i) s (f + 1)).
    destruct (send_embed_loop send clk channel title description embed_color
                count delay r (S i) s (f + 1)) as [[rest s1] f1].
    cbn [fst] in *. constructor; [now apply H0|].
    apply (P rest IH []). reflexivity.
Qed.

Lemma send_embed_loop_first (send : nat -> SendOutcome) (clk : nat -> Z)
    (channel : Channel) (title description : pystr) (embed_color : Z)
    (count : Z) (delay : Q) (r i : nat) (s f : Z) :
  hd_error (fst (fst (send_embed_loop send clk channel title description
                        embed_color count delay (S r) i s f)))
  = Some (Send (ch_id channel)
            (sent_embed title description embed_color i count (clk i))
            (send i)).
Proof.
  cbn [send_embed_loop].
  destruct (send i);
    try match goal with
      | |- context [send_embed_loop _ _ _ _ _ _ _ _ r (S i) ?a ?b] =>
          destruct (send_embed_loop send clk channel title description
                      embed_color count delay r (S i) a b) as [[rest s1] f1]
      end;
    reflexivity.
Qed.

(** The colour of [send_embed], for a count from 1 to 50 and a delay
    that is not negative.  Without a colour, or with an empty one, the
    colour is the blue 0x0099ff; a colour that starts with '#' is read
    without it, every other one as it is (the test for '0x' makes no
    difference).  When the colour cannot be read, the command's only
    answer after the deferral is that the colour is invalid, and nothing
    is sent.  When it can, the command sends: its first action after
    the deferral is the first send, and every send of the command goes
    to the given channel and carries one embed with the given title and
    description, the colour read, the time of the send, no field, and
    the footer "Sent via Status Bot " followed, for a count above 1, by
    the number of the send and the count between parentheses. *)
Theorem send_embed_colour (send : nat -> SendOutcome) (clk : nat -> Z)
    (int16 : pystr -> option Z) (channel : Channel)
    (title description : pystr) (color : option pystr) (count : Z)
    (delay : Q) :
  1 <= count <= 50 ->
  negative delay = false ->
  match match color with
        | None => Some 39423
        | Some [] => Some 39423
        | Some c => int16 (if startswith c (lit "#") then skipn 1 c else c)
        end with
  | None =>
      send_embed send clk int16 channel title description color count delay
      = [Defer true;
         Followup (Text (lit "‚ùå Invalid color format. Use hex format like 0x00ff00 or #00ff00"))]
  | Some embed_color =>
      nth_error
        (send_embed send clk int16 channel title description color count
           delay) 1
      = Some (Send (ch_id channel)
                (Rich (mkEmbed title description embed_color (Some (clk 0%nat))
                         []
                         (Some (lit "Sent via Status Bot "
                                ++ (if 1 <? count
                                    then lit "(" ++ str_of_int 1 ++ lit "/"
                                         ++ str_of_int count ++ lit ")"
                                    else [])))))
                (send 0%nat))
      /\ Forall (fun a =>
                   is_send a = true ->
                   exists k,
                     (k < Z.to_nat count)%nat
                     /\ a = Send (ch_id channel)
                            (Rich (mkEmbed title description embed_color
                                     (Some (clk k)) []
                                     (Some (lit "Sent via Status Bot "
                                            ++ (if 1 <? count
                                                then lit "("
                                                     ++ str_of_int
                                                          (Z.of_nat k + 1)
                                                     ++ lit "/"
                                                     ++ str_of_int count
                                                     ++ lit ")"
                                                else [])))))
                            (send k))
           (send_embed send clk int16 channel title description color count
              delay)
  end.
Proof.
  intros C D. rewrite <- parse_color_reads. unfold send_embed.
  destruct ((count <? 1) || (50 <? count)) eqn:V.
  { apply orb_true_iff in V as [V | V]; apply Z.ltb_lt in V; lia. }
  rewrite D.
  destruct (parse_color int16 color) as [embed_color|]; [|reflexivity].
  pose proof (send_embed_loop_sends send clk channel title description
                embed_color count delay (Z.to_nat count) 0 0 0) as L.
  assert (H : exists r, Z.to_nat count = S r)
    by (exists (Z.to_nat count - 1)%nat; lia).
  destruct H as [r H].
  pose proof (send_embed_loop_first send clk channel title description
                embed_color count delay r 0 0 0) as F.
  rewrite <- H in F.
  destruct (send_embed_loop send clk channel title description embed_color
              count delay (Z.to_nat count) 0 0 0) as [[sends s1] f1].
  cbn [fst] in L, F. split.
  - cbn [nth_error]. destruct sends as [|a sends]; [discriminate|].
    cbn [hd_error] in F. cbn [app nth_error]. exact F.
  - constructor; [discriminate|].
    apply Forall_app. split; [|constructor; [discriminate | constructor]].
    eapply Forall_impl; [|exact L]. cbv beta. intros a Ha Hs.
    destruct (Ha Hs) as (k & K & ->). exists k. split; [lia | reflexivity].
Qed.

Lemma send_embed_colour_witness :
  send_embed (fun _ => Sent) (fun _ => 0) (fun _ => None)
    (mkChannel 7 (lit "<#7>") true) (lit "t") (lit "d") (Some (lit "#green"))
    2 0
  = [Defer true;
     Followup (Text (lit "‚ùå Invalid color format. Use hex format like 0x00ff00 or #00ff00"))]
  /\ nth_error
       (send_embed (fun _ => Sent) (fun _ => 0) (fun _ => Some 65280)
          (mkChannel 7 (lit "<#7>") true) (lit "t") (lit "d")
          (Some (lit "#00ff00")) 2 0) 1
     = Some (Send 7
               (Rich (mkEmbed (lit "t") (lit "d") 65280 (Some 0) []
                        (Some (lit "Sent via Status Bot (1/2)"))))
               Sent).
Proof.
  assert (C : 1 <= 2 <= 50) by lia.
  split.
  - exact (send_embed_colour (fun _ => Sent) (fun _ => 0) (fun _ => None)
             (mkChannel 7 (lit "<#7>") true) (lit "t") (lit "d")
             (Some (lit "#green")) 2 0 C eq_refl).
  - generalize (send_embed_colour (fun _ => Sent) (fun _ => 0)
                  (fun _ => Some 65280) (mkChannel 7 (lit "<#7>") true)
                  (lit "t") (lit "d") (Some (lit "#00ff00")) 2 0 C eq_refl).
    vm_compute. intros [H _]. exact H.
Defined.

(** Two embeds in green: the deferral, the two sends with their
    footers, and the report. *)
Example send_embed_two_green_embeds :
  send_embed (fun _ => Sent) (fun i => Z.of_nat i + 100)
    (fun s => if pystr_eqb s (lit "00ff00") then Some 65280 else None)
    (mkChannel 7 (lit "<#7>") true) (lit "t") (lit "d")
    (Some (lit "#00ff00")) 2 0
  = [Defer true;
     Send 7 (Rich (mkEmbed (lit "t") (lit "d") 65280 (Some 100) []
                     (Some (lit "Sent via Status Bot (1/2)")))) Sent;
     Send 7 (Rich (mkEmbed (lit "t") (lit "d") 65280 (Some 101) []
                     (Some (lit "Sent via Status Bot (2/2)")))) Sent;
     Followup (Text (lit "‚úÖ Sent 2/2 embeds to <#7>" ++ [10%N]
                     ++ lit "‚ö° Ultra-fast mode used"))].
Proof. vm_compute. reflexivity. Qed.

(** '#00ff00' is read as '00ff00', '0x00ff00' and '00ff00' as they
    are. *)
Example parse_color_strips_the_hash :
  let int16 := fun s => if pystr_eqb s (lit "00ff00") then Some 65280
                        else if pystr_eqb s (lit "0x00ff00") then Some 65280
                        else None in
  parse_color int16 (Some (lit "#00ff00")) = Some 65280
  /\ parse_color int16 (Some (lit "0x00ff00")) = Some 65280
  /\ parse_color int16 (Some (lit "00ff00")) = Some 65280
  /\ parse_color int16 (Some (lit "#0x00ff00")) = Some 65280
  /\ parse_color int16 (Some (lit "green")) = None
  /\ parse_color int16 None = Some 39423.
Proof. vm_compute. repeat split. Qed.

(** ** The checks of the bulk commands *)

Lemma count_check (count limit : Z) :
  (count <? 1) || (limit <? count) = false <-> 1 <= count <= limit.
Proof.
  rewrite orb_false_iff, !Z.ltb_ge. lia.
Qed.

(** The four bulk commands check their arguments before anything else.
    [send_message] and [send_embed] go on (their first action is the
    deferral) exactly for a count from 1 to 50 and a delay that is not
    negative, [broadcast] for a count from 1 to 10, [multi_send] for a
    count from 1 to 20 and a list of at most 20 ids that all parse.
    In every other case the command's only action is one ephemeral
    answer: nothing is deferred, nothing is sent. *)
Theorem bulk_commands_check_their_arguments (count : Z) (delay : Q) :
  (forall send channel message,
     (1 <= count <= 50 /\ negative delay = false ->
      hd_error (send_message send channel message count delay)
      = Some (Defer true))
     /\ (~ (1 <= count <= 50 /\ negative delay = false) ->
         exists m, send_message send channel message count delay
                   = [Respond (Text m) true]))
  /\ (forall send clk int16 channel title description color,
        (1 <= count <= 50 /\ negative delay = false ->
         hd_error (send_embed send clk int16 channel title description color
                     count delay)
         = Some (Defer true))
        /\ (~ (1 <= count <= 50 /\ negative delay = false) ->
            exists m, send_embed send clk int16 channel title description
                        color count delay
                      = [Respond (Text m) true]))
  /\ (forall w message embed_format,
        (1 <= count <= 10 /\ negative delay = false ->
         hd_error (fst (broadcast w message embed_format count delay))
         = Some (Defer true))
        /\ (~ (1 <= count <= 10 /\ negative delay = false) ->
            exists m, broadcast w message embed_format count delay
                      = ([Respond (Text m) true], None)))
  /\ (forall w to_int server_ids message embed_format,
        (1 <= count <= 20 /\ negative delay = false
         /\ (exists ids, parse_ids to_int (split_comma server_ids [])
                         = Some ids
                         /\ (List.length ids <= 20)%nat) ->
         hd_error (fst (multi_send w to_int server_ids message embed_format
                          count delay))
         = Some (Defer true))
        /\ (~ (1 <= count <= 20 /\ negative delay = false
               /\ (exists ids, parse_ids to_int (split_comma server_ids [])
                               = Some ids
                               /\ (List.length ids <= 20)%nat)) ->
            exists m, multi_send w to_int server_ids message embed_format
                        count delay
                      = ([Respond (Text m) true], None))).
Proof.
  split; [|split; [|split]].
  - intros send channel message. unfold send_message.
    destruct ((count <? 1) || (50 <? count)) eqn:V.
    { split; [|eauto]. intros [C _]. apply count_check in C. congruence. }
    apply count_check in V.
    destruct (negative delay) eqn:D.
    { split; [|eauto]. intros [_ C]. congruence. }
    split; [|intros N; elim N; now split]. intros _.
    now destruct (send_message_loop send channel message count delay
                    (Z.to_nat count) 0 0 0) as [[sends s'] f'].
  - intros send clk int16 channel title description color. unfold send_embed.
    destruct ((count <? 1) || (50 <? count)) eqn:V.
    { split; [|eauto]. intros [C _]. apply count_check in C. congruence. }
    apply count_check in V.
    destruct (negative delay) eqn:D.
    { split; [|eauto]. intros [_ C]. congruence. }
    split; [|intros N; elim N; now split]. intros _.
    destruct (parse_color int16 color) as [embed_color|]; [|reflexivity].
    now destruct (send_embed_loop send clk channel title description
                    embed_color count delay (Z.to_nat count) 0 0 0)
      as [[sends s'] f'].
  - intros w message embed_format. unfold broadcast.
    destruct ((count <? 1) || (10 <? count)) eqn:V.
    { split; [|eauto]. intros [C _]. apply count_check in C. congruence. }
    apply count_check in V.
    destruct (negative delay) eqn:D.
    { split; [|eauto]. intros [_ C]. congruence. }
    split; [|intros N; elim N; now split]. intros _.
    now destruct (broadcast_guilds w embed_format message count delay 0
                    (guilds w) (mkBroadcastState 0 0 0)) as [sends st].
  - intros w to_int server_ids message embed_format. unfold multi_send.
    destruct ((count <? 1) || (20 <? count)) eqn:V.
    { split; [|eauto]. intros [C _]. apply count_check in C. congruence. }
    apply count_check in V.
    destruct (negative delay) eqn:D.
    { split; [|eauto]. intros (_ & C & _). congruence. }
    destruct (parse_ids to_int (split_comma server_ids [])) as [ids|] eqn:P.
    2:{ split; [|eauto]. intros (_ & _ & ids & I & _). discriminate. }
    destruct (20 <? List.length ids)%nat eqn:L.
    { split; [|eauto]. intros (_ & _ & ids' & I & B).
      apply Nat.ltb_lt in L. assert (ids' = ids) by congruence. subst. lia. }
    apply Nat.ltb_ge in L.
    split; [|intros N; elim N; eauto 6]. intros _.
    now destruct (multi_loop w embed_format message count delay
                    (1 <? List.length ids)%nat 0 ids (mkMultiState [] 0 0))
      as [sends st].
Qed.

(** ** The report of [multi_send] *)

Lemma dict_set_keys (r : list (Z * pystr)) (k : Z) (v : pystr) :
  NoDup (map fst r) ->
  NoDup (map fst (dict_set r k v))
  /\ (forall id, In id (map fst (dict_set r k v))
                 <-> In id (map fst r) \/ id = k)
  /\ (List.length r <= List.length (dict_set r k v) <= S (List.length r))%nat.
Proof.
  induction r as [|[k' v'] r IH]; intros N.
  - cbn. split; [constructor; [intros []|constructor]|].
    split; [|lia]. intros id. split; [intros [<- | []]; now right|].
    intros [[] | ->]. now left.
  - cbn [dict_set]. destruct (k' =? k) eqn:E.
    + apply Z.eqb_eq in E. subst k'. cbn [map fst] in *.
      split; [exact N|]. split; [|cbn [List.length]; lia].
      intros id. split; [now left|]. intros [H | ->]; [exact H | now left].
    + apply Z.eqb_neq in E. cbn [map fst] in *.
      apply NoDup_cons_iff in N as [N1 N2].
      destruct (IH N2) as (I1 & I2 & I3).
      split; [|split; [|cbn [List.length]; lia]].
      * constructor; [|exact I1]. intros H. apply I2 in H as [H | H];
          [now apply N1 | congruence].
      * intros id. cbn [In]. rewrite I2. tauto.
Qed.

Lemma multi_loop_keys (w : MultiWorld) (embed_format : bool) (message : pystr)
    (count : Z) (delay : Q) (many : bool) (guild_ids : list Z) :
  forall j st,
    NoDup (map fst (results st)) ->
    NoDup (map fst (results
                      (snd (multi_loop w embed_format message count delay
                              many j guild_ids st))))
    /\ (forall id,
          In id (map fst (results
                            (snd (multi_loop w embed_format message count
                                    delay many j guild_ids st))))
          <-> In id (map fst (results st)) \/ In id guild_ids)
    /\ (List.length (results
                       (snd (multi_loop w embed_format message count delay
                               many j guild_ids st)))
        <= List.length (results st) + List.length guild_ids)%nat.
Proof.
  induction guild_ids as [|g rest IH]; intros j st N.
  - cbn [multi_loop snd]. split; [exact N|]. split; [|lia].
    intros id. cbn [In]. tauto.
  - rewrite multi_loop_step. cbn [snd].
    destruct (multi_pass_spec w embed_format message count delay many j g st)
      as ((text & T & _) & _).
    destruct (dict_set_keys (results st) g text N) as (D1 & D2 & D3).
    rewrite <- T in D1, D2, D3.
    destruct (IH (S j) _ D1) as (I1 & I2 & I3).
    split; [exact I1|]. split; [|cbn [List.length]; lia].
    intros id. rewrite I2, D2. cbn [In]. intuition congruence.
Qed.

(** The results of [multi_send] are kept by server id: there is one
    result for every id of the list and for no other, and never two for
    the same id, so an id given twice has one line in the report.  The
    sends are made for every occurrence all the same: [count] sends for
    each entry of the list that resolves to a guild with a usable
    channel. *)
Theorem multi_send_reports_each_id_once (w : MultiWorld)
    (to_int : pystr -> option Z) (server_ids message : pystr)
    (embed_format : bool) (count : Z) (delay : Q) (guild_ids : list Z) :
  1 <= count <= 20 ->
  negative delay = false ->
  parse_ids to_int (split_comma server_ids []) = Some guild_ids ->
  (List.length guild_ids <= 20)%nat ->
  exists actions st,
    multi_send w to_int server_ids message embed_format count delay
    = (actions, Some st)
    /\ NoDup (map fst (results st))
    /\ (forall id, In id (map fst (results st)) <-> In id guild_ids)
    /\ (List.length (results st) <= List.length guild_ids)%nat
    /\ List.length (filter is_send actions)
       = (Z.to_nat count
          * List.length (filter (reachable_guild w) guild_ids))%nat.
Proof.
  intros C D P L. unfold multi_send.
  destruct ((count <? 1) || (20 <? count)) eqn:V.
  { apply orb_true_iff in V as [V | V]; apply Z.ltb_lt in V; lia. }
  rewrite D, P.
  assert (B : (20 <? List.length guild_ids)%nat = false)
    by (apply Nat.ltb_ge; exact L).
  rewrite B.
  pose proof (multi_loop_keys w embed_format message count delay
                (1 <? List.length guild_ids)%nat guild_ids 0
                (mkMultiState [] 0 0) (NoDup_nil _)) as (K1 & K2 & K3).
  pose proof (multi_loop_spec w embed_format message count delay
                (1 <? List.length guild_ids)%nat guild_ids 0
                (mkMultiState [] 0 0)) as S.
  cbv zeta in S. destruct S as (S1 & _ & _ & S4 & _).
  destruct (multi_loop w embed_format message count delay
              (1 <? List.length guild_ids)%nat 0 guild_ids
              (mkMultiState [] 0 0)) as [sends st].
  cbn [fst snd results map] in *.
  exists (Defer true :: sends ++ followups (multi_result_msg st count delay)), st.
  split; [reflexivity|]. split; [exact K1|].
  split; [intros id; rewrite K2; cbn [In]; tauto|]. split; [exact K3|].
  cbn [filter is_send]. rewrite filter_app, length_app, S4.
  assert (F : filter is_send (followups (multi_result_msg st count delay)) = []).
  { unfold followups. destruct (2000 <? _)%nat; [|reflexivity].
    induction (chunks _ _ _) as [|c l IHl]; [reflexivity | exact IHl]. }
  rewrite F. cbn [List.length]. lia.
Qed.

Lemma multi_send_reports_each_id_once_witness :
  exists actions st,
    multi_send ex_multi_world ex_to_int (lit "1,2,1") (lit "hi") false 2 0
    = (actions, Some st)
    /\ NoDup (map fst (results st))
    /\ (forall id, In id (map fst (results st)) <-> In id [1; 2; 1])
    /\ (List.length (results st) <= List.length [1%Z; 2%Z; 1%Z])%nat
    /\ List.length (filter is_send actions)
       = (Z.to_nat 2
          * List.length (filter (reachable_guild ex_multi_world)
                         [1%Z; 2%Z; 1%Z]))%nat.
Proof.
  assert (C : 1 <= 2 <= 20) by lia.
  assert (P : parse_ids ex_to_int (split_comma (lit "1,2,1") []) = Some [1; 2; 1])
    by (vm_compute; reflexivity).
  assert (L : (List.length [1; 2; 1] <= 20)%nat) by (simpl; lia).
  exact (multi_send_reports_each_id_once ex_multi_world ex_to_int
           (lit "1,2,1") (lit "hi") false 2 0 [1; 2; 1] C eq_refl P L).
Defined.

(** The id 1 given twice: four sends go to its channel, one of them
    refused; the totals count the four, with the two of the id 2 that
    does not resolve, and the report has one line for the id 1. *)
Example multi_send_with_a_repeated_id :
  match multi_send ex_multi_world ex_to_int (lit "1,2,1") (lit "hi") false 2 0
  with
  | (actions, Some st) =>
      (List.length (filter is_send actions), total_sent st, total_failed st,
       map fst (results st))
      = (4%nat, 3, 3, [1; 2])
  | _ => False
  end.
Proof. vm_compute. reflexivity. Qed.

Lemma chunks_short (n : nat) :
  (0 < n)%nat ->
  forall fuel s,
    Forall (fun t => (List.length t <= n)%nat /\ t <> []) (chunks fuel n s).
Proof.
  intros P. induction fuel as [|fuel IH]; intros s; [constructor|].
  cbn [chunks]. destruct s as [|c s]; [constructor|].
  constructor; [|apply IH]. split; [apply firstn_le_length|].
  destruct n; [lia | discriminate].
Qed.

(** The report of [multi_send] reaches the user whole and in order,
    whatever its length: in one followup when it has at most 2000
    characters, otherwise in followups of at most 1900 characters
    each, none of them empty. *)
Theorem followups_are_short_and_complete (result_msg : pystr) :
  report (followups result_msg) = result_msg
  /\ Forall (fun a =>
               exists t, a = Followup (Text t)
                         /\ (List.length t <= 2000)%nat
                         /\ ((2000 < List.length result_msg)%nat ->
                             (0 < List.length t <= 1900)%nat))
       (followups result_msg).
Proof.
  split; [apply report_followups|]. unfold followups.
  destruct (2000 <? List.length result_msg)%nat eqn:E.
  - apply Forall_map.
    pose proof (chunks_short 1900 ltac:(lia) (List.length result_msg)
                  result_msg) as S.
    eapply Forall_impl; [|exact S]. cbv beta. intros t [T1 T2].
    exists t. split; [reflexivity|]. split; [lia|]. intros _.
    destruct t; [congruence | cbn [List.length] in *; lia].
  - apply Nat.ltb_ge in E. constructor; [|constructor].
    exists result_msg. split; [reflexivity|]. split; [exact E | lia].
Qed.

(** ** [broadcast] *)

Lemma broadcast_loop_counts (send : nat -> SendOutcome) (clk : nat -> Z)
    (target : Channel) (embed_format : bool) (message : pystr) (count : Z)
    (delay : Q) :
  forall remaining i s f acts s' f',
    broadcast_loop send clk target embed_format message count delay remaining
      i s f
    = (acts, s', f') ->
    s' = s + tally is_sent acts
    /\ f' = f + tally is_failed_send acts
    /\ forallb send_or_sleep acts = true
    /\ tally is_send acts = Z.of_nat remaining.
Proof.
  induction remaining as [|r IH]; intros i s f acts s' f' H.
  - injection H as <- <- <-. rewrite !tally_nil. repeat split; lia.
  - cbn [broadcast_loop] in H.
    destruct (send i) eqn:E;
      match type of H with
      | context [broadcast_loop _ _ _ _ _ _ _ r (S i) ?a ?b] =>
          destruct (broadcast_loop send clk target embed_format message count
                      delay r (S i) a b) as [[rest s1] f1] eqn:R
      end;
      apply IH in R as (R1 & R2 & R3 & R4);
      injection H as <- <- <-; tally_step; rewrite R3;
      (repeat split; try lia); now destruct (status =? 429).
Qed.

Lemma broadcast_pass_counts (w : BroadcastWorld) (embed_format : bool)
    (message : pystr) (count : Z) (delay : Q) (j : nat) (guild : Guild)
    (st : BroadcastState) :
  0 <= count ->
  forall acts st',
    broadcast_pass w embed_format message count delay j guild st = (acts, st') ->
    b_total_sent st' = b_total_sent st + tally is_sent acts
    /\ b_total_failed st'
       = b_total_failed st + tally is_failed_send acts
         + (if has_target guild then 0 else count)
    /\ forallb send_or_sleep acts = true
    /\ tally is_send acts = (if has_target guild then count else 0)
    /\ servers_reached st <= servers_reached st'
    /\ servers_reached st' - servers_reached st
       <= (if has_target guild then 1 else 0)
    /\ servers_reached st' - servers_reached st <= tally is_sent acts.
Proof.
  intros C acts st' H. unfold broadcast_pass in H. unfold has_target.
  destruct (target_channel guild) as [target|]; cbn [is_some].
  - destruct (broadcast_loop (b_send w j) (b_clock w j) target embed_format
                message count delay (Z.to_nat count) 0 0 0)
      as [[sends s1] f1] eqn:L.
    apply broadcast_loop_counts in L as (L1 & L2 & L3 & L4).
    injection H as <- <-. cbn [b_total_sent b_total_failed servers_reached].
    assert (T : forall p, (forall q, p (Sleep q) = false) ->
                          tally p (if positive delay then [Sleep (1 # 2)] else [])
                          = 0).
    { intros p Hp. destruct (positive delay); [|reflexivity].
      rewrite tally_cons, Hp. reflexivity. }
    rewrite !tally_app, !T by reflexivity. rewrite forallb_app, L3.
    rewrite Z2Nat.id in L4 by lia.
    pose proof (tally_nonneg is_sent sends).
    split; [lia|]. split; [lia|].
    split; [now destruct (positive delay)|]. split; [lia|].
    destruct (0 <? s1) eqn:S; [apply Z.ltb_lt in S | apply Z.ltb_ge in S];
      repeat split; lia.
  - injection H as <- <-. cbn [b_total_sent b_total_failed servers_reached].
    rewrite !tally_nil. repeat split; lia.
Qed.

Lemma broadcast_guilds_counts (w : BroadcastWorld) (embed_format : bool)
    (message : pystr) (count : Z) (delay : Q) :
  0 <= count ->
  forall gs j st acts st',
    broadcast_guilds w embed_format message count delay j gs st = (acts, st') ->
    b_total_sent st' = b_total_sent st + tally is_sent acts
    /\ b_total_failed st'
       = b_total_failed st + tally is_failed_send acts
         + count * Z.of_nat (List.length
                               (filter (fun g => negb (has_target g)) gs))
    /\ forallb send_or_sleep acts = true
    /\ tally is_send acts
       = count * Z.of_nat (List.length (filter has_target gs))
    /\ servers_reached st <= servers_reached st'
    /\ servers_reached st' - servers_reached st
       <= Z.of_nat (List.length (filter has_target gs))
    /\ servers_reached st' - servers_reached st <= tally is_sent acts.
Proof.
  intros C. induction gs as [|g gs IH]; intros j st acts st' H.
  - injection H as <- <-. rewrite !tally_nil. cbn. repeat split; lia.
  - cbn [broadcast_guilds] in H.
    destruct (broadcast_pass w embed_format message count delay j g st)
      as [a1 st1] eqn:P.
    destruct (broadcast_guilds w embed_format message count delay (S j) gs st1)
      as [a2 st2] eqn:G.
    injection H as <- <-.
    apply (broadcast_pass_counts w embed_format message count delay j g st C)
      in P as (P1 & P2 & P3 & P4 & P5 & P6 & P7).
    apply IH in G as (G1 & G2 & G3 & G4 & G5 & G6 & G7).
    rewrite !tally_app, forallb_app, P3, G3. cbn [filter].
    destruct (has_target g); cbn [negb List.length andb];
      repeat split; lia.
Qed.

(** [broadcast] with a count from 1 to 10 and a delay that is not
    negative: one deferral, then sends and sleeps only, then one report.
    Every guild with a usable channel gets [count] sends, whatever their
    outcomes: a refusal does not end its loop.  The report counts the
    accepted sends as sent, and as failed the failed sends and [count]
    for every guild without a usable channel, so that the two numbers
    add up to [count] times the number of guilds.  The servers reached
    are never more than the guilds with a usable channel, nor more than
    the accepted sends. *)
Theorem broadcast_report_counts (w : BroadcastWorld) (message : pystr)
    (embed_format : bool) (count : Z) (delay : Q) :
  1 <= count <= 10 ->
  negative delay = false ->
  exists sends st,
    broadcast w message embed_format count delay
    = (Defer true :: sends
         ++ [Followup (Text (broadcast_result_msg w st count delay))],
       Some st)
    /\ forallb send_or_sleep sends = true
    /\ tally is_send sends
       = count * Z.of_nat (List.length (filter has_target (guilds w)))
    /\ b_total_sent st = tally is_sent sends
    /\ b_total_failed st
       = tally is_failed_send sends
         + count * Z.of_nat (List.length
                               (filter (fun g => negb (has_target g))
                                  (guilds w)))
    /\ b_total_sent st + b_total_failed st
       = count * Z.of_nat (List.length (guilds w))
    /\ 0 <= servers_reached st
       <= Z.of_nat (List.length (filter has_target (guilds w)))
    /\ servers_reached st <= b_total_sent st.
Proof.
  intros C D. unfold broadcast.
  destruct ((count <? 1) || (10 <? count)) eqn:V.
  { apply orb_true_iff in V as [V | V]; apply Z.ltb_lt in V; lia. }
  rewrite D.
  destruct (broadcast_guilds w embed_format message count delay 0 (guilds w)
              (mkBroadcastState 0 0 0)) as [sends st] eqn:G.
  apply broadcast_guilds_counts in G as (G1 & G2 & G3 & G4 & G5 & G6 & G7);
    [|lia].
  cbn [b_total_sent b_total_failed servers_reached] in *.
  exists sends, st. split; [reflexivity|]. split; [exact G3|].
  split; [exact G4|]. split; [lia|]. split; [lia|].
  pose proof (sent_or_failed sends) as SF.
  assert (Len : (List.length (filter has_target (guilds w))
                 + List.length (filter (fun g => negb (has_target g)) (guilds w))
                 = List.length (guilds w))%nat).
  { apply filter_length. }
  split; [nia|]. split; lia.
Qed.

Lemma broadcast_report_counts_witness :
  exists sends st,
    broadcast ex_broadcast_world (lit "hi") false 2 0
    = (Defer true :: sends
         ++ [Followup (Text (broadcast_result_msg ex_broadcast_world st 2 0))],
       Some st)
    /\ forallb send_or_sleep sends = true
    /\ tally is_send sends
       = 2 * Z.of_nat (List.length
                         (filter has_target (guilds ex_broadcast_world)))
    /\ b_total_sent st = tally is_sent sends
    /\ b_total_failed st
       = tally is_failed_send sends
         + 2 * Z.of_nat (List.length
                           (filter (fun g => negb (has_target g))
                              (guilds ex_broadcast_world)))
    /\ b_total_sent st + b_total_failed st
       = 2 * Z.of_nat (List.length (guilds ex_broadcast_world))
    /\ 0 <= servers_reached st
       <= Z.of_nat (List.length
                      (filter has_target (guilds ex_broadcast_world)))
    /\ servers_reached st <= b_total_sent st.
Proof.
  assert (C : 1 <= 2 <= 10) by lia.
  exact (broadcast_report_counts ex_broadcast_world (lit "hi") false 2 0 C
           eq_refl).
Defined.

(** Three guilds, the second without a usable channel, the sends to the
    third all refused: four sends are made, two are counted as sent and
    four as failed, and one server is reached. *)
Example broadcast_to_three_guilds :
  match broadcast ex_broadcast_world (lit "hi") false 2 0 with
  | (actions, Some st) =>
      (tally is_send actions, tally is_forbidden actions, b_total_sent st,
       b_total_failed st, servers_reached st)
      = (4, 2, 2, 4, 1)
  | _ => False
  end.
Proof. vm_compute. reflexivity. Qed.

(** ** [check_status] *)

(** [check_status] defers, and then answers once, with the failure text
    when the fetch gave nothing and with the notification when the data
    are [renderable].  When data were fetched that are not renderable,
    the exception of [create_status_embed] leaves the callback after the
    deferral, [on_app_command_error] finds the response done and sends
    nothing: the user gets no answer at all. *)
Theorem check_status_answers_unless_render_fails (w : Pass) (svc : pystr) :
  match snd (get_service_data (http_get w) svc) with
  | None =>
      check_status_command w svc
      = [Defer false;
         Followup (Text (lit "‚ùå Failed to fetch " ++ svc
                         ++ lit " status data."))]
  | Some data =>
      if renderable data
      then exists embed,
             create_status_embed (now w) svc data = Ok embed
             /\ check_status_command w svc
                = [Defer false; Followup (Rich embed)]
      else check_status_command w svc = [Defer false]
  end.
Proof.
  unfold check_status_command, check_status.
  destruct (snd (get_service_data (http_get w) svc)) as [data|];
    [|reflexivity].
  pose proof (create_status_embed_ok (now w) svc data) as R.
  destruct (renderable data).
  - destruct (proj2 R eq_refl) as [embed E]. exists embed.
    split; [exact E|]. now rewrite E.
  - destruct (create_status_embed (now w) svc data) as [embed|e].
    + assert (F : false = true) by (apply R; eauto). discriminate.
    + reflexivity.
Qed.

(** A status body that is JSON and no object: the data are fetched, the
    renderer raises, and the command ends with its deferral. *)
Example check_status_without_an_answer :
  check_status_command ex_odd_status_pass (lit "vercel") = [Defer false].
Proof. vm_compute. reflexivity. Qed.

(** ** [list_webhooks] *)

Lemma webhook_field_marker (get_channel get_role : Z -> option pystr)
    (id : option pystr) (r : Row) :
  webhook_field get_channel get_role (set_last_incident_id id r)
  = webhook_field get_channel get_role r.
Proof. destruct r. reflexivity. Qed.

Lemma index_insert_marker (id : option pystr) (r : Row) (l : list Row) :
  map (set_last_incident_id id) (index_insert r l)
  = index_insert (set_last_incident_id id r) (map (set_last_incident_id id) l).
Proof.
  induction l as [|e l IH]; [reflexivity|]. cbn [index_insert map].
  change (service (set_last_incident_id id r)) with (service r).
  change (service (set_last_incident_id id e)) with (service e).
  destruct (pystr_leb (service r) (service e)); cbn [map]; [reflexivity|].
  now rewrite IH.
Qed.

Lemma by_service_marker (id : option pystr) (l : list Row) :
  map (set_last_incident_id id) (by_service l)
  = by_service (map (set_last_incident_id id) l).
Proof.
  induction l as [|r l IH]; [reflexivity|]. cbn [by_service map].
  now rewrite index_insert_marker, IH.
Qed.

Lemma select_guild_marker (g : Z) (db : Store) :
  map (set_last_incident_id None) (select_guild g db)
  = select_guild g (map (set_last_incident_id None) db).
Proof.
  unfold select_guild. rewrite by_service_marker. f_equal.
  induction db as [|r db IH]; [reflexivity|].
  cbn [map filter].
  change (guild_id (set_last_incident_id None r)) with (guild_id r).
  destruct (guild_id r =? g); cbn [map]; now rewrite IH.
Qed.

Lemma list_webhooks_marker (get_channel get_role : Z -> option pystr) (g : Z)
    (db : Store) :
  list_webhooks get_channel get_role g (map (set_last_incident_id None) db)
  = list_webhooks get_channel get_role g db.
Proof.
  unfold list_webhooks. rewrite <- select_guild_marker.
  destruct (select_guild g db) as [|r rs]; [reflexivity|].
  cbn [map]. rewrite !webhook_field_marker. f_equal. f_equal.
  rewrite map_map. apply map_ext. intros a. apply webhook_field_marker.
Qed.

(** What [list_webhooks] shows does not depend on the poller: a tick,
    whatever it fetched and posted, leaves the answer of the command
    as it was, in every guild. *)
Theorem tick_does_not_change_the_listing (w : nat -> Pass)
    (get_channel get_role : Z -> option pystr) (g : Z) (db : Store) :
  list_webhooks get_channel get_role g
    (tick_store (check_and_post_incidents w db))
  = list_webhooks get_channel get_role g db.
Proof.
  unfold check_and_post_incidents.
  pose proof (run_configs_keeps_shape w (select_enabled db) 0 db) as S.
  rewrite <- (list_webhooks_marker get_channel get_role g
                (tick_store (run_configs w 0 (select_enabled db) db))).
  rewrite S. apply list_webhooks_marker.
Qed.

Lemma select_guild_other_insert (g : Z) (row : Row) (db : Store) :
  guild_id row <> g ->
  select_guild g (insert_or_replace row db) = select_guild g db.
Proof.
  intros D. unfold select_guild. f_equal. unfold insert_or_replace.
  rewrite filter_app. cbn [filter].
  assert (E : (guild_id row =? g) = false) by (apply Z.eqb_neq; exact D).
  rewrite E, app_nil_r.
  induction db as [|r db IH]; [reflexivity|]. cbn [filter].
  destruct (has_key (guild_id row) (service row) r) eqn:K; cbn [negb filter].
  - apply has_key_true_iff in K. unfold row_key in K.
    assert (K' : guild_id r = guild_id row) by congruence.
    assert (F : (guild_id r =? g) = false) by (apply Z.eqb_neq; congruence).
    rewrite F. exact IH.
  - destruct (guild_id r =? g); now rewrite IH.
Qed.

Lemma select_guild_other_delete (g guild : Z) (svc : pystr) (db : Store) :
  guild <> g ->
  select_guild g (delete_row guild svc db) = select_guild g db.
Proof.
  intros D. unfold select_guild. f_equal. unfold delete_row.
  induction db as [|r db IH]; [reflexivity|]. cbn [filter].
  destruct (has_key guild svc r) eqn:K; cbn [negb filter].
  - apply has_key_true_iff in K. unfold row_key in K.
    assert (K' : guild_id r = guild) by congruence.
    assert (F : (guild_id r =? g) = false) by (apply Z.eqb_neq; congruence).
    rewrite F. exact IH.
  - destruct (guild_id r =? g); now rewrite IH.
Qed.

Lemma select_guild_other_update (g guild : Z) (svc : pystr) (v : bool)
    (db : Store) :
  guild <> g ->
  select_guild g (update_enabled db v guild svc) = select_guild g db.
Proof.
  intros D. unfold select_guild. f_equal. unfold update_enabled.
  induction db as [|r db IH]; [reflexivity|]. cbn [map filter].
  destruct (has_key guild svc r) eqn:K.
  - apply has_key_true_iff in K. unfold row_key in K.
    assert (K' : guild_id r = guild) by congruence.
    change (guild_id (set_enabled (if v then 1 else 0) r)) with (guild_id r).
    assert (F : (guild_id r =? g) = false) by (apply Z.eqb_neq; congruence).
    rewrite F. exact IH.
  - destruct (guild_id r =? g); now rewrite IH.
Qed.

(** The subscription commands of one guild never change what
    [list_webhooks] answers in another guild, whatever their arguments
    and outcome. *)
Theorem commands_leave_other_guilds_alone
    (get_channel get_role : Z -> option pystr) (g guild : Z)
    (create : CreateOutcome) (manage_webhooks : bool) (channel : Channel)
    (svc : pystr) (ping_role : option Role) (db : Store) :
  guild <> g ->
  list_webhooks get_channel get_role g
    (fst (setup_webhook create manage_webhooks guild channel svc ping_role db))
  = list_webhooks get_channel get_role g db
  /\ list_webhooks get_channel get_role g
       (fst (remove_webhook manage_webhooks guild svc db))
     = list_webhooks get_channel get_role g db
  /\ list_webhooks get_channel get_role g
       (fst (toggle_webhook manage_webhooks guild svc db))
     = list_webhooks get_channel get_role g db.
Proof.
  intros D. unfold list_webhooks. split; [|split].
  - unfold setup_webhook.
    destruct (negb manage_webhooks); [reflexivity|].
    destruct create; cbn [fst]; try reflexivity.
    now rewrite select_guild_other_insert.
  - unfold remove_webhook.
    destruct (negb manage_webhooks); [reflexivity|].
    destruct (0 <? rowcount guild svc db)%nat; cbn [fst]; [|reflexivity].
    now rewrite select_guild_other_delete.
  - unfold toggle_webhook.
    destruct (negb manage_webhooks); [reflexivity|].
    destruct (find (has_key guild svc) db); cbn [fst]; [|reflexivity].
    now rewrite select_guild_other_update.
Qed.

Lemma commands_leave_other_guilds_alone_witness :
  list_webhooks (fun _ => None) (fun _ => None) 2
    (fst (setup_webhook (Created (lit "https://discord.test/hook")) true 1
            (mkChannel 11 (lit "<#11>") true) (lit "vercel") None
            ex_two_rows))
  = list_webhooks (fun _ => None) (fun _ => None) 2 ex_two_rows
  /\ list_webhooks (fun _ => None) (fun _ => None) 2
       (fst (remove_webhook true 1 (lit "vercel") ex_two_rows))
     = list_webhooks (fun _ => None) (fun _ => None) 2 ex_two_rows
  /\ list_webhooks (fun _ => None) (fun _ => None) 2
       (fst (toggle_webhook true 1 (lit "vercel") ex_two_rows))
     = list_webhooks (fun _ => None) (fun _ => None) 2 ex_two_rows.
Proof.
  assert (D : 1 <> 2) by lia.
  exact (commands_leave_other_guilds_alone (fun _ => None) (fun _ => None) 2 1
           (Created (lit "https://discord.test/hook")) true
           (mkChannel 11 (lit "<#11>") true) (lit "vercel") None ex_two_rows
           D).
Defined.

(** ** The order of the listing *)

Lemma pystr_leb_total (a : pystr) :
  forall b, pystr_leb a b = false -> pystr_leb b a = true.
Proof.
  induction a as [|x a IH]; intros [|y b] H; cbn [pystr_leb] in *;
    try discriminate; try reflexivity.
  destruct (x <? y)%N eqn:L; [discriminate|].
  destruct (x =? y)%N eqn:E.
  - apply N.eqb_eq in E. subst y. rewrite N.ltb_irrefl, N.eqb_refl.
    now apply IH.
  - apply N.ltb_ge in L. apply N.eqb_neq in E.
    assert (L' : (y <? x)%N = true) by (apply N.ltb_lt; lia).
    now rewrite L'.
Qed.

Lemma pystr_leb_trans (a : pystr) :
  forall b c, pystr_leb a b = true -> pystr_leb b c = true ->
              pystr_leb a c = true.
Proof.
  induction a as [|x a IH]; intros [|y b] [|z c] H1 H2;
    cbn [pystr_leb] in *; try discriminate; try reflexivity.
  destruct (x <? y)%N eqn:L1.
  - apply N.ltb_lt in L1. destruct (y <? z)%N eqn:L2.
    + apply N.ltb_lt in L2.
      assert (L : (x <? z)%N = true) by (apply N.ltb_lt; lia).
      now rewrite L.
    + destruct (y =? z)%N eqn:E2; [|discriminate].
      apply N.eqb_eq in E2. subst z.
      assert (L : (x <? y)%N = true) by (apply N.ltb_lt; lia).
      now rewrite L.
  - destruct (x =? y)%N eqn:E1; [|discriminate].
    apply N.eqb_eq in E1. subst y.
    destruct (x <? z)%N; [reflexivity|].
    destruct (x =? z)%N; [|discriminate]. now apply (IH b c).
Qed.

Lemma index_insert_app (y : Row) (b t : list Row) :
  index_insert y (b ++ t)
  = if existsb (fun e => pystr_leb (service y) (service e)) b
    then index_insert y b ++ t
    else b ++ index_insert y t.
Proof.
  induction b as [|e b IH]; [reflexivity|].
  cbn [app index_insert existsb].
  destruct (pystr_leb (service y) (service e)); cbn [orb]; [reflexivity|].
  rewrite IH. now destruct (existsb _ b).
Qed.

Lemma index_insert_Forall (P : Row -> Prop) (y : Row) (l : list Row) :
  P y -> Forall P l -> Forall P (index_insert y l).
Proof.
  intros Py F. induction F as [|e l Pe F IH]; cbn [index_insert].
  - now constructor.
  - destruct (pystr_leb (service y) (service e)); repeat constructor; auto.
Qed.

(** A row stored last, of a service that no row before it has, finds its
    place in the order of the index: after the rows of smaller services
    and before those of greater ones, which stay as they are. *)
Lemma by_service_snoc (row : Row) (rows : list Row) :
  exists before after,
    by_service rows = before ++ after
    /\ by_service (rows ++ [row]) = before ++ row :: after
    /\ Forall (fun r => pystr_leb (service r) (service row) = true) before
    /\ Forall (fun r => pystr_leb (service r) (service row) = false) after.
Proof.
  induction rows as [|y rows IH].
  - exists [], []. repeat split; constructor.
  - destruct IH as (b & a & E1 & E2 & Fb & Fa).
    cbn [app by_service]. rewrite E1, E2, !index_insert_app.
    destruct (existsb (fun e => pystr_leb (service y) (service e)) b) eqn:X.
    + exists (index_insert y b), a.
      split; [reflexivity|]. split; [reflexivity|]. split; [|exact Fa].
      apply index_insert_Forall; [|exact Fb].
      apply existsb_exists in X as (e & I & L).
      rewrite Forall_forall in Fb.
      exact (pystr_leb_trans _ _ _ L (Fb e I)).
    + cbn [index_insert].
      destruct (pystr_leb (service y) (service row)) eqn:Y.
      * exists (b ++ [y]), a. rewrite <- !app_assoc. cbn [app].
        split; [|split; [reflexivity|split; [|exact Fa]]].
        -- f_equal. destruct a as [|h a]; [reflexivity|].
           cbn [index_insert].
           assert (H : pystr_leb (service y) (service h) = true).
           { apply (pystr_leb_trans _ _ _ Y). apply pystr_leb_total.
             now inversion Fa. }
           now rewrite H.
        -- apply Forall_app. split; [exact Fb|]. now constructor.
      * exists b, (index_insert y a).
        split; [reflexivity|]. split; [reflexivity|]. split; [exact Fb|].
        now apply index_insert_Forall.
Qed.

Lemma index_insert_least (x : Row) (l : list Row) :
  Forall (fun e => pystr_leb (service x) (service e) = true) l ->
  index_insert x l = x :: l.
Proof.
  intros F. destruct F as [|e l H F]; [reflexivity|].
  cbn [index_insert]. now rewrite H.
Qed.

Lemma index_insert_sorted (x : Row) (l : list Row) :
  StronglySorted (fun a b => pystr_leb (service a) (service b) = true) l ->
  StronglySorted (fun a b => pystr_leb (service a) (service b) = true)
    (index_insert x l).
Proof.
  induction 1 as [|e l S IH F]; cbn [index_insert].
  - repeat constructor.
  - destruct (pystr_leb (service x) (service e)) eqn:L.
    + constructor; [now constructor|]. constructor; [exact L|].
      eapply Forall_impl; [|exact F]. cbv beta. intros a H.
      exact (pystr_leb_trans _ _ _ L H).
    + constructor; [exact IH|]. apply index_insert_Forall; [|exact F].
      now apply pystr_leb_total.
Qed.

Lemma by_service_sorted (l : list Row) :
  StronglySorted (fun a b => pystr_leb (service a) (service b) = true)
    (by_service l).
Proof.
  induction l as [|r l IH]; [constructor|]. cbn [by_service].
  now apply index_insert_sorted.
Qed.

Lemma index_insert_filter (p : Row -> bool) (x : Row) (l : list Row) :
  StronglySorted (fun a b => pystr_leb (service a) (service b) = true) l ->
  filter p (index_insert x l)
  = if p x then index_insert x (filter p l) else filter p l.
Proof.
  induction 1 as [|e l S IH F]; cbn [index_insert filter].
  - now destruct (p x).
  - destruct (pystr_leb (service x) (service e)) eqn:L; cbn [filter].
    + change (if p e then e :: filter p l else filter p l)
        with (filter p (e :: l)).
      destruct (p x); [|reflexivity]. symmetry. apply index_insert_least.
      assert (G : Forall (fun a => pystr_leb (service x) (service a) = true)
                    (e :: l)).
      { constructor; [exact L|]. eapply Forall_impl; [|exact F].
        cbv beta. intros a H. exact (pystr_leb_trans _ _ _ L H). }
      rewrite Forall_forall in *. intros a A. apply G.
      now apply filter_In in A as [A _].
    + rewrite IH. destruct (p e), (p x); cbn [index_insert]; rewrite ?L;
        reflexivity.
Qed.

Lemma by_service_filter (p : Row -> bool) (l : list Row) :
  by_service (filter p l) = filter p (by_service l).
Proof.
  induction l as [|r l IH]; [reflexivity|]. cbn [filter by_service].
  rewrite index_insert_filter by apply by_service_sorted.
  destruct (p r); cbn [by_service]; now rewrite IH.
Qed.

(** The three services in the order of the index, and a proper prefix
    before the longer text. *)
Example services_in_index_order :
  pystr_leb (lit "cloudflare") (lit "netlify") = true
  /\ pystr_leb (lit "netlify") (lit "vercel") = true
  /\ pystr_leb (lit "vercel") (lit "cloudflare") = false
  /\ pystr_leb (lit "netlify") (lit "cloudflare") = false
  /\ pystr_leb (lit "vercel") (lit "vercel") = true
  /\ pystr_leb (lit "ver") (lit "vercel") = true
  /\ pystr_leb (lit "vercel") (lit "ver") = false
  /\ pystr_leb (lit "Vercel") (lit "cloudflare") = true.
Proof. vm_compute. repeat split. Qed.

(** After [setup_webhook] has stored a subscription, [list_webhooks]
    answers in that guild with the list, never with the text for an
    empty one.  The fields of the guild's subscriptions to other
    services are there as before, in the same order, and among them the
    field of the new subscription, named after the service and saying
    that it is enabled, at the place of its service in the order of the
    index: after the services that come before it and before those that
    come after it (so a subscription to "cloudflare" set up after one to
    "vercel" is listed first). *)
Theorem setup_is_listed (get_channel get_role : Z -> option pystr)
    (url : pystr) (guild : Z) (channel : Channel) (svc : pystr)
    (ping_role : option Role) (db : Store) :
  exists before after,
    filter (fun r => negb (pystr_eqb (service r) svc)) (select_guild guild db)
    = before ++ after
    /\ Forall (fun r => pystr_leb (service r) svc = true) before
    /\ Forall (fun r => pystr_leb (service r) svc = false) after
    /\ list_webhooks get_channel get_role guild
         (fst (setup_webhook (Created url) true guild channel svc ping_role
                 db))
       = ReplyEmbed (lit "Active Webhooks") 39423 None
           (map (webhook_field get_channel get_role) before
            ++ [mkField (capitalize svc)
                  (lit "Channel: "
                   ++ match get_channel (ch_id channel) with
                      | Some mention => mention
                      | None => lit "Unknown Channel"
                      end
                   ++ nl ++ lit "Ping Role: "
                   ++ match ping_role with
                      | Some role =>
                          if role_id role =? 0 then lit "None"
                          else match get_role (role_id role) with
                               | Some mention => mention
                               | None => lit "Deleted Role"
                               end
                      | None => lit "None"
                      end
                   ++ nl ++ lit "Status: ‚úÖ Enabled")
                  true]
            ++ map (webhook_field get_channel get_role) after)
           false.
Proof.
  unfold setup_webhook. cbn [negb fst].
  set (row := mkRow guild (ch_id channel) url svc
                (match ping_role with
                 | Some role => Some (role_id role)
                 | None => None
                 end) 1 None).
  assert (E : filter (fun r => guild_id r =? guild)
                (filter (fun r => negb (has_key guild svc r)) db)
              = filter (fun r => negb (pystr_eqb (service r) svc))
                  (filter (fun r => guild_id r =? guild) db)).
  { induction db as [|r db IH]; [reflexivity|]. cbn [filter].
    unfold has_key at 1.
    destruct (guild_id r =? guild) eqn:G; cbn [andb negb filter].
    - destruct (pystr_eqb (service r) svc); cbn [negb filter];
        rewrite ?G; now rewrite IH.
    - rewrite ?G. exact IH. }
  destruct (by_service_snoc row
              (filter (fun r => negb (pystr_eqb (service r) svc))
                 (filter (fun r => guild_id r =? guild) db)))
    as (before & after & E1 & E2 & Fb & Fa).
  exists before, after.
  split; [unfold select_guild; now rewrite <- by_service_filter|].
  split; [exact Fb|]. split; [exact Fa|].
  unfold list_webhooks, select_guild, insert_or_replace.
  rewrite filter_app. cbn [filter]. change (guild_id row) with guild.
  change (service row) with svc. rewrite Z.eqb_refl, E, E2.
  assert (W : webhook_field get_channel get_role row
              = mkField (capitalize svc)
                  (lit "Channel: "
                   ++ match get_channel (ch_id channel) with
                      | Some mention => mention
                      | None => lit "Unknown Channel"
                      end
                   ++ nl ++ lit "Ping Role: "
                   ++ match ping_role with
                      | Some role =>
                          if role_id role =? 0 then lit "None"
                          else match get_role (role_id role) with
                               | Some mention => mention
                               | None => lit "Deleted Role"
                               end
                      | None => lit "None"
                      end
                   ++ nl ++ lit "Status: ‚úÖ Enabled")
                  true).
  { unfold row. destruct ping_role as [role|]; [|reflexivity].
    unfold webhook_field. cbn [ping_role_id channel_id enabled service].
    destruct (role_id role =? 0); reflexivity. }
  rewrite <- W.
  replace (map (webhook_field get_channel get_role) before
           ++ [webhook_field get_channel get_role row]
           ++ map (webhook_field get_channel get_role) after)
    with (map (webhook_field get_channel get_role) (before ++ row :: after))
    by (now rewrite map_app).
  now destruct before.
Qed.

(** A subscription to "vercel", then one to "cloudflare": the listing
    has Cloudflare first. *)
Example listing_is_in_the_order_of_the_services :
  list_webhooks (fun _ => Some (lit "<#11>")) (fun _ => None) 1
    (fst (setup_webhook (Created (lit "https://discord.test/b")) true 1
            (mkChannel 11 (lit "<#11>") true) (lit "cloudflare") None
            (fst (setup_webhook (Created (lit "https://discord.test/a")) true
                    1 (mkChannel 11 (lit "<#11>") true) (lit "vercel") None
                    []))))
  = ReplyEmbed (lit "Active Webhooks") 39423 None
      [mkField (lit "Cloudflare")
         (lit "Channel: <#11>" ++ [10%N] ++ lit "Ping Role: None" ++ [10%N]
          ++ lit "Status: ‚úÖ Enabled") true;
       mkField (lit "Vercel")
         (lit "Channel: <#11>" ++ [10%N] ++ lit "Ping Role: None" ++ [10%N]
          ++ lit "Status: ‚úÖ Enabled") true]
      false.
Proof. vm_compute. reflexivity. Qed.

(** ** Permissions of the subscription commands *)

(** Without the permission to manage webhooks, [setup_webhook],
    [remove_webhook] and [toggle_webhook] leave the table as it is:
    they create no webhook and execute no statement, and their only
    action is the ephemeral refusal.  With the permission, a
    [setup_webhook] whose webhook cannot be created writes nothing
    either. *)
Theorem subscription_commands_need_permission (create : CreateOutcome)
    (guild : Z) (channel : Channel) (svc : pystr) (ping_role : option Role)
    (db : Store) :
  setup_webhook create false guild channel svc ping_role db
  = (db, [needs_manage_webhooks])
  /\ remove_webhook false guild svc db = (db, [needs_manage_webhooks])
  /\ toggle_webhook false guild svc db = (db, [needs_manage_webhooks])
  /\ ((forall url, create <> Created url) ->
      fst (setup_webhook create true guild channel svc ping_role db) = db
      /\ filter is_write
           (snd (setup_webhook create true guild channel svc ping_role db))
         = []).
Proof.
  split; [reflexivity|]. split; [reflexivity|]. split; [reflexivity|].
  intros N. unfold setup_webhook. cbn [negb].
  destruct create as [url| |text]; [now elim (N url)| |]; split; reflexivity.
Qed.

(** ** [bot_stats] *)

(** The uptime that [bot_stats] shows: for a time of [days] days and
    [seconds] seconds (from 0 to 86399, as a [timedelta] has them), the
    hours are from 0 to 23 and the minutes from 0 to 59, and together
    they are the seconds up to less than a minute. *)
Theorem bot_stats_uptime (db : Store) (n_guilds : nat) (latency_ms : Z)
    (days seconds : Z) (now : Z) :
  0 <= seconds < 86400 ->
  exists hours minutes,
    0 <= hours < 24
    /\ 0 <= minutes < 60
    /\ 0 <= seconds - (3600 * hours + 60 * minutes) < 60
    /\ exists fields,
         bot_stats db n_guilds latency_ms (Some (days, seconds)) now
         = ReplyEmbed (63743%N :: lit "ü§ñ Bot Statistics") 39423 (Some now)
             (fields
              ++ [mkField (lit "Uptime")
                    (str_of_int days ++ lit "d " ++ str_of_int hours
                     ++ lit "h " ++ str_of_int minutes ++ lit "m") true])
             true
         /\ List.length fields = 4%nat.
Proof.
  intros S. exists (seconds / 3600), ((seconds mod 3600) / 60).
  pose proof (Z.div_mod seconds 3600 ltac:(lia)) as D1.
  pose proof (Z.mod_pos_bound seconds 3600 ltac:(lia)) as B1.
  pose proof (Z.div_mod (seconds mod 3600) 60 ltac:(lia)) as D2.
  pose proof (Z.mod_pos_bound (seconds mod 3600) 60 ltac:(lia)) as B2.
  assert (H1 : 0 <= seconds / 3600 < 24).
  { split; [apply Z.div_pos; lia | apply Z.div_lt_upper_bound; lia]. }
  assert (H2 : 0 <= (seconds mod 3600) / 60 < 60).
  { split; [apply Z.div_pos; lia | apply Z.div_lt_upper_bound; lia]. }
  split; [exact H1|]. split; [exact H2|]. split; [lia|].
  exists [mkField (lit "Servers") (str_of_int (Z.of_nat n_guilds)) true;
          mkField (lit "Active Webhooks")
            (str_of_int (Z.of_nat (active_webhooks db))) true;
          mkField (lit "Servers with Webhooks")
            (str_of_int (Z.of_nat (guilds_with_webhooks db))) true;
          mkField (lit "Latency") (str_of_int latency_ms ++ lit "ms") true].
  split; reflexivity.
Qed.

Lemma bot_stats_uptime_witness :
  exists hours minutes,
    0 <= hours < 24
    /\ 0 <= minutes < 60
    /\ 0 <= 7384 - (3600 * hours + 60 * minutes) < 60
    /\ exists fields,
         bot_stats ex_two_rows 3 42 (Some (1, 7384)) 0
         = ReplyEmbed (63743%N :: lit "ü§ñ Bot Statistics") 39423 (Some 0)
             (fields
              ++ [mkField (lit "Uptime")
                    (str_of_int 1 ++ lit "d " ++ str_of_int hours
                     ++ lit "h " ++ str_of_int minutes ++ lit "m") true])
             true
         /\ List.length fields = 4%nat.
Proof.
  assert (S : 0 <= 7384 < 86400) by lia.
  exact (bot_stats_uptime ex_two_rows 3 42 1 7384 0 S).
Defined.

(** ** The channel a bulk command sends to *)

(** The channel that [broadcast] and [multi_send] choose in a guild is
    one the bot may send to: the system channel whenever the bot may
    send there, otherwise one of the text channels where it may.  A
    guild has no such channel exactly when the bot may send neither to
    its system channel nor to any of its text channels. *)
Theorem target_channel_is_usable (guild : Guild) :
  (forall target,
     target_channel guild = Some target ->
     ch_can_send target = true
     /\ (system_channel guild = Some target
         \/ In target (text_channels guild)))
  /\ (forall c, system_channel guild = Some c -> ch_can_send c = true ->
                target_channel guild = Some c)
  /\ (target_channel guild = None
      <-> forall c, system_channel guild = Some c \/ In c (text_channels guild) ->
                    ch_can_send c = false).
Proof.
  unfold target_channel. split; [|split].
  - intros target H.
    destruct (system_channel guild) as [c|] eqn:S.
    + destruct (ch_can_send c) eqn:C.
      * injection H as <-. split; [exact C | now left].
      * apply find_some in H as [H1 H2]. split; [exact H2 | now right].
    + apply find_some in H as [H1 H2]. split; [exact H2 | now right].
  - intros c S C. rewrite S, C. reflexivity.
  - destruct (system_channel guild) as [c|] eqn:S.
    + destruct (ch_can_send c) eqn:C.
      * split; [discriminate|]. intros H.
        rewrite (H c (or_introl eq_refl)) in C. discriminate.
      * split.
        -- intros F c' [E | I]; [congruence|].
           now apply (find_none _ _ F).
        -- intros H. destruct (find ch_can_send (text_channels guild)) eqn:F;
             [|reflexivity].
           apply find_some in F as [F1 F2].
           rewrite (H c0 (or_intror F1)) in F2. discriminate.
    + split.
      * intros F c' [E | I]; [discriminate|]. now apply (find_none _ _ F).
      * intros H. destruct (find ch_can_send (text_channels guild)) eqn:F;
          [|reflexivity].
        apply find_some in F as [F1 F2].
        rewrite (H c (or_intror F1)) in F2. discriminate.
Qed.

Lemma broadcast_loop_sends (send : nat -> SendOutcome) (clk : nat -> Z)
    (target : Channel) (embed_format : bool) (message : pystr) (count : Z)
    (delay : Q) :
  forall remaining i s f,
    filter is_send
      (fst (fst (broadcast_loop send clk target embed_format message count
                   delay remaining i s f)))
    = map (fun k => Send (ch_id target)
                      (broadcast_content embed_format message k count (clk k))
                      (send k))
        (seq i remaining).
Proof.
  induction remaining as [|r IH]; intros i s f; [reflexivity|].
  cbn [broadcast_loop seq map].
  destruct (send i) eqn:E;
    match goal with
    | |- context [broadcast_loop _ _ _ _ _ _ _ r (S i) ?a ?b] =>
        specialize (IH (S i) a b);
        destruct (broadcast_loop send clk target embed_format message count
                    delay r (S i) a b) as [[rest s1] f1]
    end;
    cbn [fst] in *; cbn [filter is_send];
    rewrite ?filter_app, ?filter_send_pause, IH; try reflexivity.
  now destruct (status =? 429).
Qed.

Lemma broadcast_guilds_sends (w : BroadcastWorld) (embed_format : bool)
    (message : pystr) (count : Z) (delay : Q) :
  forall gs j st,
    filter is_send
      (fst (broadcast_guilds w embed_format message count delay j gs st))
    = flat_map (broadcast_attempts w embed_format message count)
        (combine (seq j (List.length gs)) gs).
Proof.
  induction gs as [|g gs IH]; intros j st; [reflexivity|].
  cbn [broadcast_guilds List.length seq combine flat_map].
  destruct (broadcast_pass w embed_format message count delay j g st)
    as [a1 st1] eqn:P.
  specialize (IH (S j) st1).
  destruct (broadcast_guilds w embed_format message count delay (S j) gs st1)
    as [a2 st2].
  cbn [fst] in *. rewrite filter_app, IH. f_equal.
  unfold broadcast_pass in P. unfold broadcast_attempts. cbn [fst snd].
  destruct (target_channel g) as [target|].
  - pose proof (broadcast_loop_sends (b_send w j) (b_clock w j) target
                  embed_format message count delay (Z.to_nat count) 0 0 0)
      as L.
    destruct (broadcast_loop (b_send w j) (b_clock w j) target embed_format
                message count delay (Z.to_nat count) 0 0 0)
      as [[sends s1] f1].
    cbn [fst] in L. injection P as <- _. rewrite filter_app, L.
    destruct (positive delay); cbn [filter is_send]; now rewrite app_nil_r.
  - injection P as <- _. reflexivity.
Qed.

(** The sends of [broadcast], for a count from 1 to 10 and a delay that
    is not negative: the guilds are served in the order of [bot.guilds],
    each guild with a usable channel gets its [count] sends in a row, to
    its target channel, and no other send is made. *)
Theorem broadcast_sends_in_guild_order (w : BroadcastWorld) (message : pystr)
    (embed_format : bool) (count : Z) (delay : Q) :
  1 <= count <= 10 ->
  negative delay = false ->
  filter is_send (fst (broadcast w message embed_format count delay))
  = flat_map (broadcast_attempts w embed_format message count)
      (combine (seq 0 (List.length (guilds w))) (guilds w)).
Proof.
  intros C D. unfold broadcast.
  destruct ((count <? 1) || (10 <? count)) eqn:V.
  { apply orb_true_iff in V as [V | V]; apply Z.ltb_lt in V; lia. }
  rewrite D.
  pose proof (broadcast_guilds_sends w embed_format message count delay
                (guilds w) 0 (mkBroadcastState 0 0 0)) as G.
  destruct (broadcast_guilds w embed_format message count delay 0 (guilds w)
              (mkBroadcastState 0 0 0)) as [sends st].
  cbn [fst] in *. cbn [filter is_send]. rewrite filter_app, G.
  cbn [filter is_send]. now rewrite app_nil_r.
Qed.

Lemma broadcast_sends_in_guild_order_witness :
  filter is_send (fst (broadcast ex_broadcast_world (lit "hi") false 2 0))
  = flat_map (broadcast_attempts ex_broadcast_world false (lit "hi") 2)
      (combine (seq 0 (List.length (guilds ex_broadcast_world)))
         (guilds ex_broadcast_world)).
Proof.
  assert (C : 1 <= 2 <= 10) by lia.
  exact (broadcast_sends_in_guild_order ex_broadcast_world (lit "hi") false 2
           0 C eq_refl).
Defined.

(** The first and the third guild are served, each with two sends to the
    channel the bot may use; the second has none. *)
Example broadcast_sends_to_usable_channels :
  filter is_send (fst (broadcast ex_broadcast_world (lit "hi") false 2 0))
  = [Send 11 (Text (lit "hi")) Sent; Send 11 (Text (lit "hi")) Sent;
     Send 31 (Text (lit "hi")) Forbidden; Send 31 (Text (lit "hi")) Forbidden].
Proof. vm_compute. reflexivity. Qed.

(** ** The lines of the report of [multi_send] *)

Lemma guild_loop_sent (send : nat -> SendOutcome) (clk : nat -> Z)
    (target : Channel) (guild : Guild) (embed_format : bool) (message : pystr)
    (count : Z) (delay : Q) :
  forall remaining i s f,
    snd (fst (guild_loop send clk target guild embed_format message count
                delay remaining i s f))
    = s + Z.of_nat
            (List.length
               (filter (fun k => match send k with
                                 | Sent => true
                                 | _ => false
                                 end)
                  (seq i remaining)))
    /\ snd (fst (guild_loop send clk target guild embed_format message count
                   delay remaining i s f))
       + snd (guild_loop send clk target guild embed_format message count
                delay remaining i s f)
       = s + f + Z.of_nat remaining.
Proof.
  induction remaining as [|r IH]; intros i s f.
  - cbn. split; lia.
  - cbn [guild_loop seq filter].
    destruct (send i) eqn:E;
      match goal with
      | |- context [guild_loop _ _ _ _ _ _ _ _ r (S i) ?a ?b] =>
          specialize (IH (S i) a b);
          destruct (guild_loop send clk target guild embed_format message
                      count delay r (S i) a b) as [[rest s1] f1]
      end;
      cbn [fst snd] in *; destruct IH as [I1 I2];
      cbn [List.length]; split; lia.
Qed.

Lemma multi_pass_line (w : MultiWorld) (embed_format : bool) (message : pystr)
    (count : Z) (delay : Q) (many : bool) (j : nat) (id : Z) (st : MultiState)
    (guild : Guild) (target : Channel) :
  0 <= count ->
  get_guild w id = Some guild ->
  target_channel guild = Some target ->
  results (snd (multi_pass w embed_format message count delay many j id st))
  = dict_set (results st) id
      (if accepted_sends w j count =? count
       then lit "‚úÖ " ++ g_name guild ++ lit ": "
            ++ str_of_int (accepted_sends w j count)
            ++ lit "/" ++ str_of_int count ++ lit " sent"
       else lit "‚ö†Ô∏è " ++ g_name guild ++ lit ": "
            ++ str_of_int (accepted_sends w j count)
            ++ lit "/" ++ str_of_int count ++ lit " sent, "
            ++ str_of_int (count - accepted_sends w j count) ++ lit " failed").
Proof.
  intros C G T. unfold multi_pass. rewrite G, T.
  pose proof (guild_loop_sent (send_outcome w j) (clock w j) target guild
                embed_format message count delay (Z.to_nat count) 0 0 0)
    as [L1 L2].
  destruct (guild_loop (send_outcome w j) (clock w j) target guild
              embed_format message count delay (Z.to_nat count) 0 0 0)
    as [[sends s1] f1].
  cbn [fst snd results] in *. rewrite Z2Nat.id in L2 by lia.
  fold (accepted_sends w j count) in L1. rewrite Z.add_0_l in L1.
  subst s1. replace f1 with (count - accepted_sends w j count) by lia.
  reflexivity.
Qed.

Lemma multi_loop_other (w : MultiWorld) (embed_format : bool) (message : pystr)
    (count : Z) (delay : Q) (many : bool) (id : Z) (guild_ids : list Z) :
  forall j st,
    ~ In id guild_ids ->
    results_get
      (results (snd (multi_loop w embed_format message count delay many j
                       guild_ids st))) id
    = results_get (results st) id.
Proof.
  induction guild_ids as [|g rest IH]; intros j st N; [reflexivity|].
  rewrite multi_loop_step. cbn [snd].
  rewrite IH by (intros I; apply N; now right).
  destruct (multi_pass_spec w embed_format message count delay many j g st)
    as ((text & T & _) & _).
  rewrite T. apply results_get_set_other. intros E. apply N. now left.
Qed.

(** The line of a server in the report of [multi_send] tells what
    happened there.  For a list of distinct ids, the result of an id
    that resolves to a guild with a usable channel names the guild and
    the number of its sends that were accepted, of [count]; it is the
    line with the check mark exactly when all [count] were accepted,
    and otherwise the warning line, which also gives the number of
    failed sends, [count] less the accepted ones. *)
Theorem multi_send_line_tells_the_sends (w : MultiWorld)
    (to_int : pystr -> option Z) (server_ids message : pystr)
    (embed_format : bool) (count : Z) (delay : Q) (guild_ids : list Z)
    (j : nat) (id : Z) (guild : Guild) (target : Channel) :
  1 <= count <= 20 ->
  negative delay = false ->
  parse_ids to_int (split_comma server_ids []) = Some guild_ids ->
  (List.length guild_ids <= 20)%nat ->
  NoDup guild_ids ->
  nth_error guild_ids j = Some id ->
  get_guild w id = Some guild ->
  target_channel guild = Some target ->
  exists actions st,
    multi_send w to_int server_ids message embed_format count delay
    = (actions, Some st)
    /\ 0 <= accepted_sends w j count <= count
    /\ results_get (results st) id
       = Some (if accepted_sends w j count =? count
               then lit "‚úÖ " ++ g_name guild ++ lit ": "
                    ++ str_of_int (accepted_sends w j count)
                    ++ lit "/" ++ str_of_int count ++ lit " sent"
               else lit "‚ö†Ô∏è " ++ g_name guild ++ lit ": "
                    ++ str_of_int (accepted_sends w j count)
                    ++ lit "/" ++ str_of_int count ++ lit " sent, "
                    ++ str_of_int (count - accepted_sends w j count)
                    ++ lit " failed").
Proof.
  intros C D P L U H G T. unfold multi_send.
  destruct ((count <? 1) || (20 <? count)) eqn:V.
  { apply orb_true_iff in V as [V | V]; apply Z.ltb_lt in V; lia. }
  rewrite D, P.
  assert (B : (20 <? List.length guild_ids)%nat = false)
    by (apply Nat.ltb_ge; exact L).
  rewrite B.
  assert (K : forall ids j0 st0 k,
             NoDup ids ->
             nth_error ids k = Some id ->
             results_get
               (results (snd (multi_loop w embed_format message count delay
                                (1 <? List.length guild_ids)%nat j0 ids st0)))
               id
             = Some (if accepted_sends w (j0 + k) count =? count
                     then lit "‚úÖ " ++ g_name guild ++ lit ": "
                          ++ str_of_int (accepted_sends w (j0 + k) count)
                          ++ lit "/" ++ str_of_int count ++ lit " sent"
                     else lit "‚ö†Ô∏è " ++ g_name guild ++ lit ": "
                          ++ str_of_int (accepted_sends w (j0 + k) count)
                          ++ lit "/" ++ str_of_int count ++ lit " sent, "
                          ++ str_of_int (count - accepted_sends w (j0 + k) count)
                          ++ lit " failed")).
  { induction ids as [|g rest IH]; intros j0 st0 k N E.
    - destruct k; discriminate.
    - apply NoDup_cons_iff in N as [N1 N2]. rewrite multi_loop_step.
      cbn [snd]. destruct k as [|k]; cbn [nth_error] in E.
      + injection E as ->. rewrite multi_loop_other by exact N1.
        rewrite (multi_pass_line w embed_format message count delay _ j0 id
                   st0 guild target) by (try lia; assumption).
        rewrite results_get_set_same, Nat.add_0_r. reflexivity.
      + rewrite (IH (S j0) _ k N2 E).
        replace (S j0 + k)%nat with (j0 + S k)%nat by lia. reflexivity. }
  specialize (K guild_ids 0%nat (mkMultiState [] 0 0) j U H).
  cbn [Nat.add] in K.
  destruct (multi_loop w embed_format message count delay
              (1 <? List.length guild_ids)%nat 0 guild_ids
              (mkMultiState [] 0 0)) as [sends st].
  cbn [snd] in K.
  exists (Defer true :: sends ++ followups (multi_result_msg st count delay)), st.
  split; [reflexivity|]. split; [|exact K].
  unfold accepted_sends. split; [lia|].
  pose proof (filter_length_le
                (fun i => match send_outcome w j i with
                          | Sent => true
                          | _ => false
                          end) (seq 0 (Z.to_nat count))) as F.
  rewrite length_seq in F. lia.
Qed.

Lemma multi_send_line_tells_the_sends_witness :
  exists actions st,
    multi_send ex_multi_world ex_to_int (lit "1,2,3") (lit "hi") false 2 0
    = (actions, Some st)
    /\ 0 <= accepted_sends ex_multi_world 2 2 <= 2
    /\ results_get (results st) 3
       = Some (if accepted_sends ex_multi_world 2 2 =? 2
               then lit "‚úÖ " ++ g_name
                                   (mkGuild (lit "Gamma")
                                      (Some (mkChannel 30 (lit "<#30>") false))
                                      [mkChannel 31 (lit "<#31>") false;
                                       mkChannel 32 (lit "<#32>") true])
                    ++ lit ": "
                    ++ str_of_int (accepted_sends ex_multi_world 2 2)
                    ++ lit "/" ++ str_of_int 2 ++ lit " sent"
               else lit "‚ö†Ô∏è " ++ g_name
                                    (mkGuild (lit "Gamma")
                                       (Some (mkChannel 30 (lit "<#30>") false))
                                       [mkChannel 31 (lit "<#31>") false;
                                        mkChannel 32 (lit "<#32>") true])
                    ++ lit ": "
                    ++ str_of_int (accepted_sends ex_multi_world 2 2)
                    ++ lit "/" ++ str_of_int 2 ++ lit " sent, "
                    ++ str_of_int (2 - accepted_sends ex_multi_world 2 2)
                    ++ lit " failed").
Proof.
  assert (C : 1 <= 2 <= 20) by lia.
  assert (P : parse_ids ex_to_int (split_comma (lit "1,2,3") [])
              = Some [1; 2; 3])
    by (vm_compute; reflexivity).
  assert (L : (List.length [1; 2; 3] <= 20)%nat) by (simpl; lia).
  assert (U : NoDup [1; 2; 3]).
  { repeat constructor; simpl; intros H; intuition discriminate. }
  exact (multi_send_line_tells_the_sends ex_multi_world ex_to_int
           (lit "1,2,3") (lit "hi") false 2 0 [1; 2; 3] 2 3
           (mkGuild (lit "Gamma") (Some (mkChannel 30 (lit "<#30>") false))
              [mkChannel 31 (lit "<#31>") false;
               mkChannel 32 (lit "<#32>") true])
           (mkChannel 32 (lit "<#32>") true)
           C eq_refl P L U eq_refl eq_refl eq_refl).
Defined.

(** The third id of the list: one of its two sends is refused, and its
    line says so. *)
Example multi_send_line_of_a_refused_send :
  match multi_send ex_multi_world ex_to_int (lit "1,2,3") (lit "hi") false 2 0
  with
  | (_, Some st) =>
      results_get (results st) 3
      = Some (lit "‚ö†Ô∏è Gamma: 1/2 sent, 1 failed")
  | _ => False
  end.
Proof. vm_compute. reflexivity. Qed.
